(** * oidcop.configure: the configuration resolution engine

    A shallow embedding of [src/oidcop/configure.py].

    Python dictionaries and lists are mutable objects that the code
    updates in place and shares between the caller's tree, the working
    tree of a builder and the attributes of the built object.  The
    embedding therefore keeps an explicit object store: a value is an
    immutable scalar or a reference into the store, and every function
    of the source is a computation in a state-and-exception monad over
    that store. *)

From Stdlib Require Import ZArith String Ascii List Lia DecimalString.
From stdpp Require Import base list strings gmap.

Set Default Proof Using "Type".

(** ** Values, objects and the store *)

Abbreviation loc := nat.

(** The classes of the module. *)
Inductive cls : Type :=
| CBase
| COPConfiguration
| CConfiguration.

(** A Python value: a scalar, a logging handle, or a reference to a
    mutable object of the store.  Floats are not part of the model. *)
Inductive val : Type :=
| VNone
| VBool (b : bool)
| VInt (z : Z)
| VStr (s : string)
| VLogger (configured : bool)
| VRef (l : loc).

(** A dict keeps its entries in insertion order; an instance is its
    class together with its [__dict__]. *)
Inductive obj : Type :=
| ODict (items : list (string * val))
| OList (elems : list val)
| OInst (c : cls) (attrs : list (string * val)).

Abbreviation heap := (list obj).

Inductive exn : Type :=
| AttributeError
| KeyError
| IndexError
| ValueError
| TypeError.

Global Instance val_eq_dec : EqDecision val.
Proof. solve_decision. Defined.
Global Instance cls_eq_dec : EqDecision cls.
Proof. solve_decision. Defined.
Global Instance obj_eq_dec : EqDecision obj.
Proof. solve_decision. Defined.
Global Instance exn_eq_dec : EqDecision exn.
Proof. solve_decision. Defined.

(** The result of a pure library function: a value, an exception, or
    an input outside the modelled fragment. *)
Inductive result (A : Type) : Type :=
| Done (a : A)
| Failed (e : exn)
| Beyond.
Arguments Done {A} a.
Arguments Failed {A} e.
Arguments Beyond {A}.

Definition rbind {A B} (m : result A) (k : A -> result B) : result B :=
  match m with
  | Done a => k a
  | Failed e => Failed e
  | Beyond => Beyond
  end.

Definition rmap {A B} (f : A -> B) (m : result A) : result B :=
  rbind m (fun a => Done (f a)).

(** ** The monad

    A computation takes the store and either returns a result with the
    new store, raises an exception (the store reached so far is kept:
    Python does not roll back), runs out of recursion fuel, or leaves
    the fragment of Python that is modelled. *)

Inductive outcome (A : Type) : Type :=
| Ok (a : A) (h : heap)
| Raise (e : exn) (h : heap)
| Diverge
| Unmodelled.
Arguments Ok {A} a h.
Arguments Raise {A} e h.
Arguments Diverge {A}.
Arguments Unmodelled {A}.

Definition M (A : Type) : Type := heap -> outcome A.

Definition ret {A} (a : A) : M A := fun h => Ok a h.

Definition bind {A B} (m : M A) (k : A -> M B) : M B :=
  fun h =>
    match m h with
    | Ok a h' => k a h'
    | Raise e h' => Raise e h'
    | Diverge => Diverge
    | Unmodelled => Unmodelled
    end.

Definition raise {A} (e : exn) : M A := fun h => Raise e h.
Definition diverge {A} : M A := fun _ => Diverge.
Definition unmodelled {A} : M A := fun _ => Unmodelled.

Declare Scope py_scope.
Delimit Scope py_scope with py.
Notation "x <- m ;; k" := (bind m (fun x => k))
  (at level 20, m at level 99, k at level 200, only parsing) : py_scope.
Notation "' p <- m ;; k" := (bind m (fun x => match x with p => k end))
  (at level 20, p pattern, m at level 99, k at level 200, only parsing) : py_scope.
Notation "m ;; k" := (bind m (fun _ => k))
  (at level 100, k at level 200, only parsing, right associativity) : py_scope.
Local Open Scope py_scope.

(** [for x in xs: body x] *)
Fixpoint for_each {A} (xs : list A) (body : A -> M unit) : M unit :=
  match xs with
  | [] => ret tt
  | x :: xs' => body x ;; for_each xs' body
  end.

(** ** Store primitives *)

Definition alloc (o : obj) : M loc :=
  fun h => Ok (length h) (h ++ [o]).

Definition load (l : loc) : M obj :=
  fun h => match h !! l with Some o => Ok o h | None => Unmodelled end.

Definition store (l : loc) (o : obj) : M unit :=
  fun h => Ok tt (<[l := o]> h).

(** ** Association lists with Python's dict discipline *)

Fixpoint assoc_get {A} (kvs : list (string * A)) (key : string) : option A :=
  match kvs with
  | [] => None
  | (k, v) :: kvs' => if String.eqb k key then Some v else assoc_get kvs' key
  end.

(** Assignment keeps the position of an existing key and appends a new one. *)
Fixpoint assoc_set {A} (kvs : list (string * A)) (key : string) (x : A)
  : list (string * A) :=
  match kvs with
  | [] => [(key, x)]
  | (k, v) :: kvs' =>
      if String.eqb k key then (k, x) :: kvs' else (k, v) :: assoc_set kvs' key x
  end.

(** ** Operations on values *)

(** Truth value of an object ([bool(v)]): [None], [False], [0], the
    empty string and empty containers are falsy. *)
Definition truthy (v : val) : M bool :=
  match v with
  | VNone => ret false
  | VBool b => ret b
  | VInt z => ret (negb (z =? 0)%Z)
  | VStr s => ret (negb (String.eqb s ""))
  | VLogger _ => ret true
  | VRef l =>
      o <- load l ;;
      match o with
      | ODict items => ret (match items with [] => false | _ => true end)
      | OList elems => ret (match elems with [] => false | _ => true end)
      | OInst _ _ => ret true
      end
  end.

(** [isinstance(v, dict)] and [isinstance(v, list)] *)
Definition isinstance_dict (v : val) : M bool :=
  match v with
  | VRef l => o <- load l ;; ret (match o with ODict _ => true | _ => false end)
  | _ => ret false
  end.

Definition isinstance_list (v : val) : M bool :=
  match v with
  | VRef l => o <- load l ;; ret (match o with OList _ => true | _ => false end)
  | _ => ret false
  end.

(** Looking up a [str] method ([startswith], [format]) on a value: only
    strings have it, any other value of the model raises
    [AttributeError]. *)
Definition str_method (v : val) : M string :=
  match v with
  | VStr s => ret s
  | VRef l =>
      o <- load l ;;
      match o with OInst _ _ => unmodelled | _ => raise AttributeError end
  | VLogger _ => unmodelled
  | _ => raise AttributeError
  end.

(** The entries of a dict, for [conf.items()], [conf.get] and
    [key in conf]; other values have no such methods. *)
Definition dict_entries (v : val) : M (list (string * val)) :=
  match v with
  | VRef l =>
      o <- load l ;;
      match o with
      | ODict items => ret items
      | OList _ => raise AttributeError
      | OInst _ _ => unmodelled
      end
  | VLogger _ => unmodelled
  | _ => raise AttributeError
  end.

(** [conf.get(key, default)] *)
Definition dict_get (conf : val) (key : string) (default : val) : M val :=
  items <- dict_entries conf ;;
  ret (match assoc_get items key with Some v => v | None => default end).

(** [key in conf], for a dict *)
Definition dict_contains (conf : val) (key : string) : M bool :=
  match conf with
  | VRef l =>
      o <- load l ;;
      match o with
      | ODict items => ret (match assoc_get items key with Some _ => true | None => false end)
      | OList elems => ret (bool_decide (VStr key ∈ elems))
      | OInst _ _ => unmodelled
      end
  | VStr _ | VLogger _ => unmodelled
  | _ => raise TypeError
  end.

(** [conf[key]] with a string key *)
Definition getitem (conf : val) (key : string) : M val :=
  match conf with
  | VRef l =>
      o <- load l ;;
      match o with
      | ODict items =>
          match assoc_get items key with
          | Some v => ret v
          | None => raise KeyError
          end
      | OList _ => raise TypeError
      | OInst _ _ => unmodelled
      end
  | VLogger _ => unmodelled
  | _ => raise TypeError
  end.

(** [conf[key] = x] *)
Definition setitem (conf : val) (key : string) (x : val) : M unit :=
  match conf with
  | VRef l =>
      o <- load l ;;
      match o with
      | ODict items => store l (ODict (assoc_set items key x))
      | OList _ => raise TypeError
      | OInst _ _ => unmodelled
      end
  | VLogger _ => unmodelled
  | _ => raise TypeError
  end.

(** The [i]-th entry of the live dict, as the dict iterator yields it. *)
Definition dict_item_at (conf : val) (i : nat) : M (string * val) :=
  items <- dict_entries conf ;;
  match items !! i with
  | Some kv => ret kv
  | None => unmodelled
  end.

(** The names that [setattr] does not store in the [__dict__] of an
    instance of the module's classes: their type has a data descriptor
    for each of them, and the assignment goes to the descriptor. *)
Definition DATA_DESCRIPTORS : list string :=
  ["__weakref__"; "__class__"; "__dict__"].

(** [setattr(self, name, x)], also written [self.name = x].  The
    attribute [__weakref__] is not writable, [__class__] takes a class
    (no value of the model is one) and [__dict__] takes a dict, which
    becomes the [__dict__] of the instance (outside the model); every
    other name is an entry of the [__dict__]. *)
Definition setattr (self : loc) (name : string) (x : val) : M unit :=
  o <- load self ;;
  match o with
  | OInst c attrs =>
      if String.eqb name "__weakref__" then raise AttributeError
      else if String.eqb name "__class__" then raise TypeError
      else if String.eqb name "__dict__" then
        is_dict <- isinstance_dict x ;;
        if is_dict : bool then unmodelled else raise TypeError
      else store self (OInst c (assoc_set attrs name x))
  | _ => unmodelled
  end.

Definition attr_names (self : loc) : M (list string) :=
  o <- load self ;;
  match o with
  | OInst _ attrs => ret (map fst attrs)
  | _ => unmodelled
  end.

Definition getattr (self : loc) (name : string) : M val :=
  o <- load self ;;
  match o with
  | OInst _ attrs =>
      match assoc_get attrs name with
      | Some v => ret v
      | None => raise AttributeError
      end
  | _ => unmodelled
  end.

(** Reading an attribute or a dict entry of a given store, for
    statements about a final state. *)
Definition attr_of (h : heap) (self : loc) (name : string) : option val :=
  match h !! self with
  | Some (OInst _ attrs) => assoc_get attrs name
  | _ => None
  end.

Definition entry_of (h : heap) (conf : val) (key : string) : option val :=
  match conf with
  | VRef l =>
      match h !! l with
      | Some (ODict items) => assoc_get items key
      | _ => None
      end
  | _ => None
  end.

(** ** Library functions called by the module *)

(** [s.startswith(prefix)] and [s.endswith(suffix)] *)
Definition startswith (s prefix : string) : bool := String.prefix prefix s.

Fixpoint endswith (s suffix : string) : bool :=
  String.eqb s suffix
  || match s with
     | EmptyString => false
     | String _ s' => endswith s' suffix
     end.

(** [os.path.join(a, b)] of [posixpath] *)
Definition path_join (a b : string) : string :=
  if startswith b "/" then b
  else if String.eqb a "" || endswith a "/" then a +:+ b
  else a +:+ "/" +:+ b.

(** [path.split("/")] and ["/".join(comps)] *)
Fixpoint split_sep (s : string) : list string :=
  match s with
  | EmptyString => [EmptyString]
  | String c s' =>
      let parts := split_sep s' in
      if Ascii.eqb c "/" then EmptyString :: parts
      else match parts with
           | p :: ps => String c p :: ps
           | [] => [String c EmptyString]
           end
  end.

Fixpoint join_sep (comps : list string) : string :=
  match comps with
  | [] => ""
  | [c] => c
  | c :: cs => c +:+ "/" +:+ join_sep cs
  end.

(** [os.path.normpath(path)] of [posixpath] *)
Definition normpath (path : string) : string :=
  if String.eqb path "" then "."
  else
    let initial_slashes : nat :=
      if startswith path "/" then
        if startswith path "//" && negb (startswith path "///") then 2 else 1
      else 0 in
    let step (new_comps : list string) (comp : string) : list string :=
      if String.eqb comp "" || String.eqb comp "." then new_comps
      else if negb (String.eqb comp "..")
              || (Nat.eqb initial_slashes 0
                  && match new_comps with [] => true | _ => false end)
              || match last new_comps with
                 | Some c => String.eqb c ".."
                 | None => false
                 end
           then new_comps ++ [comp]
           else removelast new_comps in
    let comps := fold_left step (split_sep path) [] in
    let path := String.concat "" (repeat "/" initial_slashes) +:+ join_sep comps in
    if String.eqb path "" then "." else path.

(** [os.path.abspath(path)], with the working directory of the process
    as a parameter. *)
Definition abspath (cwd path : string) : string :=
  normpath (if startswith path "/" then path else path_join cwd path).

(** *** [str.format(domain=..., port=...)]

    The format string is scanned from left to right as CPython does:
    doubled braces are literal braces, a single closing brace or an
    unclosed field is a [ValueError], a field named [domain] or [port]
    is replaced by the argument, an empty or numeric field asks for a
    positional argument that does not exist ([IndexError]) and any
    other plain name is a [KeyError].  Fields with a conversion, a
    format specification, an attribute or an index are outside the
    model. *)

(** [format(v, "")] for a scalar argument *)
Definition format_value (v : val) : option string :=
  match v with
  | VStr s => Some s
  | VInt z => Some (NilZero.string_of_int (Z.to_int z))
  | VBool true => Some "True"
  | VBool false => Some "False"
  | VNone => Some "None"
  | _ => None
  end.

Definition is_digit (c : ascii) : bool :=
  (48 <=? nat_of_ascii c)%nat && (nat_of_ascii c <=? 57)%nat.

Definition all_digits (s : string) : bool :=
  forallb is_digit (list_ascii_of_string s).

(** The value of a replacement field; [domain] and [port] are the
    renderings [format(value, "")] of the two keyword arguments, [None]
    when the argument is not a scalar of the model. *)
Definition get_field (name : string) (domain port : option string)
  : result string :=
  if String.eqb name "domain" then
    match domain with Some s => Done s | None => Beyond end
  else if String.eqb name "port" then
    match port with Some s => Done s | None => Beyond end
  else if String.eqb name "" then Failed IndexError
  else if all_digits name then
    if (String.length name <=? 18)%nat then Failed IndexError else Beyond
  else Failed KeyError.

Definition emit (text : string) (rest : result string) : result string :=
  rmap (String.append text) rest.

Inductive fmt_state : Type :=
| InText
| AfterOpen
| InField (name : string)
| AfterClose.

Definition field_special (c : ascii) : bool :=
  Ascii.eqb c "{" || Ascii.eqb c "!" || Ascii.eqb c ":"
  || Ascii.eqb c "." || Ascii.eqb c "[".

Fixpoint format_from (st : fmt_state) (s : string)
    (domain port : option string) : result string :=
  match s with
  | EmptyString =>
      match st with
      | InText => Done ""
      | _ => Failed ValueError
      end
  | String c s' =>
      let field (name : string) :=
        if Ascii.eqb c "}" then
          match get_field name domain port with
          | Done r => emit r (format_from InText s' domain port)
          | other => other
          end
        else if field_special c then Beyond
        else format_from (InField (name +:+ String c "")) s' domain port in
      match st with
      | InText =>
          if Ascii.eqb c "{" then format_from AfterOpen s' domain port
          else if Ascii.eqb c "}" then format_from AfterClose s' domain port
          else emit (String c "") (format_from InText s' domain port)
      | AfterClose =>
          if Ascii.eqb c "}" then emit "}" (format_from InText s' domain port)
          else Failed ValueError
      | AfterOpen =>
          if Ascii.eqb c "{" then emit "{" (format_from InText s' domain port)
          else field ""
      | InField name => field name
      end
  end.

Definition str_format (s : string) (domain port : val) : M string :=
  match format_from InText s (format_value domain) (format_value port) with
  | Done r => ret r
  | Failed e => raise e
  | Beyond => unmodelled
  end.

(** *** [copy.deepcopy]

    Scalars are returned as they are; a dict or a list is copied into a
    new object that is entered in the memo before its contents are
    copied, so shared and cyclic structure is preserved. *)

Fixpoint memo_get (memo : list (loc * loc)) (l : loc) : option loc :=
  match memo with
  | [] => None
  | (x, y) :: memo' => if Nat.eqb x l then Some y else memo_get memo' l
  end.

Definition list_append (l : loc) (x : val) : M unit :=
  o <- load l ;;
  match o with
  | OList elems => store l (OList (elems ++ [x]))
  | _ => unmodelled
  end.

(** The loops of [_deepcopy_dict] and [_deepcopy_list]; [copy] is the
    recursive call [deepcopy(value, memo)]. *)
Fixpoint copy_items (copy : val -> list (loc * loc) -> M (val * list (loc * loc)))
    (y : loc) (items : list (string * val)) (memo : list (loc * loc))
  : M (list (loc * loc)) :=
  match items with
  | [] => ret memo
  | (key, value) :: items' =>
      ' (value', memo') <- copy value memo ;;
      setitem (VRef y) key value' ;;
      copy_items copy y items' memo'
  end.

Fixpoint copy_elems (copy : val -> list (loc * loc) -> M (val * list (loc * loc)))
    (y : loc) (elems : list val) (memo : list (loc * loc))
  : M (list (loc * loc)) :=
  match elems with
  | [] => ret memo
  | a :: elems' =>
      ' (a', memo') <- copy a memo ;;
      list_append y a' ;;
      copy_elems copy y elems' memo'
  end.

Fixpoint deepcopy_memo (fuel : nat) (x : val) (memo : list (loc * loc))
  : M (val * list (loc * loc)) :=
  match fuel with
  | O => diverge
  | S fuel' =>
      match x with
      | VRef l =>
          match memo_get memo l with
          | Some y => ret (VRef y, memo)
          | None =>
              o <- load l ;;
              match o with
              | ODict items =>
                  y <- alloc (ODict []) ;;
                  memo' <- copy_items (deepcopy_memo fuel') y items
                             ((l, y) :: memo) ;;
                  ret (VRef y, memo')
              | OList elems =>
                  y <- alloc (OList []) ;;
                  memo' <- copy_elems (deepcopy_memo fuel') y elems
                             ((l, y) :: memo) ;;
                  ret (VRef y, memo')
              | OInst _ _ => unmodelled
              end
          end
      | VLogger _ => unmodelled
      | _ => ret (x, memo)
      end
  end.

Definition deepcopy (fuel : nat) (x : val) : M val :=
  ' (y, _) <- deepcopy_memo fuel x [] ;;
  ret y.

(** ** Configuration trees

    The raw configuration a loader returns is a tree of mappings,
    sequences and scalars.  [build] evaluates such a literal: it
    creates the objects of the tree in the store, innermost first. *)

Unset Elimination Schemes.
Inductive tree : Type :=
| TNone
| TBool (b : bool)
| TInt (z : Z)
| TStr (s : string)
| TList (elems : list tree)
| TDict (items : list (string * tree)).
Set Elimination Schemes.

(** Induction over a tree, with the hypothesis for every element of a
    sequence and every value of a mapping. *)
Fixpoint tree_ind (P : tree -> Prop)
    (HNone : P TNone) (HBool : forall b, P (TBool b))
    (HInt : forall z, P (TInt z)) (HStr : forall s, P (TStr s))
    (HList : forall elems, Forall P elems -> P (TList elems))
    (HDict : forall items, Forall (fun kt => P (snd kt)) items -> P (TDict items))
    (t : tree) : P t :=
  match t with
  | TNone => HNone
  | TBool b => HBool b
  | TInt z => HInt z
  | TStr s => HStr s
  | TList elems =>
      HList elems
        ((fix all (ts : list tree) : Forall P ts :=
            match ts with
            | [] => @List.Forall_nil _ P
            | t' :: ts' =>
                @List.Forall_cons _ P t' ts'
                  (tree_ind P HNone HBool HInt HStr HList HDict t') (all ts')
            end) elems)
  | TDict items =>
      HDict items
        ((fix all (kts : list (string * tree))
            : Forall (fun kt => P (snd kt)) kts :=
            match kts with
            | [] => @List.Forall_nil _ _
            | kt :: kts' =>
                @List.Forall_cons _ (fun kt => P (snd kt)) kt kts'
                  (tree_ind P HNone HBool HInt HStr HList HDict (snd kt))
                  (all kts')
            end) items)
  end.

Fixpoint build (t : tree) : M val :=
  match t with
  | TNone => ret VNone
  | TBool b => ret (VBool b)
  | TInt z => ret (VInt z)
  | TStr s => ret (VStr s)
  | TList elems =>
      vs <- (fix build_elems (ts : list tree) : M (list val) :=
               match ts with
               | [] => ret []
               | t' :: ts' =>
                   v <- build t' ;;
                   vs <- build_elems ts' ;;
                   ret (v :: vs)
               end) elems ;;
      l <- alloc (OList vs) ;;
      ret (VRef l)
  | TDict items =>
      kvs <- (fix build_items (kts : list (string * tree))
                : M (list (string * val)) :=
                match kts with
                | [] => ret []
                | (k, t') :: kts' =>
                    v <- build t' ;;
                    kvs <- build_items kts' ;;
                    ret ((k, v) :: kvs)
                end) items ;;
      l <- alloc (ODict kvs) ;;
      ret (VRef l)
  end.

(** ** Module-level constants *)

Definition DEFAULT_FILE_ATTRIBUTE_NAMES : list string :=
  [ "server_key"; "server_cert"; "filename"; "template_dir";
    "private_path"; "public_path"; "db_file" ].

Definition DEFAULT_CONFIG_literal : tree :=
  TDict [
    ("cookie_handler", TDict [
      ("class", TStr "oidcop.cookie_handler.CookieHandler");
      ("kwargs", TDict [
        ("keys", TDict [
          ("private_path", TStr "private/cookie_jwks.json");
          ("key_defs", TList [
            TDict [("type", TStr "OCT"); ("use", TList [TStr "enc"]); ("kid", TStr "enc")];
            TDict [("type", TStr "OCT"); ("use", TList [TStr "sig"]); ("kid", TStr "sig")]
          ]);
          ("read_only", TBool false)
        ]);
        ("name", TDict [
          ("session", TStr "oidc_op");
          ("register", TStr "oidc_op_rp");
          ("session_management", TStr "sman")
        ])
      ])
    ]);
    ("authz", TDict [
      ("class", TStr "oidcop.authz.AuthzHandling");
      ("kwargs", TDict [
        ("grant_config", TDict [
          ("usage_rules", TDict [
            ("authorization_code", TDict [
              ("supports_minting",
                TList [TStr "access_token"; TStr "refresh_token"; TStr "id_token"]);
              ("max_usage", TInt 1)
            ]);
            ("access_token", TDict []);
            ("refresh_token", TDict [
              ("supports_minting", TList [TStr "access_token"; TStr "refresh_token"])
            ])
          ]);
          ("expires_in", TInt 43200)
        ])
      ])
    ]);
    ("httpc_params", TDict [("verify", TBool false)]);
    ("issuer", TStr "https://{domain}:{port}");
    ("session_key", TDict [
      ("filename", TStr "private/session_jwk.json");
      ("type", TStr "OCT");
      ("use", TStr "sig")
    ]);
    ("template_dir", TStr "templates");
    ("token_handler_args", TDict [
      ("jwks_file", TStr "private/token_jwks.json");
      ("code", TDict [("kwargs", TDict [("lifetime", TInt 600)])]);
      ("token", TDict [
        ("class", TStr "oidcop.token.jwt_token.JWTToken");
        ("kwargs", TDict [("lifetime", TInt 3600)])
      ]);
      ("refresh", TDict [
        ("class", TStr "oidcop.token.jwt_token.JWTToken");
        ("kwargs", TDict [("lifetime", TInt 86400)])
      ]);
      ("id_token", TDict [
        ("class", TStr "oidcop.token.id_token.IDToken");
        ("kwargs", TDict [])
      ])
    ])
  ].

(** The store after the module has been imported, and the reference
    bound to the global name [DEFAULT_CONFIG]. *)
Definition module_state : val * heap :=
  Eval vm_compute in
    match build DEFAULT_CONFIG_literal [] with
    | Ok v h => (v, h)
    | _ => (VNone, [])
    end.

Definition module_heap : heap := snd module_state.
Definition DEFAULT_CONFIG : val := fst module_state.

Definition URIS : list string := ["issuer"; "base_url"].

(** ** [add_base_path] *)

(** One round of the loop [for key, val in conf.items()], at the [i]-th
    entry of [conf]; [recurse] is the recursive call. *)
Definition add_base_path_step (recurse : val -> M val) (conf : val)
    (base_path : string) (file_attributes : list string) (i : nat) : M unit :=
  ' (key, v) <- dict_item_at conf i ;;
  skip <- (if bool_decide (key ∈ file_attributes) then
             s <- str_method v ;;
             if startswith s "/" then ret true
             else if String.eqb s "" then
               setitem conf key (VStr ("./" +:+ s)) ;; ret false
             else
               setitem conf key (VStr (path_join base_path s)) ;; ret false
           else ret false) ;;
  if skip : bool then ret tt
  else
    is_dict <- isinstance_dict v ;;
    if is_dict : bool then
      r <- recurse v ;;
      setitem conf key r
    else ret tt.

Fixpoint add_base_path (fuel : nat) (conf : val) (base_path : string)
    (file_attributes : list string) : M val :=
  match fuel with
  | O => diverge
  | S fuel' =>
      items <- dict_entries conf ;;
      for_each (seq 0 (length items))
        (add_base_path_step
           (fun v => add_base_path fuel' v base_path file_attributes)
           conf base_path file_attributes) ;;
      ret conf
  end.

(** ** [set_domain_and_port] *)

(** [[v.format(domain=domain, port=port) for v in val]] *)
Fixpoint format_all (elems : list val) (domain port : val) : M (list val) :=
  match elems with
  | [] => ret []
  | v :: elems' =>
      s <- str_method v ;;
      r <- str_format s domain port ;;
      rs <- format_all elems' domain port ;;
      ret (VStr r :: rs)
  end.

Definition list_elems (v : val) : M (list val) :=
  match v with
  | VRef l =>
      o <- load l ;;
      match o with OList elems => ret elems | _ => unmodelled end
  | _ => unmodelled
  end.

Definition set_domain_and_port_step (recurse : val -> M val) (conf : val)
    (uris : list string) (domain port : val) (i : nat) : M unit :=
  ' (key, v) <- dict_item_at conf i ;;
  if bool_decide (key ∈ uris) then
    is_list <- isinstance_list v ;;
    _new <- (if is_list : bool then
               elems <- list_elems v ;;
               rs <- format_all elems domain port ;;
               l <- alloc (OList rs) ;;
               ret (VRef l)
             else
               s <- str_method v ;;
               r <- str_format s domain port ;;
               ret (VStr r)) ;;
    setitem conf key _new
  else
    is_dict <- isinstance_dict v ;;
    if is_dict : bool then
      r <- recurse v ;;
      setitem conf key r
    else ret tt.

Fixpoint set_domain_and_port (fuel : nat) (conf : val) (uris : list string)
    (domain port : val) : M val :=
  match fuel with
  | O => diverge
  | S fuel' =>
      items <- dict_entries conf ;;
      for_each (seq 0 (length items))
        (set_domain_and_port_step
           (fun v => set_domain_and_port fuel' v uris domain port)
           conf uris domain port) ;;
      ret conf
  end.

(** ** [class Base] *)

Definition Base_init (fuel : nat) (conf : val) (base_path : string)
    (file_attributes : option (list string)) : M unit :=
  let file_attributes :=
    match file_attributes with
    | None => DEFAULT_FILE_ATTRIBUTE_NAMES
    | Some names => names
    end in
  if negb (String.eqb base_path "")
     && match file_attributes with [] => false | _ => true end
  then add_base_path fuel conf base_path file_attributes ;; ret tt
  else ret tt.

(** ** Entity descriptors

    A descriptor is a dict read with [econf.get("path")],
    [econf["attr"]] and [econf["class"]]; a field is [None] when the
    key is absent. *)

Record econf : Type := {
  e_path : option (list string);
  e_attr : option string;
  e_class : option cls
}.

(** ** [class OPConfiguration] *)

Definition new_dict : M val :=
  l <- alloc (ODict []) ;; ret (VRef l).

(** The attribute names of the provider configuration, in the order in
    which [__init__] creates them. *)
Definition OP_SCHEMA : list string :=
  [ "add_on"; "authz"; "authentication"; "base_url"; "capabilities";
    "cookie_handler"; "endpoint"; "httpc_params"; "id_token"; "issuer";
    "keys"; "login_hint2acrs"; "login_hint_lookup"; "session_key";
    "sub_func"; "template_dir"; "token_handler_args"; "userinfo" ].

Definition OP_placeholders (self : loc) : M unit :=
  setattr self "add_on" VNone ;;
  setattr self "authz" VNone ;;
  setattr self "authentication" VNone ;;
  setattr self "base_url" (VStr "") ;;
  setattr self "capabilities" VNone ;;
  setattr self "cookie_handler" VNone ;;
  d <- new_dict ;; setattr self "endpoint" d ;;
  d <- new_dict ;; setattr self "httpc_params" d ;;
  setattr self "id_token" VNone ;;
  setattr self "issuer" (VStr "") ;;
  setattr self "keys" VNone ;;
  d <- new_dict ;; setattr self "login_hint2acrs" d ;;
  setattr self "login_hint_lookup" VNone ;;
  setattr self "session_key" VNone ;;
  d <- new_dict ;; setattr self "sub_func" d ;;
  setattr self "template_dir" VNone ;;
  d <- new_dict ;; setattr self "token_handler_args" d ;;
  setattr self "userinfo" VNone.

(** [if not x: x = conf.get(name, default)] *)
Definition resolve (x conf : val) (name : string) (default : val) : M val :=
  given <- truthy x ;;
  if given : bool then ret x else dict_get conf name default.

(** One round of the loop over [self.__dict__.keys()]. *)
Definition OP_merge_key (self : loc) (conf : val) (key : string) : M unit :=
  _val <- dict_get conf key VNone ;;
  present <- truthy _val ;;
  if present : bool then setattr self key _val
  else
    has_default <- dict_contains DEFAULT_CONFIG key ;;
    if has_default : bool then
      _val <- getitem DEFAULT_CONFIG key ;;
      setattr self key _val
    else ret tt.

Definition OP_template_dir (cwd : string) (self : loc) : M unit :=
  template_dir <- getattr self "template_dir" ;;
  match template_dir with
  | VNone => setattr self "template_dir" (VStr (abspath cwd "templates"))
  | VStr s => setattr self "template_dir" (VStr (abspath cwd s))
  | _ => raise TypeError
  end.

Definition OPConfiguration_init (fuel : nat) (cwd : string) (self : loc)
    (conf : val) (base_path : string) (entity_conf : option (list econf))
    (domain port : val) (file_attributes : option (list string)) : M unit :=
  conf <- deepcopy fuel conf ;;
  Base_init fuel conf base_path file_attributes ;;
  OP_placeholders self ;;
  domain <- resolve domain conf "domain" (VStr "127.0.0.1") ;;
  port <- resolve port conf "port" (VInt 80) ;;
  set_domain_and_port fuel conf URIS domain port ;;
  keys <- attr_names self ;;
  for_each keys (OP_merge_key self conf) ;;
  OP_template_dir cwd self.

(** [OPConfiguration(conf, ...)]: create the instance, run [__init__],
    return the instance. *)
Definition OPConfiguration (fuel : nat) (cwd : string)
    (conf : val) (base_path : string) (entity_conf : option (list econf))
    (domain port : val) (file_attributes : option (list string)) : M val :=
  self <- alloc (OInst COPConfiguration []) ;;
  OPConfiguration_init fuel cwd self conf base_path entity_conf domain port
    file_attributes ;;
  ret (VRef self).

(** ** [class Configuration] *)

(** Modelled from the spec: [oidcop.logging.configure_logging] is not
    part of the sources at hand; the builder "initializes a logging
    handle from an optional logging sub-tree", so the call returns a
    handle and leaves the store as it is. *)
Definition configure_logging (config : val) : M val := ret (VLogger true).

(** [for step in _path: _cnf = _cnf[step]] *)
Fixpoint walk (_cnf : val) (_path : list string) : M val :=
  match _path with
  | [] => ret _cnf
  | step :: rest => _cnf' <- getitem _cnf step ;; walk _cnf' rest
  end.

(** [econf["attr"]] and [econf["class"]] *)
Definition required {A} (field : option A) : M A :=
  match field with
  | Some x => ret x
  | None => raise KeyError
  end.

(** One round of the loop over [entity_conf]; [instantiate _cls _cnf]
    is the call [_cls(_cnf, base_path=..., file_attributes=...,
    domain=..., port=...)]. *)
Definition attach_entity (instantiate : cls -> val -> M val) (self : loc)
    (conf : val) (econf : econf) : M unit :=
  _cnf <- match e_path econf with
          | None | Some [] => ret conf
          | Some _path => walk conf _path
          end ;;
  _attr <- required (e_attr econf) ;;
  _cls <- required (e_class econf) ;;
  entity <- instantiate _cls _cnf ;;
  setattr self _attr entity.

(** ** Calling a class

    The parameters of the three [__init__] methods after [self], in
    the order of their [def]; every one has a default value except
    [conf]. *)
Definition init_parameters (c : cls) : list string :=
  match c with
  | CBase => ["conf"; "base_path"; "file_attributes"]
  | COPConfiguration =>
      ["conf"; "base_path"; "entity_conf"; "domain"; "port"; "file_attributes"]
  | CConfiguration =>
      ["conf"; "entity_conf"; "base_path"; "file_attributes"; "domain"; "port"]
  end.

Definition init_mandatory : list string := ["conf"].

(** Python binds a call with [positional] positional arguments and
    the keyword arguments [keywords] to the parameters when there are
    not more positional arguments than parameters, every keyword is the
    name of a parameter that no positional argument fills, and every
    parameter without a default value is filled. *)
Definition binds (parameters mandatory : list string) (positional : nat)
    (keywords : list string) : bool :=
  (positional <=? length parameters)
  && forallb (fun k => bool_decide (k ∈ drop positional parameters)) keywords
  && forallb
       (fun p => bool_decide (p ∈ take positional parameters ++ keywords))
       mandatory.

(** [c(...)] with [positional] positional arguments and the keyword
    arguments [keywords]: the instance is created, and [c.__init__] is
    called on it; [init] is its body with the arguments bound.
    Arguments that cannot be bound raise [TypeError]. *)
Definition call_class (c : cls) (positional : nat) (keywords : list string)
    (init : loc -> M unit) : M val :=
  self <- alloc (OInst c []) ;;
  (if binds (init_parameters c) init_mandatory positional keywords
   then init self
   else raise TypeError) ;;
  ret (VRef self).

(** [_cls(_cnf, base_path=base_path, file_attributes=file_attributes,
    domain=domain, port=port)] for a class of the module;
    [init_Configuration] is [Configuration.__init__] with these
    arguments. *)
Definition instantiate (init_Configuration : loc -> val -> M unit)
    (fuel : nat) (cwd : string) (base_path : string)
    (file_attributes : option (list string)) (domain port : val)
    (_cls : cls) (_cnf : val) : M val :=
  call_class _cls 1 ["base_path"; "file_attributes"; "domain"; "port"]
    (fun self =>
       match _cls with
       | CBase => Base_init fuel _cnf base_path file_attributes
       | COPConfiguration =>
           OPConfiguration_init fuel cwd self _cnf base_path None domain port
             file_attributes
       | CConfiguration => init_Configuration self _cnf
       end).

Fixpoint Configuration_init (fuel : nat) (cwd : string) (self : loc)
    (conf : val) (entity_conf : option (list econf)) (base_path : string)
    (file_attributes : option (list string)) (domain port : val) : M unit :=
  match fuel with
  | O => diverge
  | S fuel' =>
      Base_init fuel' conf base_path file_attributes ;;
      log_conf <- dict_get conf "logging" VNone ;;
      configured <- truthy log_conf ;;
      logger <- (if configured : bool then configure_logging log_conf
                 else ret (VLogger false)) ;;
      setattr self "logger" logger ;;
      items <- dict_entries conf ;;
      empty <- new_dict ;;
      setattr self "webserver"
        (match assoc_get items "webserver" with Some v => v | None => empty end) ;;
      domain <- resolve domain conf "domain" (VStr "127.0.0.1") ;;
      port <- resolve port conf "port" (VInt 80) ;;
      set_domain_and_port fuel' conf URIS domain port ;;
      match entity_conf with
      | None | Some [] => ret tt
      | Some descriptors =>
          for_each descriptors
            (attach_entity
               (instantiate
                  (fun sub _cnf =>
                     Configuration_init fuel' cwd sub _cnf None base_path
                       file_attributes domain port)
                  fuel' cwd base_path file_attributes domain port)
               self conf)
      end
  end.

Definition Configuration (fuel : nat) (cwd : string)
    (conf : val) (entity_conf : option (list econf)) (base_path : string)
    (file_attributes : option (list string)) (domain port : val) : M val :=
  self <- alloc (OInst CConfiguration []) ;;
  Configuration_init fuel cwd self conf entity_conf base_path file_attributes
    domain port ;;
  ret (VRef self).

(** ** The two passes as functions on trees

    On a store in which the configuration is a tree (no object is
    reached twice), the in-place passes compute the functions below;
    [add_base_path_refines] and [set_domain_and_port_refines] prove it. *)

(** The new value of a file attribute. *)
Definition rewrite_path (base_path s : string) : string :=
  if startswith s "/" then s
  else if String.eqb s "" then "./" +:+ s
  else path_join base_path s.

(** The entries of a mapping, each value replaced by [f key value],
    from the first entry on. *)
Fixpoint map_entries (f : string -> tree -> result tree)
    (kts : list (string * tree)) : result (list (string * tree)) :=
  match kts with
  | [] => Done []
  | (key, v) :: kts' =>
      rbind (f key v) (fun v' => rmap (cons (key, v')) (map_entries f kts'))
  end.

Definition add_base_path_value (recurse : tree -> result tree)
    (base_path : string) (file_attributes : list string)
    (key : string) (v : tree) : result tree :=
  if bool_decide (key ∈ file_attributes) then
    match v with
    | TStr s => Done (TStr (rewrite_path base_path s))
    | _ => Failed AttributeError
    end
  else
    match v with
    | TDict _ => recurse v
    | _ => Done v
    end.

Fixpoint add_base_path_tree (base_path : string) (file_attributes : list string)
    (t : tree) : result tree :=
  match t with
  | TDict items =>
      rmap TDict
        (map_entries
           (add_base_path_value (add_base_path_tree base_path file_attributes)
              base_path file_attributes) items)
  | _ => Failed AttributeError
  end.

Fixpoint format_elems (elems : list tree) (domain port : option string)
  : result (list tree) :=
  match elems with
  | [] => Done []
  | TStr s :: elems' =>
      rbind (format_from InText s domain port)
        (fun r => rmap (cons (TStr r)) (format_elems elems' domain port))
  | _ :: _ => Failed AttributeError
  end.

Definition set_domain_and_port_value (recurse : tree -> result tree)
    (uris : list string) (domain port : option string)
    (key : string) (v : tree) : result tree :=
  if bool_decide (key ∈ uris) then
    match v with
    | TList elems => rmap TList (format_elems elems domain port)
    | TStr s => rmap TStr (format_from InText s domain port)
    | _ => Failed AttributeError
    end
  else
    match v with
    | TDict _ => recurse v
    | _ => Done v
    end.

Fixpoint set_domain_and_port_tree (uris : list string)
    (domain port : option string) (t : tree) : result tree :=
  match t with
  | TDict items =>
      rmap TDict
        (map_entries
           (set_domain_and_port_value
              (set_domain_and_port_tree uris domain port) uris domain port)
           items)
  | _ => Failed AttributeError
  end.

(** Nesting depth of a tree: enough recursion fuel for a pass over it. *)
Fixpoint height (t : tree) : nat :=
  match t with
  | TList elems => S (list_max (map height elems))
  | TDict items => S (list_max (map (fun kt => height (snd kt)) items))
  | _ => 0
  end.

Definition truthy_tree (t : tree) : bool :=
  match t with
  | TNone => false
  | TBool b => b
  | TInt z => negb (z =? 0)%Z
  | TStr s => negb (String.eqb s "")
  | TList elems => match elems with [] => false | _ => true end
  | TDict items => match items with [] => false | _ => true end
  end.

(** ** Trees in the store

    [repr h v t F]: in the store [h] the value [v] is the root of the
    tree [t], whose objects are exactly the locations [F], each
    reached once. *)

Inductive repr (h : heap) : val -> tree -> gset loc -> Prop :=
| repr_None : repr h VNone TNone ∅
| repr_Bool b : repr h (VBool b) (TBool b) ∅
| repr_Int z : repr h (VInt z) (TInt z) ∅
| repr_Str s : repr h (VStr s) (TStr s) ∅
| repr_List l vs ts F :
    h !! l = Some (OList vs) ->
    repr_elems h vs ts F ->
    l ∉ F ->
    repr h (VRef l) (TList ts) ({[l]} ∪ F)
| repr_Dict l kvs kts F :
    h !! l = Some (ODict kvs) ->
    NoDup (map fst kvs) ->
    repr_items h kvs kts F ->
    l ∉ F ->
    repr h (VRef l) (TDict kts) ({[l]} ∪ F)
with repr_elems (h : heap) : list val -> list tree -> gset loc -> Prop :=
| repr_elems_nil : repr_elems h [] [] ∅
| repr_elems_cons v t F vs ts Fs :
    repr h v t F ->
    repr_elems h vs ts Fs ->
    F ## Fs ->
    repr_elems h (v :: vs) (t :: ts) (F ∪ Fs)
with repr_items (h : heap)
  : list (string * val) -> list (string * tree) -> gset loc -> Prop :=
| repr_items_nil : repr_items h [] [] ∅
| repr_items_cons k v t F kvs kts Fs :
    repr h v t F ->
    repr_items h kvs kts Fs ->
    F ## Fs ->
    repr_items h ((k, v) :: kvs) ((k, t) :: kts) (F ∪ Fs).

Scheme repr_mut := Induction for repr Sort Prop
  with repr_elems_mut := Induction for repr_elems Sort Prop
  with repr_items_mut := Induction for repr_items Sort Prop.
Combined Scheme repr_mutind from repr_mut, repr_elems_mut, repr_items_mut.

(** ** Reasoning about computations *)

(** [returns m h Q]: from the store [h] the computation [m] returns
    normally, with a result and a store that satisfy [Q]. *)
Definition returns {A} (m : M A) (h : heap) (Q : A -> heap -> Prop) : Prop :=
  match m h with
  | Ok a h' => Q a h'
  | _ => False
  end.

(** ** Specifications of the in-place passes *)

(** How a pass may change the store around a tree with objects [F]:
    the store only grows, objects outside [F] keep their contents, and
    the objects [F'] of the new tree are old ones or newly created. *)
Definition in_place (h : heap) (F : gset loc) (h' : heap) (F' : gset loc)
  : Prop :=
  length h ≤ length h' /\
  (forall l, l < length h -> l ∉ F -> h' !! l = h !! l) /\
  (forall l, l ∈ F' -> l ∈ F \/ length h ≤ l).

(** A round of an in-place loop in general form: compute a new value
    for the entry from its key and value, and assign it if there is one. *)
Definition entry_step (update : string -> val -> M (option val)) (conf : val)
    (i : nat) : M unit :=
  ' (key, v) <- dict_item_at conf i ;;
  r <- update key v ;;
  match r with
  | Some x => setitem conf key x
  | None => ret tt
  end.

(** [update] computes on the store what [f] computes on trees, and the
    old and the new value of the entry are related by [P n], where [n]
    is the size of the store before the round. *)
Definition update_refines (P : nat -> string -> val -> val -> Prop)
    (update : string -> val -> M (option val))
    (f : string -> tree -> result tree) (key : string) (t : tree) : Prop :=
  forall h v F t',
    repr h v t F -> f key t = Done t' ->
    returns (update key v) h (fun r h' =>
      P (length h) key v (default v r) /\
      exists F', repr h' (default v r) t' F' /\ in_place h F h' F').

(** What the two passes do to the value of an entry: a value under a
    key that is not selected is kept (the very same reference for a
    nested mapping or a sequence); [set_domain_and_port] puts a newly
    created sequence in the place of a sequence under a URI key. *)
Definition keeps_other (names : list string) (n : nat) (key : string)
    (v x : val) : Prop :=
  key ∉ names -> x = v.

Definition renews_lists (names : list string) (n : nat) (key : string)
    (v x : val) : Prop :=
  (key ∉ names -> x = v) /\
  (key ∈ names -> forall l, v = VRef l -> exists l', x = VRef l' /\ n ≤ l').

(** The pass [run] computes on the store what [f] computes on trees. *)
Definition pass_refines (run : val -> M val) (f : tree -> result tree)
    (t : tree) : Prop :=
  forall h v F t',
    repr h v t F -> f t = Done t' ->
    returns (run v) h (fun r h' =>
      r = v /\ exists F', repr h' v t' F' /\ in_place h F h' F').

(** The two loops in that form. *)
Definition add_base_path_update (recurse : val -> M val) (base_path : string)
    (file_attributes : list string) (key : string) (v : val)
  : M (option val) :=
  if bool_decide (key ∈ file_attributes) then
    s <- str_method v ;;
    if startswith s "/" then ret None
    else ret (Some (VStr (rewrite_path base_path s)))
  else
    is_dict <- isinstance_dict v ;;
    if is_dict : bool then r <- recurse v ;; ret (Some r) else ret None.

Definition set_domain_and_port_update (recurse : val -> M val)
    (uris : list string) (domain port : val) (key : string) (v : val)
  : M (option val) :=
  if bool_decide (key ∈ uris) then
    is_list <- isinstance_list v ;;
    if is_list : bool then
      elems <- list_elems v ;;
      rs <- format_all elems domain port ;;
      l <- alloc (OList rs) ;;
      ret (Some (VRef l))
    else
      s <- str_method v ;;
      r <- str_format s domain port ;;
      ret (Some (VStr r))
  else
    is_dict <- isinstance_dict v ;;
    if is_dict : bool then r <- recurse v ;; ret (Some r) else ret None.

(** [copy] returns, for the root of a tree none of whose objects is in
    the memo, the root of a copy made of new objects only, and leaves
    the existing objects as they are. *)
Definition copy_refines
    (copy : val -> list (loc * loc) -> M (val * list (loc * loc)))
    (t : tree) : Prop :=
  forall h v F memo,
    repr h v t F ->
    (forall l, l ∈ F -> memo_get memo l = None) ->
    returns (copy v memo) h (fun r h' =>
      exists F',
        repr h' (fst r) t F' /\
        (forall l, l ∈ F' -> length h ≤ l) /\
        length h ≤ length h' /\
        (forall l, l < length h -> h' !! l = h !! l) /\
        (forall l, l ∉ F -> memo_get (snd r) l = memo_get memo l)).

(** ** What the passes are expected to do, in the words of their description *)

(** The file attributes of every mapping that [add_base_path] visits
    are strings. *)
Fixpoint paths_typed (file_attributes : list string) (t : tree) : bool :=
  match t with
  | TDict items =>
      forallb
        (fun kt =>
           if bool_decide (fst kt ∈ file_attributes) then
             match snd kt with TStr _ => true | _ => false end
           else
             match snd kt with
             | TDict _ => paths_typed file_attributes (snd kt)
             | _ => true
             end)
        items
  | _ => false
  end.

(** Path resolution: under a file-attribute key an absolute path stays,
    the empty string becomes ["./"], any other string is joined to the
    base path; under any other key a nested mapping is resolved in turn
    and every other value, sequences included, stays as it is. *)
Inductive path_resolved (base_path : string) (file_attributes : list string)
  : tree -> tree -> Prop :=
| path_resolved_dict items items' :
    entries_resolved base_path file_attributes items items' ->
    path_resolved base_path file_attributes (TDict items) (TDict items')
with entries_resolved (base_path : string) (file_attributes : list string)
  : list (string * tree) -> list (string * tree) -> Prop :=
| resolved_nil : entries_resolved base_path file_attributes [] []
| resolved_absolute key s rest rest' :
    key ∈ file_attributes -> startswith s "/" = true ->
    entries_resolved base_path file_attributes rest rest' ->
    entries_resolved base_path file_attributes
      ((key, TStr s) :: rest) ((key, TStr s) :: rest')
| resolved_empty key rest rest' :
    key ∈ file_attributes ->
    entries_resolved base_path file_attributes rest rest' ->
    entries_resolved base_path file_attributes
      ((key, TStr "") :: rest) ((key, TStr "./") :: rest')
| resolved_relative key s rest rest' :
    key ∈ file_attributes -> startswith s "/" = false -> s <> "" ->
    entries_resolved base_path file_attributes rest rest' ->
    entries_resolved base_path file_attributes
      ((key, TStr s) :: rest) ((key, TStr (path_join base_path s)) :: rest')
| resolved_nested key sub t' rest rest' :
    key ∉ file_attributes ->
    path_resolved base_path file_attributes (TDict sub) t' ->
    entries_resolved base_path file_attributes rest rest' ->
    entries_resolved base_path file_attributes
      ((key, TDict sub) :: rest) ((key, t') :: rest')
| resolved_other key v rest rest' :
    key ∉ file_attributes -> (forall sub, v <> TDict sub) ->
    entries_resolved base_path file_attributes rest rest' ->
    entries_resolved base_path file_attributes
      ((key, v) :: rest) ((key, v) :: rest').

(** The frame of path resolution: whatever is not a string under a
    file-attribute key is the same before and after. *)
Inductive outside_untouched (file_attributes : list string)
  : tree -> tree -> Prop :=
| untouched_dict items items' :
    entries_untouched file_attributes items items' ->
    outside_untouched file_attributes (TDict items) (TDict items')
with entries_untouched (file_attributes : list string)
  : list (string * tree) -> list (string * tree) -> Prop :=
| untouched_nil : entries_untouched file_attributes [] []
| untouched_file key s s' rest rest' :
    key ∈ file_attributes ->
    entries_untouched file_attributes rest rest' ->
    entries_untouched file_attributes
      ((key, TStr s) :: rest) ((key, TStr s') :: rest')
| untouched_nested key sub t' rest rest' :
    key ∉ file_attributes ->
    outside_untouched file_attributes (TDict sub) t' ->
    entries_untouched file_attributes rest rest' ->
    entries_untouched file_attributes
      ((key, TDict sub) :: rest) ((key, t') :: rest')
| untouched_other key v rest rest' :
    key ∉ file_attributes -> (forall sub, v <> TDict sub) ->
    entries_untouched file_attributes rest rest' ->
    entries_untouched file_attributes
      ((key, v) :: rest) ((key, v) :: rest').

(** [r] is the string [s] formatted with the domain and the port. *)
Definition formatted (domain port : option string) (e e' : tree) : Prop :=
  exists s r, e = TStr s /\ e' = TStr r /\
              format_from InText s domain port = Done r.

(** Template substitution: under a URI key a string is formatted and a
    sequence is replaced by the sequence of its formatted elements;
    under any other key a nested mapping is substituted in turn and
    every other value stays as it is. *)
Inductive uris_substituted (uris : list string) (domain port : option string)
  : tree -> tree -> Prop :=
| substituted_dict items items' :
    entries_substituted uris domain port items items' ->
    uris_substituted uris domain port (TDict items) (TDict items')
with entries_substituted (uris : list string) (domain port : option string)
  : list (string * tree) -> list (string * tree) -> Prop :=
| substituted_nil : entries_substituted uris domain port [] []
| substituted_scalar key s r rest rest' :
    key ∈ uris -> format_from InText s domain port = Done r ->
    entries_substituted uris domain port rest rest' ->
    entries_substituted uris domain port
      ((key, TStr s) :: rest) ((key, TStr r) :: rest')
| substituted_sequence key elems elems' rest rest' :
    key ∈ uris -> Forall2 (formatted domain port) elems elems' ->
    entries_substituted uris domain port rest rest' ->
    entries_substituted uris domain port
      ((key, TList elems) :: rest) ((key, TList elems') :: rest')
| substituted_nested key sub t' rest rest' :
    key ∉ uris ->
    uris_substituted uris domain port (TDict sub) t' ->
    entries_substituted uris domain port rest rest' ->
    entries_substituted uris domain port
      ((key, TDict sub) :: rest) ((key, t') :: rest')
| substituted_other key v rest rest' :
    key ∉ uris -> (forall sub, v <> TDict sub) ->
    entries_substituted uris domain port rest rest' ->
    entries_substituted uris domain port
      ((key, v) :: rest) ((key, v) :: rest').

(** Strings without braces, and templates made of such text and of
    the fields [{domain}] and [{port}]. *)
Fixpoint brace_free (s : string) : bool :=
  match s with
  | EmptyString => true
  | String c s' =>
      negb (Ascii.eqb c "{") && negb (Ascii.eqb c "}") && brace_free s'
  end.

Inductive plain_template : string -> Prop :=
| plain_end : plain_template ""
| plain_text c s :
    Ascii.eqb c "{" = false -> Ascii.eqb c "}" = false ->
    plain_template s -> plain_template (String c s)
| plain_domain s : plain_template s -> plain_template ("{domain}" +:+ s)
| plain_port s : plain_template s -> plain_template ("{port}" +:+ s).

(** Every URI value of every mapping that [set_domain_and_port] visits
    is a string, or a sequence of strings, with the property [P]. *)
Fixpoint uris_all (P : string -> Prop) (uris : list string) (t : tree) : Prop :=
  match t with
  | TDict items =>
      (fix entries (kts : list (string * tree)) : Prop :=
         match kts with
         | [] => True
         | (key, v) :: kts' =>
             (if bool_decide (key ∈ uris) then
                match v with
                | TStr s => P s
                | TList elems => Forall (fun e => exists s, e = TStr s /\ P s) elems
                | _ => False
                end
              else
                match v with
                | TDict _ => uris_all P uris v
                | _ => True
                end)
             /\ entries kts'
         end) items
  | _ => False
  end.

(** A tree as a loader produces it: no mapping has a key twice. *)
Fixpoint keys_unique (t : tree) : bool :=
  match t with
  | TList elems => forallb keys_unique elems
  | TDict items =>
      bool_decide (NoDup (map fst items))
      && forallb (fun kt => keys_unique (snd kt)) items
  | _ => true
  end.

(** ** Sample inputs *)

(** A raw configuration with relative, absolute and empty paths,
    templates under both URI keys, a nested mapping and sequences. *)
Definition sample_conf : tree :=
  TDict [
    ("issuer", TStr "https://{domain}:{port}");
    ("base_url", TList [TStr "https://{domain}"; TStr "http://{domain}:{port}"]);
    ("keys", TDict [
       ("private_path", TStr "jwks.json");
       ("public_path", TStr "/srv/static/jwks.json");
       ("db_file", TStr "");
       ("key_defs", TList [TStr "filename"; TStr "{domain}"])
     ]);
    ("webserver", TDict [("port", TInt 8080)])
  ].

(** The store after the module has been imported and [sample_conf] has
    been loaded, and the reference to the loaded tree. *)
Definition sample_state : val * heap :=
  Eval vm_compute in
    match build sample_conf module_heap with
    | Ok v h => (v, h)
    | _ => (VNone, [])
    end.

Definition sample_heap : heap := snd sample_state.
Definition sample_ref : val := fst sample_state.

(** An argument of [format] whose rendering has no braces. *)
Definition brace_free_value (v : val) : bool :=
  match format_value v with
  | Some s => brace_free s
  | None => false
  end.

(** ** The stages of the two builders *)

(** [OPConfiguration.__init__] up to the template substitution: the
    working copy of the configuration, path-resolved and substituted. *)
Definition OP_working_copy (fuel : nat) (self : loc) (conf : val)
    (base_path : string) (domain port : val)
    (file_attributes : option (list string)) : M val :=
  conf <- deepcopy fuel conf ;;
  Base_init fuel conf base_path file_attributes ;;
  OP_placeholders self ;;
  domain <- resolve domain conf "domain" (VStr "127.0.0.1") ;;
  port <- resolve port conf "port" (VInt 80) ;;
  set_domain_and_port fuel conf URIS domain port ;;
  ret conf.

(** [Configuration.__init__] up to the template substitution; the
    result is the domain and the port the entities are built with. *)
Definition Configuration_prepare (fuel : nat) (self : loc) (conf : val)
    (base_path : string) (file_attributes : option (list string))
    (domain port : val) : M (val * val) :=
  Base_init fuel conf base_path file_attributes ;;
  log_conf <- dict_get conf "logging" VNone ;;
  configured <- truthy log_conf ;;
  logger <- (if configured : bool then configure_logging log_conf
             else ret (VLogger false)) ;;
  setattr self "logger" logger ;;
  items <- dict_entries conf ;;
  empty <- new_dict ;;
  setattr self "webserver"
    (match assoc_get items "webserver" with Some v => v | None => empty end) ;;
  domain <- resolve domain conf "domain" (VStr "127.0.0.1") ;;
  port <- resolve port conf "port" (VInt 80) ;;
  set_domain_and_port fuel conf URIS domain port ;;
  ret (domain, port).

(** The entity classes as [Configuration.__init__] calls them. *)
Definition entity_class (fuel : nat) (cwd : string) (base_path : string)
    (file_attributes : option (list string)) (domain port : val)
  : cls -> val -> M val :=
  instantiate
    (fun sub _cnf =>
       Configuration_init fuel cwd sub _cnf None base_path file_attributes
         domain port)
    fuel cwd base_path file_attributes domain port.

(** The sample configuration with a new, empty server configuration
    object, as [Configuration.__init__] finds the store; the object is
    at [sample_self]. *)
Definition sample_self : loc := length sample_heap.
Definition sample_server_heap : heap := sample_heap ++ [OInst CConfiguration []].

Definition sample_entity : econf :=
  {| e_path := Some ["keys"]; e_attr := Some "op";
     e_class := Some COPConfiguration |}.
Definition sample_entity_missing : econf :=
  {| e_path := Some ["keys"; "jwks"; "private"]; e_attr := Some "op2";
     e_class := Some COPConfiguration |}.
Definition sample_entity_malformed : econf :=
  {| e_path := Some ["keys"]; e_attr := None;
     e_class := Some COPConfiguration |}.
Definition sample_entity_root : econf :=
  {| e_path := None; e_attr := Some "provider";
     e_class := Some COPConfiguration |}.
Definition sample_entity_server : econf :=
  {| e_path := Some ["webserver"]; e_attr := Some "web";
     e_class := Some CConfiguration |}.
Definition sample_entity_Base : econf :=
  {| e_path := Some ["keys"]; e_attr := Some "op";
     e_class := Some CBase |}.

(** The sub-tree a descriptor designates, in a given store: the
    configuration itself without a path, else the value the walk along
    the path returns. *)
Definition designates (conf : val) (d : econf) (h : heap) (_cnf : val)
  : Prop :=
  match e_path d with
  | None | Some [] => _cnf = conf
  | Some _path => walk conf _path h = Ok _cnf h
  end.

(** ** The provider-level builder on trees *)

(** Truth value of a scalar, and of a value in a given store. *)
Definition truthy_scalar (v : val) : bool :=
  match v with
  | VNone => false
  | VBool b => b
  | VInt z => negb (z =? 0)%Z
  | VStr s => negb (String.eqb s "")
  | _ => true
  end.

Definition truthy_in (h : heap) (v : val) : bool :=
  match v with
  | VRef l =>
      match h !! l with
      | Some (ODict []) | Some (OList []) => false
      | _ => true
      end
  | _ => truthy_scalar v
  end.

Definition is_scalar (v : val) : bool :=
  match v with
  | VRef _ | VLogger _ => false
  | _ => true
  end.

(** [t.get(key)] on a tree, and the rendering of a scalar tree as an
    argument of [format]. *)
Definition tree_get (t : tree) (key : string) : option tree :=
  match t with
  | TDict items => assoc_get items key
  | _ => None
  end.

Definition format_tree (t : tree) : option string :=
  match t with
  | TStr s => Some s
  | TInt z => Some (NilZero.string_of_int (Z.to_int z))
  | TBool true => Some "True"
  | TBool false => Some "False"
  | TNone => Some "None"
  | _ => None
  end.

(** The rendering of the domain (or port) a builder substitutes: the
    argument if it is truthy, else the entry of the configuration, else
    the fallback. *)
Definition resolve_tree (x : val) (t : tree) (name : string) (fallback : tree)
  : option string :=
  if truthy_scalar x then format_value x
  else format_tree (default fallback (tree_get t name)).

(** The tree after [Base.__init__]. *)
Definition base_tree (base_path : string)
    (file_attributes : option (list string)) (t : tree) : result tree :=
  let names := default DEFAULT_FILE_ATTRIBUTE_NAMES file_attributes in
  if negb (String.eqb base_path "")
     && match names with [] => false | _ => true end
  then add_base_path_tree base_path names t
  else Done t.

(** The working tree of a builder: path-resolved, then substituted. *)
Definition working_tree (base_path : string)
    (file_attributes : option (list string)) (domain port : val) (t : tree)
  : result tree :=
  rbind (base_tree base_path file_attributes t) (fun t1 =>
    set_domain_and_port_tree URIS
      (resolve_tree domain t1 "domain" (TStr "127.0.0.1"))
      (resolve_tree port t1 "port" (TInt 80)) t1).

(** The placeholders [OPConfiguration.__init__] starts from: [None],
    the empty string, or an empty dict created by the call. *)
Definition is_placeholder (n : nat) (h : heap) (v : val) : Prop :=
  v = VNone \/ v = VStr "" \/
  exists p, v = VRef p /\ n ≤ p /\ h !! p = Some (ODict []).

Definition placeholders_set (h0 : heap) (self : loc) (c : cls)
    (names : list string) (h : heap) : Prop :=
  exists attrs,
    h !! self = Some (OInst c attrs) /\
    map fst attrs = names /\
    length h0 ≤ length h /\
    (forall l, l < length h0 -> l <> self -> h !! l = h0 !! l) /\
    (forall key v, assoc_get attrs key = Some v -> is_placeholder (length h0) h v).

(** The value the merge loop assigns to the attribute [key]: the entry
    of the working copy if it is truthy, else the entry of the default
    table if there is one, else the attribute as it was. *)
Definition merged (h : heap) (kvs defaults : list (string * val))
    (key : string) (old : val) : val :=
  let _val := default VNone (assoc_get kvs key) in
  if truthy_in h _val then _val
  else default old (assoc_get defaults key).

(** The entries of the default table in a store. *)
Definition defaults_of (h : heap) : option (list (string * val)) :=
  match DEFAULT_CONFIG with
  | VRef l =>
      match h !! l with
      | Some (ODict items) => Some items
      | _ => None
      end
  | _ => None
  end.

(** The attributes after the merge loop. *)
Definition merge_attrs (h : heap) (kvs defaults : list (string * val))
    (attrs : list (string * val)) : list (string * val) :=
  map (fun kv => (fst kv, merged h kvs defaults (fst kv) (snd kv))) attrs.

(** The absolute template directory of the built object: from the
    working tree if it has a truthy [template_dir], else from the
    default table; [None] when that value is not a string. *)
Definition template_dir_of (cwd : string) (t : tree)
    (defaults : list (string * val)) : option string :=
  let from_default :=
    match assoc_get defaults "template_dir" with
    | Some (VStr s) => Some (abspath cwd s)
    | _ => None
    end in
  match tree_get t "template_dir" with
  | Some x =>
      if truthy_tree x then
        match x with
        | TStr s => Some (abspath cwd s)
        | _ => None
        end
      else from_default
  | None => from_default
  end.

(** [not t.get(key)]: the entry is missing or falsy. *)
Definition falsy_at (t : tree) (key : string) : bool :=
  match tree_get t key with
  | Some x => negb (truthy_tree x)
  | None => true
  end.

(** The default-merge rule for one attribute of a built object with
    attributes [attrs], where [kvs] are the entries of the working copy
    [t] in the store [h]: a falsy entry is replaced by the entry of the
    default table, or left at the placeholder if there is none; any
    other entry is taken as it is. *)
Definition merge_rule (n : nat) (h : heap) (t : tree)
    (kvs defaults attrs : list (string * val)) (key : string) : Prop :=
  (falsy_at t key = true ->
   forall d, assoc_get defaults key = Some d -> assoc_get attrs key = Some d) /\
  (falsy_at t key = true -> assoc_get defaults key = None ->
   exists old, is_placeholder n h old /\ assoc_get attrs key = Some old) /\
  (falsy_at t key = false ->
   exists v x Fx,
     tree_get t key = Some x /\ assoc_get kvs key = Some v /\
     repr h v x Fx /\ assoc_get attrs key = Some v).

(** ** The accessors of [class Base] *)

(** [key.startswith("__") and key.endswith("__")] *)
Definition is_dunder (key : string) : bool :=
  startswith key "__" && endswith key "__".

(** [Base.__getitem__]: [item in self.__dict__] decides between the
    entry and [KeyError]. *)
Definition Base_getitem (self : loc) (item : string) : M val :=
  o <- load self ;;
  match o with
  | OInst _ attrs =>
      match assoc_get attrs item with
      | Some v => ret v
      | None => raise KeyError
      end
  | _ => unmodelled
  end.

(** [Base.__contains__] *)
Definition Base_contains (self : loc) (item : string) : M bool :=
  o <- load self ;;
  match o with
  | OInst _ attrs =>
      ret (match assoc_get attrs item with Some _ => true | None => false end)
  | _ => unmodelled
  end.

(** The names the classes of the module define besides their special
    methods. *)
Definition CLASS_ATTRIBUTES : list string := ["parameter"; "get"; "items"].

(** [Base.get]: [getattr(self, item, default)].  An attribute of the
    instance is found first; a name that no class defines gives the
    default.  The special names ([__class__], [__dict__], ...) and the
    class attributes give descriptors, methods and the class-level
    [parameter], which are outside the values of the model. *)
Definition Base_get (self : loc) (item : string) (default : val) : M val :=
  o <- load self ;;
  match o with
  | OInst _ attrs =>
      if is_dunder item then unmodelled
      else
        match assoc_get attrs item with
        | Some v => ret v
        | None =>
            if bool_decide (item ∈ CLASS_ATTRIBUTES) then unmodelled
            else ret default
        end
  | _ => unmodelled
  end.

(** [Base.items], as the list of the pairs the generator yields when it
    is run to its end:
    [for key in self.__dict__: if dunder: continue; yield key, getattr(self, key)] *)
Fixpoint yield_items (self : loc) (keys : list string)
  : M (list (string * val)) :=
  match keys with
  | [] => ret []
  | key :: keys' =>
      if is_dunder key then yield_items self keys'
      else
        v <- getattr self key ;;
        rest <- yield_items self keys' ;;
        ret ((key, v) :: rest)
  end.

Definition Base_items (self : loc) : M (list (string * val)) :=
  keys <- attr_names self ;;
  yield_items self keys.

(** ** [create_from_config_file] *)

(** [p.rfind("/")] and [head.rstrip("/")] *)
Fixpoint rfind_sep (p : string) : option nat :=
  match p with
  | EmptyString => None
  | String c p' =>
      match rfind_sep p' with
      | Some i => Some (S i)
      | None => if Ascii.eqb c "/" then Some 0 else None
      end
  end.

Fixpoint rstrip_sep (s : string) : string :=
  match s with
  | EmptyString => EmptyString
  | String c s' =>
      match rstrip_sep s' with
      | EmptyString => if Ascii.eqb c "/" then EmptyString else String c EmptyString
      | r => String c r
      end
  end.

(** [os.path.split(p)] of [posixpath] *)
Definition path_split (p : string) : string * string :=
  let i := match rfind_sep p with Some j => S j | None => 0 end in
  let head := String.substring 0 i p in
  let tail := String.substring i (String.length p - i) p in
  let head :=
    if negb (String.eqb head "")
       && negb (String.eqb head
                  (String.concat "" (repeat "/" (String.length head))))
    then rstrip_sep head else head in
  (head, tail).

(** [cls(_conf, entity_conf=entity_conf, base_path=base_path,
    file_attributes=file_attributes, domain=domain, port=port)] for a
    class of the module. *)
Definition construct (fuel : nat) (cwd : string) (c : cls) (conf : val)
    (entity_conf : option (list econf)) (base_path : string)
    (file_attributes : option (list string)) (domain port : val) : M val :=
  call_class c 1
    ["entity_conf"; "base_path"; "file_attributes"; "domain"; "port"]
    (fun self =>
       match c with
       | CBase => Base_init fuel conf base_path file_attributes
       | COPConfiguration =>
           OPConfiguration_init fuel cwd self conf base_path entity_conf
             domain port file_attributes
       | CConfiguration =>
           Configuration_init fuel cwd self conf entity_conf base_path
             file_attributes domain port
       end).

Section create_from_config_file.

(** The loaders are not part of the module: [load_yaml_config] of
    [oidcop.utils], [json.loads(open(filename).read())] and
    [getattr(importlib.import_module(name), "OIDCOP_CONFIG")].  Each
    is a computation that returns the loaded configuration or
    raises. *)
Variable load_yaml_config : string -> M val.
Variable load_json : string -> M val.
Variable import_OIDCOP_CONFIG : string -> M val.

Definition create_from_config_file (fuel : nat) (cwd : string) (c : cls)
    (filename : string) (base_path : string)
    (entity_conf : option (list econf))
    (file_attributes : option (list string)) (domain port : val) : M val :=
  _conf <-
    (if endswith filename ".yaml" then load_yaml_config filename
     else if endswith filename ".json" then load_json filename
     else if endswith filename ".py" then
       let '(head, tail) := path_split filename in
       let tail := String.substring 0 (String.length tail - 3) tail in
       import_OIDCOP_CONFIG tail
     else raise ValueError) ;;
  construct fuel cwd c _conf entity_conf base_path file_attributes
    domain port.

End create_from_config_file.

(** ** Well-formed file attributes *)

(** The file attributes of every mapping that [add_base_path] visits
    are strings that are not empty. *)
Fixpoint paths_given (file_attributes : list string) (t : tree) : bool :=
  match t with
  | TDict items =>
      forallb
        (fun kt =>
           if bool_decide (fst kt ∈ file_attributes) then
             match snd kt with
             | TStr s => negb (String.eqb s "")
             | _ => false
             end
           else
             match snd kt with
             | TDict _ => paths_given file_attributes (snd kt)
             | _ => true
             end)
        items
  | _ => false
  end.

(** * Lemmas and theorems *)

(** ** Rules for [returns] *)

Lemma returns_ret {A} (a : A) h (Q : A -> heap -> Prop) :
  Q a h -> returns (ret a) h Q.
Proof. done. Qed.

Lemma returns_bind {A B} (m : M A) (k : A -> M B) h (Q : B -> heap -> Prop) :
  returns m h (fun a h1 => returns (k a) h1 Q) -> returns (bind m k) h Q.
Proof. unfold returns, bind. by destruct (m h). Qed.

Lemma returns_mono {A} (m : M A) h (Q Q' : A -> heap -> Prop) :
  returns m h Q -> (forall a h', Q a h' -> Q' a h') -> returns m h Q'.
Proof. unfold returns. destruct (m h); naive_solver. Qed.

Lemma returns_inv {A} (m : M A) h (Q : A -> heap -> Prop) :
  returns m h Q -> exists a h', m h = Ok a h' /\ Q a h'.
Proof. unfold returns. destruct (m h); naive_solver. Qed.

Lemma returns_intro {A} (m : M A) h a h' (Q : A -> heap -> Prop) :
  m h = Ok a h' -> Q a h' -> returns m h Q.
Proof. unfold returns. by intros ->. Qed.

Lemma returns_load l o h (Q : obj -> heap -> Prop) :
  h !! l = Some o -> Q o h -> returns (load l) h Q.
Proof. unfold returns, load. by intros ->. Qed.

Lemma returns_alloc o h (Q : loc -> heap -> Prop) :
  Q (length h) (h ++ [o]) -> returns (alloc o) h Q.
Proof. done. Qed.

Lemma returns_store l o h (Q : unit -> heap -> Prop) :
  Q tt (<[l := o]> h) -> returns (store l o) h Q.
Proof. done. Qed.

Lemma returns_dict_entries l items h (Q : list (string * val) -> heap -> Prop) :
  h !! l = Some (ODict items) -> Q items h -> returns (dict_entries (VRef l)) h Q.
Proof.
  intros Hl HQ. apply returns_bind, (returns_load _ _ _ _ Hl). by apply returns_ret.
Qed.

Lemma returns_dict_item_at l items i kv h (Q : string * val -> heap -> Prop) :
  h !! l = Some (ODict items) -> items !! i = Some kv -> Q kv h ->
  returns (dict_item_at (VRef l) i) h Q.
Proof.
  intros Hl Hi HQ. apply returns_bind, (returns_dict_entries _ _ _ _ Hl).
  rewrite Hi. by apply returns_ret.
Qed.

Lemma returns_setitem l items key x h (Q : unit -> heap -> Prop) :
  h !! l = Some (ODict items) ->
  Q tt (<[l := ODict (assoc_set items key x)]> h) ->
  returns (setitem (VRef l) key x) h Q.
Proof.
  intros Hl HQ. apply returns_bind, (returns_load _ _ _ _ Hl). by apply returns_store.
Qed.

Lemma returns_dict_get l items key default h (Q : val -> heap -> Prop) :
  h !! l = Some (ODict items) ->
  Q (match assoc_get items key with Some v => v | None => default end) h ->
  returns (dict_get (VRef l) key default) h Q.
Proof.
  intros Hl HQ. apply returns_bind, (returns_dict_entries _ _ _ _ Hl).
  by apply returns_ret.
Qed.

(** ** Association lists *)

Lemma assoc_get_app_notin {A} (prefix suffix : list (string * A)) key :
  key ∉ map fst prefix -> assoc_get (prefix ++ suffix) key = assoc_get suffix key.
Proof.
  induction prefix as [|[k v] prefix IH]; simpl; [done|].
  intros Hk. apply not_elem_of_cons in Hk as [Hne Hk].
  destruct (String.eqb_spec k key); [congruence|]. by apply IH.
Qed.

Lemma assoc_set_app_notin {A} (prefix suffix : list (string * A)) key x :
  key ∉ map fst prefix ->
  assoc_set (prefix ++ suffix) key x = prefix ++ assoc_set suffix key x.
Proof.
  induction prefix as [|[k v] prefix IH]; simpl; [done|].
  intros Hk. apply not_elem_of_cons in Hk as [Hne Hk].
  destruct (String.eqb_spec k key); [congruence|]. by rewrite IH.
Qed.

Lemma assoc_set_head {A} key (v x : A) (kvs : list (string * A)) :
  assoc_set ((key, v) :: kvs) key x = (key, x) :: kvs.
Proof. simpl. by rewrite String.eqb_refl. Qed.

Lemma assoc_set_middle {A} (prefix suffix : list (string * A)) key v x :
  NoDup (map fst (prefix ++ (key, v) :: suffix)) ->
  assoc_set (prefix ++ (key, v) :: suffix) key x = prefix ++ (key, x) :: suffix.
Proof.
  intros Hnd. rewrite assoc_set_app_notin, assoc_set_head; [done|].
  rewrite map_app in Hnd. apply NoDup_app in Hnd as (_ & Hdisj & _).
  intros Hin. apply (Hdisj _ Hin). simpl. left.
Qed.

Lemma assoc_get_middle {A} (prefix suffix : list (string * A)) key v :
  NoDup (map fst (prefix ++ (key, v) :: suffix)) ->
  assoc_get (prefix ++ (key, v) :: suffix) key = Some v.
Proof.
  intros Hnd. rewrite assoc_get_app_notin; [simpl; by rewrite String.eqb_refl|].
  rewrite map_app in Hnd. apply NoDup_app in Hnd as (_ & Hdisj & _).
  intros Hin. apply (Hdisj _ Hin). simpl. left.
Qed.

Lemma assoc_set_keys_present {A} (kvs : list (string * A)) key x :
  key ∈ map fst kvs -> map fst (assoc_set kvs key x) = map fst kvs.
Proof.
  induction kvs as [|[k v] kvs IH]; simpl.
  - by intros ?%elem_of_nil.
  - intros Hin. destruct (String.eqb_spec k key); simpl; [done|].
    f_equal. apply IH. apply elem_of_cons in Hin as [?|?]; [congruence|done].
Qed.

Lemma assoc_get_set_eq {A} (kvs : list (string * A)) key x :
  assoc_get (assoc_set kvs key x) key = Some x.
Proof.
  induction kvs as [|[k v] kvs IH]; simpl.
  - by rewrite String.eqb_refl.
  - destruct (String.eqb_spec k key) as [->|Hne]; simpl.
    + by rewrite String.eqb_refl.
    + by destruct (String.eqb_spec k key).
Qed.

Lemma assoc_get_set_ne {A} (kvs : list (string * A)) key key' x :
  key <> key' -> assoc_get (assoc_set kvs key x) key' = assoc_get kvs key'.
Proof.
  intros Hne. induction kvs as [|[k v] kvs IH]; simpl.
  - by destruct (String.eqb_spec key key').
  - destruct (String.eqb_spec k key) as [->|Hk]; simpl.
    + by destruct (String.eqb_spec key key').
    + by rewrite IH.
Qed.

Lemma assoc_get_Some_in {A} (kvs : list (string * A)) key v :
  assoc_get kvs key = Some v -> (key, v) ∈ kvs.
Proof.
  induction kvs as [|[k x] kvs IH]; simpl; [done|].
  destruct (String.eqb_spec k key) as [->|Hk].
  - intros [= ->]. left.
  - intros H. right. by apply IH.
Qed.

Lemma assoc_get_None_notin {A} (kvs : list (string * A)) key :
  assoc_get kvs key = None <-> key ∉ map fst kvs.
Proof.
  induction kvs as [|[k x] kvs IH]; simpl.
  - split; [intros _ ?%elem_of_nil; done|done].
  - destruct (String.eqb_spec k key) as [->|Hk].
    + split; [done|]. intros H. exfalso. apply H. left.
    + rewrite IH, not_elem_of_cons. split; [by intros ?; split; [congruence|]|by intros [_ ?]].
Qed.

(** ** Trees in the store: framing *)

Lemma repr_frame_all h :
  (forall v t F, repr h v t F ->
     forall h', (forall l, l ∈ F -> h' !! l = h !! l) -> repr h' v t F) /\
  (forall vs ts F, repr_elems h vs ts F ->
     forall h', (forall l, l ∈ F -> h' !! l = h !! l) -> repr_elems h' vs ts F) /\
  (forall kvs kts F, repr_items h kvs kts F ->
     forall h', (forall l, l ∈ F -> h' !! l = h !! l) -> repr_items h' kvs kts F).
Proof.
  apply repr_mutind; intros; try by constructor.
  - apply repr_List with vs; [|apply H; intros; apply H0; set_solver|done].
    rewrite H0 by set_solver. done.
  - apply repr_Dict with kvs; [|done|apply H; intros; apply H0; set_solver|done].
    rewrite H0 by set_solver. done.
  - apply repr_elems_cons; [apply H|apply H0|done]; intros; apply H1; set_solver.
  - apply repr_items_cons; [apply H|apply H0|done]; intros; apply H1; set_solver.
Qed.

Lemma repr_frame h h' v t F :
  repr h v t F -> (forall l, l ∈ F -> h' !! l = h !! l) -> repr h' v t F.
Proof. intros H. by apply (proj1 (repr_frame_all h)). Qed.

Lemma repr_items_frame h h' kvs kts F :
  repr_items h kvs kts F -> (forall l, l ∈ F -> h' !! l = h !! l) ->
  repr_items h' kvs kts F.
Proof. intros H. by apply (proj2 (proj2 (repr_frame_all h))). Qed.

Lemma repr_valid_all h :
  (forall v t F, repr h v t F -> forall l, l ∈ F -> l < length h) /\
  (forall vs ts F, repr_elems h vs ts F -> forall l, l ∈ F -> l < length h) /\
  (forall kvs kts F, repr_items h kvs kts F -> forall l, l ∈ F -> l < length h).
Proof.
  apply repr_mutind; intros; try (set_unfold; naive_solver).
  - apply elem_of_union in H0 as [->%elem_of_singleton|?]; [|by auto].
    by eapply lookup_lt_Some.
  - apply elem_of_union in H0 as [->%elem_of_singleton|?]; [|by auto].
    by eapply lookup_lt_Some.
Qed.

Lemma repr_valid h v t F l : repr h v t F -> l ∈ F -> l < length h.
Proof. intros H Hl. eapply (proj1 (repr_valid_all h)); eauto. Qed.

Lemma repr_items_valid h kvs kts F l :
  repr_items h kvs kts F -> l ∈ F -> l < length h.
Proof. intros H Hl. eapply (proj2 (proj2 (repr_valid_all h))); eauto. Qed.

Lemma repr_items_keys h kvs kts F :
  repr_items h kvs kts F -> map fst kvs = map fst kts.
Proof. induction 1; simpl; congruence. Qed.

Lemma repr_truthy h v t F :
  repr h v t F -> truthy v h = Ok (truthy_tree t) h.
Proof.
  destruct 1; try done.
  - unfold truthy, bind, load. rewrite H. by destruct H0.
  - unfold truthy, bind, load. rewrite H. by destruct H1.
Qed.

(** ** The loop over the entries of a mapping *)

Lemma in_place_refl h F : in_place h F h F.
Proof. unfold in_place. naive_solver. Qed.

Lemma in_place_trans h F h1 F1 h2 F2 :
  in_place h F h1 F1 -> in_place h1 F1 h2 F2 -> in_place h F h2 F2.
Proof.
  intros (Hlen1 & Hframe1 & Hsub1) (Hlen2 & Hframe2 & Hsub2).
  split; [lia|]. split.
  - intros l Hl HF. rewrite Hframe2, Hframe1; [done..|lia|].
    intros [?|?]%Hsub1; [done|lia].
  - intros l [[?|?]%Hsub1|?]%Hsub2; [by left|right; lia|right; lia].
Qed.

Lemma map_entries_cons_inv f key t kts kts' :
  map_entries f ((key, t) :: kts) = Done kts' ->
  exists t' kts0', f key t = Done t' /\ map_entries f kts = Done kts0' /\
                   kts' = (key, t') :: kts0'.
Proof.
  simpl. destruct (f key t) as [t'| |]; simpl; [|done..].
  destruct (map_entries f kts) as [kts0'| |]; simpl; [|done..].
  intros [= <-]. eauto.
Qed.

Lemma for_each_ext {A} (xs : list A) (body body' : A -> M unit) h :
  (forall x h, body x h = body' x h) -> for_each xs body h = for_each xs body' h.
Proof.
  intros Hext. revert h. induction xs as [|x xs IH]; intros h; simpl; [done|].
  unfold bind. rewrite Hext. destruct (body' x h); auto.
Qed.

Lemma entries_loop P update f l kts :
  (forall n m key v x, n ≤ m -> P m key v x -> P n key v x) ->
  Forall (fun kt => update_refines P update f (fst kt) (snd kt)) kts ->
  forall prefix suffix kts' h Fs,
    h !! l = Some (ODict (prefix ++ suffix)) ->
    NoDup (map fst (prefix ++ suffix)) ->
    repr_items h suffix kts Fs ->
    l ∉ Fs ->
    map_entries f kts = Done kts' ->
    returns
      (for_each (seq (length prefix) (length suffix)) (entry_step update (VRef l)))
      h
      (fun _ h' => exists suffix' Fs',
         h' !! l = Some (ODict (prefix ++ suffix')) /\
         map fst suffix' = map fst suffix /\
         Forall2 (fun kv kv' => P (length h) (fst kv) (snd kv) (snd kv'))
           suffix suffix' /\
         repr_items h' suffix' kts' Fs' /\
         length h ≤ length h' /\
         (forall l', l' < length h -> l' ∉ Fs -> l' <> l -> h' !! l' = h !! l') /\
         (forall l', l' ∈ Fs' -> l' ∈ Fs \/ length h ≤ l')).
Proof.
  intros HP.
  induction 1 as [|[key t] kts Hupd _ IH];
    intros prefix suffix kts' h Fs Hl Hnd Hrep HlFs Hmap.
  - inversion Hrep; subst. simpl in Hmap. injection Hmap as <-.
    apply returns_ret. exists [], ∅. split_and!; by try constructor.
  - inversion Hrep as [|k v t0 F kvs kts0 Fs0 Hv Hrest Hdisj]; subst.
    apply map_entries_cons_inv in Hmap as (t' & kts0' & Hf & Hmap & ->).
    assert (Hll : l < length h) by (by eapply lookup_lt_Some).
    simpl. apply returns_bind. unfold entry_step at 1.
    apply returns_bind.
    eapply returns_dict_item_at; [done|by apply list_lookup_middle|].
    apply returns_bind.
    eapply returns_mono; [by apply (Hupd h v F t')|].
    intros r h1 (HPv & F1 & Hv1 & Hlen1 & Hframe1 & Hsub1). simpl.
    assert (Hl1 : h1 !! l = Some (ODict (prefix ++ (key, v) :: kvs))).
    { rewrite Hframe1; [done..|set_solver]. }
    (* the store once the entry has been assigned *)
    set (x := default v r) in *.
    set (h2 := <[l := ODict (prefix ++ (key, x) :: kvs)]> h1).
    assert (Hlen2 : length h2 = length h1) by apply length_insert.
    assert (Hl2 : h2 !! l = Some (ODict ((prefix ++ [(key, x)]) ++ kvs))).
    { unfold h2. rewrite list_lookup_insert_eq by lia.
      by rewrite <- app_assoc. }
    assert (HlF1 : l ∉ F1).
    { intros [?|?]%Hsub1; [set_solver|lia]. }
    assert (Hcont :
      returns
        (for_each (seq (S (length prefix)) (length kvs))
           (entry_step update (VRef l))) h2
        (fun _ h' => exists suffix' Fs',
           h' !! l = Some (ODict (prefix ++ suffix')) /\
           map fst suffix' = map fst ((key, v) :: kvs) /\
           Forall2 (fun kv kv' => P (length h) (fst kv) (snd kv) (snd kv'))
             ((key, v) :: kvs) suffix' /\
           repr_items h' suffix' ((key, t') :: kts0') Fs' /\
           length h ≤ length h' /\
           (forall l', l' < length h -> l' ∉ F ∪ Fs0 -> l' <> l ->
                       h' !! l' = h !! l') /\
           (forall l', l' ∈ Fs' -> l' ∈ F ∪ Fs0 \/ length h ≤ l'))).
    { assert (Hrest2 : repr_items h2 kvs kts Fs0).
      { eapply repr_items_frame; [done|]. intros l' Hl'.
        pose proof (repr_items_valid _ _ _ _ _ Hrest Hl').
        unfold h2. rewrite list_lookup_insert_ne by set_solver.
        apply Hframe1; [done|]. set_solver. }
      eapply returns_mono.
      { replace (S (length prefix)) with (length (prefix ++ [(key, x)]))
          by (rewrite length_app; simpl; lia).
        eapply (IH (prefix ++ [(key, x)]) kvs kts0' h2 Fs0); try done.
        - rewrite <- app_assoc. simpl.
          rewrite !map_app in *. simpl in *. done.
        - set_solver. }
      intros _ h' (suffix' & Fs' & Hl' & Hkeys & HPs & Hrep' & Hlen' & Hframe' & Hsub').
      exists ((key, x) :: suffix'), (F1 ∪ Fs').
      assert (HF1valid : forall l', l' ∈ F1 -> l' < length h1).
      { intros l'. by eapply repr_valid. }
      assert (HF1Fs0 : forall l', l' ∈ F1 -> l' ∉ Fs0).
      { intros l' [?|?]%Hsub1 HFs0; [set_solver|].
        pose proof (repr_items_valid _ _ _ _ _ Hrest HFs0). lia. }
      split_and!.
      - rewrite Hl'. by rewrite <- app_assoc.
      - simpl. by rewrite Hkeys.
      - constructor; [done|].
        eapply Forall2_impl; [done|]. intros kv kv'. apply HP. lia.
      - constructor; [|done|].
        + eapply repr_frame; [done|]. intros l' Hl'F1.
          rewrite Hframe'; [|rewrite Hlen2; by apply HF1valid|by apply HF1Fs0|
                            intros ->; done].
          unfold h2. rewrite list_lookup_insert_ne; [done|]. by intros ->.
        + intros l' Hl'F1 [Hin|Hge]%Hsub'; [by eapply HF1Fs0|].
          apply HF1valid in Hl'F1. lia.
      - lia.
      - intros l' Hl'h Hl'F Hne.
        rewrite Hframe'; [|lia|set_solver|done].
        unfold h2. rewrite list_lookup_insert_ne by done.
        apply Hframe1; [done|set_solver].
      - intros l' [[?|?]%Hsub1|[?|?]%Hsub']%elem_of_union;
          [left; set_solver|right; lia|left; set_solver|right; lia]. }
    destruct r as [x'|]; simpl in x; subst x.
    + eapply returns_setitem; [done|].
      rewrite assoc_set_middle by done. apply Hcont.
    + apply returns_ret.
      assert (Hsame : h2 = h1).
      { unfold h2. by apply list_insert_id. }
      rewrite <- Hsame. apply Hcont.
Qed.

(** ** From the loop to the pass *)

Lemma pass_from_loop P update f (step : nat -> M unit) l kts kts' F h :
  (forall n m key v x, n ≤ m -> P m key v x -> P n key v x) ->
  repr h (VRef l) (TDict kts) F ->
  (forall i h, step i h = entry_step update (VRef l) i h) ->
  Forall (fun kt => update_refines P update f (fst kt) (snd kt)) kts ->
  map_entries f kts = Done kts' ->
  returns
    (items <- dict_entries (VRef l) ;;
     for_each (seq 0 (length items)) step ;;
     ret (VRef l))
    h
    (fun r h' => r = VRef l /\
       (exists kvs kvs',
          h !! l = Some (ODict kvs) /\ h' !! l = Some (ODict kvs') /\
          Forall2 (fun kv kv' =>
                     fst kv' = fst kv /\
                     P (length h) (fst kv) (snd kv) (snd kv')) kvs kvs') /\
       exists F', repr h' (VRef l) (TDict kts') F' /\ in_place h F h' F').
Proof.
  intros HP Hrep Hstep Hupd Hmap.
  inversion Hrep as [| | | | |l0 kvs kts0 F0 Hl Hnd Hitems HlF]; subst.
  apply returns_bind. eapply returns_dict_entries; [done|].
  apply returns_bind. unfold returns at 1.
  rewrite (for_each_ext _ _ _ _ Hstep).
  pose proof (entries_loop P update f l kts HP Hupd [] kvs kts' h F0
                Hl Hnd Hitems HlF Hmap) as Hloop.
  simpl in Hloop. unfold returns in Hloop at 1.
  destruct (for_each _ _ h) as [[] h'| | |]; [|done..].
  destruct Hloop as (suffix' & Fs' & Hl' & Hkeys & HPs & Hrep' & Hlen & Hframe & Hsub).
  apply returns_ret. split; [done|].
  assert (Hll : l < length h) by (by eapply lookup_lt_Some).
  split.
  { exists kvs, suffix'. split_and!; [done..|].
    clear -HPs Hkeys. revert suffix' HPs Hkeys.
    induction kvs as [|kv kvs IH]; intros suffix' HPs Hkeys;
      inversion HPs; subst; constructor.
    - simpl in Hkeys. split; [congruence|done].
    - apply IH; [done|]. simpl in Hkeys. congruence. }
  exists ({[l]} ∪ Fs'). split; [|split_and!].
  - apply repr_Dict with suffix'; [done|by rewrite Hkeys|done|].
    intros [?|?]%Hsub; [done|lia].
  - done.
  - intros l' Hl'h Hl'F. apply Hframe; [done|set_solver|set_solver].
  - intros l' [->%elem_of_singleton|[?|?]%Hsub]%elem_of_union;
      [left; set_solver|left; set_solver|by right].
Qed.

Lemma height_child key t items fuel :
  (key, t) ∈ items -> height (TDict items) ≤ S fuel -> height t ≤ fuel.
Proof.
  intros Hin Hh. simpl in Hh. apply le_S_n in Hh.
  etrans; [|exact Hh].
  apply list_elem_of_In in Hin.
  pose proof (proj1 (list_max_le (map (fun kt => height (snd kt)) items)
                (list_max (map (fun kt => height (snd kt)) items)))
                (le_n _)) as Hall.
  rewrite List.Forall_forall in Hall. apply Hall.
  apply in_map_iff. by exists (key, t).
Qed.

(** ** [add_base_path] computes [add_base_path_tree] *)

Lemma add_base_path_step_entry recurse conf base_path file_attributes i h :
  add_base_path_step recurse conf base_path file_attributes i h
  = entry_step (add_base_path_update recurse base_path file_attributes) conf i h.
Proof.
  unfold add_base_path_step, entry_step, add_base_path_update, bind.
  destruct (dict_item_at conf i h) as [[key v] h1| | |]; [|done..].
  case_bool_decide.
  2: { unfold ret; simpl.
       destruct (isinstance_dict v h1) as [[] h2| | |]; simpl; try done.
       by destruct (recurse v h2). }
  destruct v as [| | |s| |lv]; simpl; try done.
  - unfold rewrite_path, ret.
    destruct (startswith s "/"); [done|].
    destruct (String.eqb s ""); simpl;
      by destruct (setitem conf key _ h1) as [[] ?| | |].
  - unfold bind, load. destruct (h1 !! lv) as [[]|]; done.
Qed.

Lemma add_base_path_update_refines recurse base_path file_attributes key t :
  (forall items, t = TDict items ->
     pass_refines recurse (add_base_path_tree base_path file_attributes) t) ->
  update_refines (keeps_other file_attributes)
    (add_base_path_update recurse base_path file_attributes)
    (add_base_path_value (add_base_path_tree base_path file_attributes)
       base_path file_attributes) key t.
Proof.
  intros Hrec h v F t' Hrep Hf.
  unfold add_base_path_update, add_base_path_value in *.
  case_bool_decide.
  - destruct t; try done. injection Hf as <-. inversion Hrep; subst.
    apply returns_bind, returns_ret. unfold rewrite_path.
    destruct (startswith s "/"); apply returns_ret; simpl;
      (split; [by intros ?|];
       eexists; split; [constructor|apply in_place_refl]).
  - destruct t as [| | | | |items].
    1-5: injection Hf as <-; inversion Hrep; subst;
         try (apply returns_bind, returns_ret, returns_ret; simpl;
              split; [by intros ?|];
              eexists; split; [constructor|apply in_place_refl]).
    + apply returns_bind, returns_bind. eapply returns_load; [done|].
      apply returns_ret, returns_ret. simpl. split; [by intros ?|].
      eexists; split; [by econstructor|apply in_place_refl].
    + inversion Hrep; subst.
      apply returns_bind, returns_bind. eapply returns_load; [done|].
      apply returns_ret, returns_bind.
      eapply returns_mono; [by eapply (Hrec items)|].
      intros r h' (-> & F' & Hrep' & Hin). apply returns_ret. simpl.
      split; [by intros ?|]. eauto.
Qed.

Lemma keeps_other_mono names n m key v x :
  n ≤ m -> keeps_other names m key v x -> keeps_other names n key v x.
Proof. done. Qed.

Lemma add_base_path_refines base_path file_attributes t :
  forall fuel, height t ≤ fuel ->
    pass_refines (fun v => add_base_path fuel v base_path file_attributes)
      (add_base_path_tree base_path file_attributes) t.
Proof.
  induction t as [| | | | |items IH] using tree_ind;
    intros fuel Hfuel h v F t' Hrep Hf; try done.
  destruct fuel as [|fuel]; [simpl in Hfuel; lia|].
  simpl in Hf. unfold rmap, rbind in Hf.
  destruct (map_entries _ items) as [items'| |] eqn:Hmap; [|done..].
  injection Hf as <-.
  inversion Hrep as [| | | | |l kvs kts0 F0 Hl Hnd Hitems HlF]; subst.
  simpl.
  eapply returns_mono.
  { eapply (pass_from_loop (keeps_other file_attributes) _ _ _ l items items');
      [apply keeps_other_mono|done| | |done].
    - intros i h0. apply add_base_path_step_entry.
    - rewrite Forall_forall in IH. apply Forall_forall. intros [key t] Hin.
      simpl. apply add_base_path_update_refines. intros sub ->.
      apply (IH _ Hin). by eapply height_child. }
  intros r h' (-> & _ & HF'). done.
Qed.

(** The pass on a mapping, with what happens to each of its entries. *)
Lemma add_base_path_entries base_path file_attributes items items' fuel h l F :
  repr h (VRef l) (TDict items) F ->
  add_base_path_tree base_path file_attributes (TDict items) = Done (TDict items') ->
  height (TDict items) ≤ fuel ->
  returns (add_base_path fuel (VRef l) base_path file_attributes) h
    (fun r h' => r = VRef l /\
       (exists kvs kvs',
          h !! l = Some (ODict kvs) /\ h' !! l = Some (ODict kvs') /\
          Forall2 (fun kv kv' =>
                     fst kv' = fst kv /\
                     keeps_other file_attributes (length h)
                       (fst kv) (snd kv) (snd kv')) kvs kvs') /\
       exists F', repr h' (VRef l) (TDict items') F' /\ in_place h F h' F').
Proof.
  intros Hrep Hf Hfuel.
  destruct fuel as [|fuel]; [simpl in Hfuel; lia|].
  simpl in Hf. unfold rmap, rbind in Hf.
  destruct (map_entries _ items) as [items0| |] eqn:Hmap; [|done..].
  injection Hf as <-. simpl.
  eapply (pass_from_loop (keeps_other file_attributes) _ _ _ l items items0);
    [apply keeps_other_mono|done| | |done].
  - intros i h0. apply add_base_path_step_entry.
  - apply Forall_forall. intros [key t] Hin.
    simpl. apply add_base_path_update_refines. intros sub ->.
    apply add_base_path_refines. by eapply height_child.
Qed.

(** ** [set_domain_and_port] computes [set_domain_and_port_tree] *)

Ltac returns_step :=
  lazymatch goal with
  | |- returns (bind _ _) _ _ => apply returns_bind
  | |- returns (ret _) _ _ => apply returns_ret
  | |- returns (load _) _ _ => eapply returns_load; [eassumption|]
  | |- returns (alloc _) _ _ => apply returns_alloc
  | |- returns (store _ _) _ _ => apply returns_store
  end.

Ltac returns_go :=
  repeat first
    [ returns_step
    | progress (cbn beta iota delta
                  [isinstance_list isinstance_dict str_method list_elems
                   default new_dict]) ].

Lemma set_domain_and_port_step_entry recurse conf uris domain port i h :
  set_domain_and_port_step recurse conf uris domain port i h
  = entry_step (set_domain_and_port_update recurse uris domain port) conf i h.
Proof.
  unfold set_domain_and_port_step, entry_step, set_domain_and_port_update, bind.
  destruct (dict_item_at conf i h) as [[key v] h1| | |]; [|done..].
  case_bool_decide.
  - destruct (isinstance_list v h1) as [[] h2| | |]; simpl; try done.
    + destruct (list_elems v h2) as [elems h3| | |]; try done.
      destruct (format_all elems domain port h3) as [rs h4| | |]; try done.
    + destruct (str_method v h2) as [s h3| | |]; try done.
      destruct (str_format s domain port h3) as [r h4| | |]; try done.
  - unfold ret; simpl.
    destruct (isinstance_dict v h1) as [[] h2| | |]; simpl; try done.
    by destruct (recurse v h2).
Qed.

Lemma format_all_refines h vs elems F domain port elems' :
  repr_elems h vs elems F ->
  format_elems elems (format_value domain) (format_value port) = Done elems' ->
  returns (format_all vs domain port) h (fun rs h' =>
    h' = h /\ repr_elems h rs elems' ∅).
Proof.
  intros Hrep. revert elems'.
  induction Hrep as [|v t F vs ts Fs Hv Hvs IH Hdisj]; intros elems' Hf.
  - injection Hf as <-. apply returns_ret. split; [done|constructor].
  - simpl in Hf. destruct t as [| | |s| |]; try done.
    inversion Hv; subst. unfold rbind, rmap, rbind in Hf.
    destruct (format_from InText s _ _) as [r| |] eqn:Hfmt; [|done..].
    destruct (format_elems ts _ _) as [rs'| |]; [|done..].
    injection Hf as <-. cbn [format_all]. returns_go.
    unfold returns at 1, str_format. rewrite Hfmt. simpl.
    returns_go. eapply returns_mono; [by apply IH|].
    intros rs h' [-> Hrs]. apply returns_ret. split; [done|].
    replace (∅ : gset loc) with ((∅ : gset loc) ∪ ∅) by set_solver.
    constructor; [constructor|done|set_solver].
Qed.

Lemma set_domain_and_port_update_refines recurse uris domain port key t :
  (forall items, t = TDict items ->
     pass_refines recurse
       (set_domain_and_port_tree uris (format_value domain) (format_value port))
       t) ->
  update_refines (renews_lists uris)
    (set_domain_and_port_update recurse uris domain port)
    (set_domain_and_port_value
       (set_domain_and_port_tree uris (format_value domain) (format_value port))
       uris (format_value domain) (format_value port)) key t.
Proof.
  intros Hrec h v F t' Hrep Hf.
  unfold set_domain_and_port_update, set_domain_and_port_value in *.
  case_bool_decide.
  - destruct t as [| | |s|elems|]; try done.
    + unfold rmap, rbind in Hf.
      destruct (format_from InText s _ _) as [r| |] eqn:Hfmt; [|done..].
      injection Hf as <-. inversion Hrep; subst.
      returns_go.
      unfold returns at 1, str_format. rewrite Hfmt. simpl.
      returns_go.
      split; [by split|].
      eexists; split; [constructor|apply in_place_refl].
    + unfold rmap, rbind in Hf.
      destruct (format_elems elems _ _) as [elems'| |] eqn:Hfmt; [|done..].
      injection Hf as <-.
      inversion Hrep as [| | | |l vs ts F0 Hl Helems HlF|]; subst.
      returns_go.
      eapply returns_mono; [by eapply format_all_refines|].
      intros rs h' [-> Hrs].
      returns_go.
      split; [split; [done|intros _ l' _; eauto]|].
      exists ({[length h]} ∪ ∅). split; [|split_and!].
      * apply repr_List with rs; [by apply list_lookup_middle| |set_solver].
        eapply (proj1 (proj2 (repr_frame_all h))); [done|set_solver].
      * rewrite length_app. lia.
      * intros l' Hl' _. by apply lookup_app_l.
      * intros l' Hl'. right.
        assert (l' = length h) as -> by set_solver. done.
  - destruct t as [| | | | |items].
    1-5: injection Hf as <-; inversion Hrep; subst; returns_go;
         (split; [by split|]);
         try (eexists; split; [constructor|apply in_place_refl]).
    + eexists; split; [by econstructor|apply in_place_refl].
    + inversion Hrep; subst. returns_go.
      eapply returns_mono; [by eapply (Hrec items)|].
      intros r h' (-> & F' & Hrep' & Hin). apply returns_ret. simpl.
      split; [by split|]. eauto.
Qed.

Lemma renews_lists_mono names n m key v x :
  n ≤ m -> renews_lists names m key v x -> renews_lists names n key v x.
Proof.
  intros Hnm [Hkeep Hnew]. split; [done|].
  intros Hin l Hv. destruct (Hnew Hin l Hv) as (l' & -> & Hl').
  exists l'. split; [done|lia].
Qed.

Lemma set_domain_and_port_refines uris domain port t :
  forall fuel, height t ≤ fuel ->
    pass_refines (fun v => set_domain_and_port fuel v uris domain port)
      (set_domain_and_port_tree uris (format_value domain) (format_value port))
      t.
Proof.
  induction t as [| | | | |items IH] using tree_ind;
    intros fuel Hfuel h v F t' Hrep Hf; try done.
  destruct fuel as [|fuel]; [simpl in Hfuel; lia|].
  simpl in Hf. unfold rmap, rbind in Hf.
  destruct (map_entries _ items) as [items'| |] eqn:Hmap; [|done..].
  injection Hf as <-.
  inversion Hrep as [| | | | |l kvs kts0 F0 Hl Hnd Hitems HlF]; subst.
  simpl.
  eapply returns_mono.
  { eapply (pass_from_loop (renews_lists uris) _ _ _ l items items');
      [apply renews_lists_mono|done| | |done].
    - intros i h0. apply set_domain_and_port_step_entry.
    - rewrite Forall_forall in IH. apply Forall_forall. intros [key t] Hin.
      simpl. apply set_domain_and_port_update_refines. intros sub ->.
      apply (IH _ Hin). by eapply height_child. }
  intros r h' (-> & _ & HF'). done.
Qed.

Lemma set_domain_and_port_entries uris domain port items items' fuel h l F :
  repr h (VRef l) (TDict items) F ->
  set_domain_and_port_tree uris (format_value domain) (format_value port)
    (TDict items) = Done (TDict items') ->
  height (TDict items) ≤ fuel ->
  returns (set_domain_and_port fuel (VRef l) uris domain port) h
    (fun r h' => r = VRef l /\
       (exists kvs kvs',
          h !! l = Some (ODict kvs) /\ h' !! l = Some (ODict kvs') /\
          Forall2 (fun kv kv' =>
                     fst kv' = fst kv /\
                     renews_lists uris (length h)
                       (fst kv) (snd kv) (snd kv')) kvs kvs') /\
       exists F', repr h' (VRef l) (TDict items') F' /\ in_place h F h' F').
Proof.
  intros Hrep Hf Hfuel.
  destruct fuel as [|fuel]; [simpl in Hfuel; lia|].
  simpl in Hf. unfold rmap, rbind in Hf.
  destruct (map_entries _ items) as [items0| |] eqn:Hmap; [|done..].
  injection Hf as <-. simpl.
  eapply (pass_from_loop (renews_lists uris) _ _ _ l items items0);
    [apply renews_lists_mono|done| | |done].
  - intros i h0. apply set_domain_and_port_step_entry.
  - apply Forall_forall. intros [key t] Hin.
    simpl. apply set_domain_and_port_update_refines. intros sub ->.
    apply set_domain_and_port_refines. by eapply height_child.
Qed.

(** ** [deepcopy] of a tree *)

Lemma assoc_set_fresh {A} (kvs : list (string * A)) key x :
  key ∉ map fst kvs -> assoc_set kvs key x = kvs ++ [(key, x)].
Proof.
  intros Hk. rewrite <- (app_nil_r kvs) at 1.
  by rewrite assoc_set_app_notin.
Qed.

Lemma repr_items_snoc h kvs kts F k v t Fv :
  repr_items h kvs kts F -> repr h v t Fv -> F ## Fv ->
  exists F', F' = F ∪ Fv /\
    repr_items h (kvs ++ [(k, v)]) (kts ++ [(k, t)]) F'.
Proof.
  induction 1 as [|k0 v0 t0 F0 kvs kts Fs Hv0 Hrest IH Hdisj]; intros Hv HFv.
  - exists (Fv ∪ ∅). split; [set_solver|]. simpl.
    constructor; [done|constructor|set_solver].
  - destruct IH as (F' & -> & IH); [done|set_solver|].
    exists (F0 ∪ (Fs ∪ Fv)). split; [set_solver|]. simpl.
    constructor; [done|done|set_solver].
Qed.

Lemma repr_elems_snoc h vs ts F v t Fv :
  repr_elems h vs ts F -> repr h v t Fv -> F ## Fv ->
  exists F', F' = F ∪ Fv /\ repr_elems h (vs ++ [v]) (ts ++ [t]) F'.
Proof.
  induction 1 as [|v0 t0 F0 vs ts Fs Hv0 Hrest IH Hdisj]; intros Hv HFv.
  - exists (Fv ∪ ∅). split; [set_solver|]. simpl.
    constructor; [done|constructor|set_solver].
  - destruct IH as (F' & -> & IH); [done|set_solver|].
    exists (F0 ∪ (Fs ∪ Fv)). split; [set_solver|]. simpl.
    constructor; [done|done|set_solver].
Qed.

Lemma repr_elems_frame h h' vs ts F :
  repr_elems h vs ts F -> (forall l, l ∈ F -> h' !! l = h !! l) ->
  repr_elems h' vs ts F.
Proof. intros H. by apply (proj1 (proj2 (repr_frame_all h))). Qed.

Lemma repr_elems_valid h vs ts F l :
  repr_elems h vs ts F -> l ∈ F -> l < length h.
Proof. intros H Hl. eapply (proj1 (proj2 (repr_valid_all h))); eauto. Qed.

Lemma copy_items_loop copy y kts :
  Forall (fun kt => copy_refines copy (snd kt)) kts ->
  forall rest Fr done kts_d Fd h memo,
    repr_items h rest kts Fr ->
    (forall l, l ∈ Fr -> memo_get memo l = None) ->
    (forall l, l ∈ Fr -> l < y) ->
    h !! y = Some (ODict done) ->
    repr_items h done kts_d Fd ->
    (forall l, l ∈ Fd -> y < l) ->
    NoDup (map fst done ++ map fst rest) ->
    returns (copy_items copy y rest memo) h (fun memo' h' =>
      exists done' Fd',
        h' !! y = Some (ODict done') /\
        map fst done' = map fst done ++ map fst rest /\
        repr_items h' done' (kts_d ++ kts) Fd' /\
        (forall l, l ∈ Fd' -> y < l) /\
        length h ≤ length h' /\
        (forall l, l < length h -> l <> y -> h' !! l = h !! l) /\
        (forall l, l ∉ Fr -> memo_get memo' l = memo_get memo l)).
Proof.
  induction 1 as [|[key t] kts Hcopy _ IH];
    intros rest Fr done kts_d Fd h memo Hrest Hmemo Hold Hy Hdone Hnew Hnd.
  - inversion Hrest; subst. apply returns_ret.
    exists done, Fd. rewrite !app_nil_r. by split_and!.
  - inversion Hrest as [|k v t0 F kvs kts0 Fr0 Hv Hrest0 Hdisj]; subst.
    assert (Hylt : y < length h) by (by eapply lookup_lt_Some).
    cbn [copy_items]. apply returns_bind.
    eapply returns_mono.
    { apply (Hcopy h v F memo Hv). intros l Hl. apply Hmemo. set_solver. }
    intros [v' memo1] h1 (F' & Hv' & Hfresh & Hlen1 & Hframe1 & Hmemo1).
    simpl in Hv', Hmemo1. apply returns_bind.
    assert (Hkey : key ∉ map fst done).
    { apply NoDup_app in Hnd as (_ & Hnd & _). intros Hin.
      apply (Hnd _ Hin). simpl. left. }
    eapply returns_setitem; [by rewrite Hframe1|].
    rewrite assoc_set_fresh by done.
    set (h2 := <[y := ODict (done ++ [(key, v')])]> h1).
    assert (Hlen2 : length h2 = length h1) by apply length_insert.
    assert (Hdone1 : repr_items h2 done kts_d Fd).
    { eapply repr_items_frame; [done|]. intros l Hl.
      pose proof (repr_items_valid _ _ _ _ _ Hdone Hl).
      pose proof (Hnew _ Hl).
      unfold h2. rewrite list_lookup_insert_ne by lia. by apply Hframe1. }
    assert (Hv2 : repr h2 v' t F').
    { eapply repr_frame; [done|]. intros l Hl. pose proof (Hfresh _ Hl).
      unfold h2. rewrite list_lookup_insert_ne by lia. done. }
    destruct (repr_items_snoc h2 done kts_d Fd key v' t F' Hdone1 Hv2)
      as (Fd1 & -> & Hdone2).
    { intros l Hl HlF'. pose proof (repr_items_valid _ _ _ _ _ Hdone Hl).
      pose proof (Hfresh _ HlF'). lia. }
    eapply returns_mono.
    { eapply (IH kvs Fr0 (done ++ [(key, v')]) (kts_d ++ [(key, t)])
                (Fd ∪ F') h2 memo1); try done.
      - eapply repr_items_frame; [done|]. intros l Hl.
        assert (l < y) by (apply Hold; set_solver).
        unfold h2. rewrite list_lookup_insert_ne by lia.
        apply Hframe1. lia.
      - intros l Hl. rewrite Hmemo1; [apply Hmemo; set_solver|set_solver].
      - intros l Hl. apply Hold. set_solver.
      - unfold h2. apply list_lookup_insert_eq. lia.
      - intros l [Hl|Hl]%elem_of_union; [by apply Hnew|].
        pose proof (Hfresh _ Hl). lia.
      - rewrite map_app. simpl. rewrite <- app_assoc. done. }
    intros memo' h' (done' & Fd' & Hy' & Hkeys & Hrep' & Hnew' & Hlen' & Hframe' & Hmemo').
    exists done', Fd'. split_and!; try done.
    + rewrite Hkeys, map_app, <- app_assoc. done.
    + by rewrite <- app_assoc in Hrep'.
    + lia.
    + intros l Hl Hne. rewrite Hframe'; [|lia|done].
      unfold h2. rewrite list_lookup_insert_ne by done. by apply Hframe1.
    + intros l Hl. rewrite Hmemo', Hmemo1; [done|set_solver|set_solver].
Qed.

Lemma copy_elems_loop copy y ts :
  Forall (copy_refines copy) ts ->
  forall rest Fr done ts_d Fd h memo,
    repr_elems h rest ts Fr ->
    (forall l, l ∈ Fr -> memo_get memo l = None) ->
    (forall l, l ∈ Fr -> l < y) ->
    h !! y = Some (OList done) ->
    repr_elems h done ts_d Fd ->
    (forall l, l ∈ Fd -> y < l) ->
    returns (copy_elems copy y rest memo) h (fun memo' h' =>
      exists done' Fd',
        h' !! y = Some (OList done') /\
        repr_elems h' done' (ts_d ++ ts) Fd' /\
        (forall l, l ∈ Fd' -> y < l) /\
        length h ≤ length h' /\
        (forall l, l < length h -> l <> y -> h' !! l = h !! l) /\
        (forall l, l ∉ Fr -> memo_get memo' l = memo_get memo l)).
Proof.
  induction 1 as [|t ts Hcopy _ IH];
    intros rest Fr done ts_d Fd h memo Hrest Hmemo Hold Hy Hdone Hnew.
  - inversion Hrest; subst. apply returns_ret.
    exists done, Fd. rewrite !app_nil_r. by split_and!.
  - inversion Hrest as [|v t0 F vs ts0 Fr0 Hv Hrest0 Hdisj]; subst.
    assert (Hylt : y < length h) by (by eapply lookup_lt_Some).
    cbn [copy_elems]. apply returns_bind.
    eapply returns_mono.
    { apply (Hcopy h v F memo Hv). intros l Hl. apply Hmemo. set_solver. }
    intros [v' memo1] h1 (F' & Hv' & Hfresh & Hlen1 & Hframe1 & Hmemo1).
    simpl in Hv', Hmemo1. apply returns_bind.
    unfold list_append. apply returns_bind.
    eapply returns_load; [by rewrite Hframe1|]. apply returns_store.
    set (h2 := <[y := OList (done ++ [v'])]> h1).
    assert (Hlen2 : length h2 = length h1) by apply length_insert.
    assert (Hdone1 : repr_elems h2 done ts_d Fd).
    { eapply repr_elems_frame; [done|]. intros l Hl.
      pose proof (repr_elems_valid _ _ _ _ _ Hdone Hl).
      pose proof (Hnew _ Hl).
      unfold h2. rewrite list_lookup_insert_ne by lia. by apply Hframe1. }
    assert (Hv2 : repr h2 v' t F').
    { eapply repr_frame; [done|]. intros l Hl. pose proof (Hfresh _ Hl).
      unfold h2. rewrite list_lookup_insert_ne by lia. done. }
    destruct (repr_elems_snoc h2 done ts_d Fd v' t F' Hdone1 Hv2)
      as (Fd1 & -> & Hdone2).
    { intros l Hl HlF'. pose proof (repr_elems_valid _ _ _ _ _ Hdone Hl).
      pose proof (Hfresh _ HlF'). lia. }
    eapply returns_mono.
    { eapply (IH vs Fr0 (done ++ [v']) (ts_d ++ [t]) (Fd ∪ F') h2 memo1);
        try done.
      - eapply repr_elems_frame; [done|]. intros l Hl.
        assert (l < y) by (apply Hold; set_solver).
        unfold h2. rewrite list_lookup_insert_ne by lia.
        apply Hframe1. lia.
      - intros l Hl. rewrite Hmemo1; [apply Hmemo; set_solver|set_solver].
      - intros l Hl. apply Hold. set_solver.
      - unfold h2. apply list_lookup_insert_eq. lia.
      - intros l [Hl|Hl]%elem_of_union; [by apply Hnew|].
        pose proof (Hfresh _ Hl). lia. }
    intros memo' h' (done' & Fd' & Hy' & Hrep' & Hnew' & Hlen' & Hframe' & Hmemo').
    exists done', Fd'. split_and!; try done.
    + by rewrite <- app_assoc in Hrep'.
    + lia.
    + intros l Hl Hne. rewrite Hframe'; [|lia|done].
      unfold h2. rewrite list_lookup_insert_ne by done. by apply Hframe1.
    + intros l Hl. rewrite Hmemo', Hmemo1; [done|set_solver|set_solver].
Qed.

Lemma height_elem t elems fuel :
  t ∈ elems -> height (TList elems) ≤ fuel -> height t < fuel.
Proof.
  intros Hin Hh. simpl in Hh.
  apply list_elem_of_In in Hin.
  pose proof (proj1 (list_max_le (map height elems) (list_max (map height elems)))
                (le_n _)) as Hall.
  rewrite List.Forall_forall in Hall.
  specialize (Hall (height t) (in_map _ _ _ Hin)). lia.
Qed.

Lemma height_entry key t items fuel :
  (key, t) ∈ items -> height (TDict items) ≤ fuel -> height t < fuel.
Proof.
  intros Hin Hh. destruct fuel as [|fuel]; [simpl in Hh; lia|].
  pose proof (height_child _ _ _ _ Hin Hh). lia.
Qed.

Lemma memo_get_cons_ne memo l y l' :
  l' <> l -> memo_get ((l, y) :: memo) l' = memo_get memo l'.
Proof. intros Hne. simpl. destruct (Nat.eqb_spec l l'); [congruence|done]. Qed.

Lemma deepcopy_memo_refines t :
  forall fuel, height t < fuel -> copy_refines (deepcopy_memo fuel) t.
Proof.
  induction t as [| | | |elems IH|items IH] using tree_ind;
    intros fuel Hfuel h v F memo Hrep Hmemo;
    (destruct fuel as [|fuel]; [lia|]).
  1-4: inversion Hrep; subst; apply returns_ret; exists ∅; simpl;
       split_and!; [constructor|set_solver|lia|done|done].
  - inversion Hrep as [| | | |l vs ts F0 Hl Helems HlF|]; subst.
    cbn [deepcopy_memo]. rewrite Hmemo by set_solver.
    apply returns_bind. eapply returns_load; [done|].
    apply returns_bind, returns_alloc, returns_bind.
    assert (Hll : l < length h) by (by eapply lookup_lt_Some).
    eapply returns_mono.
    { eapply (copy_elems_loop _ (length h) elems) with (done := []) (ts_d := []).
      - rewrite Forall_forall in IH. apply Forall_forall. intros t Ht.
        apply (IH _ Ht). apply (height_elem _ _ fuel Ht). lia.
      - eapply repr_elems_frame; [done|]. intros l' Hl'.
        apply lookup_app_l. by eapply repr_elems_valid.
      - intros l' Hl'. rewrite memo_get_cons_ne by set_solver.
        apply Hmemo. set_solver.
      - intros l' Hl'. by eapply repr_elems_valid.
      - by apply list_lookup_middle.
      - constructor.
      - set_solver. }
    intros memo' h' (done' & Fd' & Hy' & Hrep' & Hnew' & Hlen' & Hframe' & Hmemo').
    apply returns_ret. simpl. exists ({[length h]} ∪ Fd'). split_and!.
    + apply repr_List with done'; [done|done|].
      intros Hin. apply Hnew' in Hin. lia.
    + intros l' [->%elem_of_singleton|Hin%Hnew']%elem_of_union; lia.
    + rewrite length_app in Hlen'. lia.
    + intros l' Hl'. rewrite Hframe'; [by apply lookup_app_l| |lia].
      rewrite length_app. lia.
    + intros l' Hl'. rewrite Hmemo' by set_solver.
      apply memo_get_cons_ne. set_solver.
  - inversion Hrep as [| | | | |l kvs kts0 F0 Hl Hnd Hitems HlF]; subst.
    cbn [deepcopy_memo]. rewrite Hmemo by set_solver.
    apply returns_bind. eapply returns_load; [done|].
    apply returns_bind, returns_alloc, returns_bind.
    assert (Hll : l < length h) by (by eapply lookup_lt_Some).
    eapply returns_mono.
    { eapply (copy_items_loop _ (length h) items) with (done := []) (kts_d := []).
      - rewrite Forall_forall in IH. apply Forall_forall. intros [key t] Ht.
        apply (IH _ Ht). apply (height_entry _ _ _ fuel Ht). lia.
      - eapply repr_items_frame; [done|]. intros l' Hl'.
        apply lookup_app_l. by eapply repr_items_valid.
      - intros l' Hl'. rewrite memo_get_cons_ne by set_solver.
        apply Hmemo. set_solver.
      - intros l' Hl'. by eapply repr_items_valid.
      - by apply list_lookup_middle.
      - constructor.
      - set_solver.
      - done. }
    intros memo' h' (done' & Fd' & Hy' & Hkeys & Hrep' & Hnew' & Hlen' & Hframe' & Hmemo').
    apply returns_ret. simpl. exists ({[length h]} ∪ Fd'). split_and!.
    + apply repr_Dict with done'; [done|by rewrite Hkeys|done|].
      intros Hin. apply Hnew' in Hin. lia.
    + intros l' [->%elem_of_singleton|Hin%Hnew']%elem_of_union; lia.
    + rewrite length_app in Hlen'. lia.
    + intros l' Hl'. rewrite Hframe'; [by apply lookup_app_l| |lia].
      rewrite length_app. lia.
    + intros l' Hl'. rewrite Hmemo' by set_solver.
      apply memo_get_cons_ne. set_solver.
Qed.

Lemma deepcopy_refines t fuel h v F :
  height t < fuel -> repr h v t F ->
  returns (deepcopy fuel v) h (fun y h' =>
    exists F',
      repr h' y t F' /\
      (forall l, l ∈ F' -> length h ≤ l) /\
      length h ≤ length h' /\
      (forall l, l < length h -> h' !! l = h !! l)).
Proof.
  intros Hfuel Hrep. unfold deepcopy. apply returns_bind.
  eapply returns_mono; [by apply (deepcopy_memo_refines t fuel Hfuel h v F [])|].
  intros [y memo'] h' (F' & Hrep' & Hfresh & Hlen & Hframe & _).
  apply returns_ret. eauto.
Qed.

(** ** The functions on trees meet their descriptions *)

Lemma rewrite_path_absolute base_path s :
  startswith s "/" = true -> rewrite_path base_path s = s.
Proof. unfold rewrite_path. by intros ->. Qed.

Lemma rewrite_path_empty base_path : rewrite_path base_path "" = "./".
Proof. done. Qed.

Lemma rewrite_path_relative base_path s :
  startswith s "/" = false -> s <> "" ->
  rewrite_path base_path s = path_join base_path s.
Proof.
  unfold rewrite_path. intros -> Hs.
  by destruct (String.eqb_spec s "").
Qed.

Lemma add_base_path_tree_resolved base_path file_attributes t t' :
  add_base_path_tree base_path file_attributes t = Done t' ->
  path_resolved base_path file_attributes t t'.
Proof.
  revert t'. induction t as [| | | | |items IH] using tree_ind;
    intros t' Hf; try done.
  simpl in Hf. unfold rmap, rbind in Hf.
  destruct (map_entries _ items) as [items'| |] eqn:Hmap; [|done..].
  injection Hf as <-. constructor.
  revert items' Hmap. induction IH as [|[key v] items Hv _ IHitems];
    intros items' Hmap.
  - injection Hmap as <-. constructor.
  - apply map_entries_cons_inv in Hmap as (v' & rest' & Hf & Hmap & ->).
    specialize (IHitems _ Hmap). simpl in Hv.
    unfold add_base_path_value in Hf. case_bool_decide.
    + destruct v as [| | |s| |]; try done. injection Hf as <-.
      destruct (startswith s "/") eqn:Habs.
      * rewrite rewrite_path_absolute by done. by constructor.
      * destruct (String.eqb_spec s "") as [->|Hne].
        -- by apply resolved_empty.
        -- rewrite rewrite_path_relative by done. by apply resolved_relative.
    + destruct v as [| | | | |sub];
        try (injection Hf as <-; by apply resolved_other).
      apply resolved_nested; [done| |done]. by apply Hv.
Qed.

Lemma path_resolved_untouched base_path file_attributes t :
  forall t', path_resolved base_path file_attributes t t' ->
             outside_untouched file_attributes t t'.
Proof.
  induction t as [| | | | |items IH] using tree_ind;
    intros t' Hres; inversion Hres as [items0 items' Hentries]; subst.
  constructor. clear Hres.
  induction Hentries
    as [|key s rest rest' Hin Habs Hrest IHr
        |key rest rest' Hin Hrest IHr
        |key s rest rest' Hin Hrel Hne Hrest IHr
        |key sub t' rest rest' Hnin Hsub Hrest IHr
        |key v rest rest' Hnin Hnd Hrest IHr];
    [constructor|apply Forall_cons in IH as [Hv IH]..].
  - apply untouched_file; auto.
  - apply untouched_file; auto.
  - apply untouched_file; auto.
  - apply untouched_nested; auto.
  - apply untouched_other; auto.
Qed.

Lemma paths_typed_Done base_path file_attributes t :
  paths_typed file_attributes t = true ->
  exists t', add_base_path_tree base_path file_attributes t = Done t'.
Proof.
  induction t as [| | | | |items IH] using tree_ind; intros Hty; try done.
  simpl in Hty. simpl.
  assert (exists items',
            map_entries
              (add_base_path_value
                 (add_base_path_tree base_path file_attributes)
                 base_path file_attributes) items = Done items')
    as [items' ->]; [|by eexists].
  induction IH as [|[key v] items Hv _ IHitems]; [by eexists|].
  simpl in Hty. apply andb_true_iff in Hty as [Hkv Hrest].
  destruct (IHitems Hrest) as [rest' Hmap]. simpl in Hv, Hkv.
  simpl. rewrite Hmap. unfold add_base_path_value.
  case_bool_decide.
  - destruct v; try done. by eexists.
  - destruct v as [| | | | |sub]; try by eexists.
    destruct (Hv Hkv) as [v' ->]. by eexists.
Qed.

Lemma format_elems_formatted domain port elems elems' :
  format_elems elems domain port = Done elems' ->
  Forall2 (formatted domain port) elems elems'.
Proof.
  revert elems'. induction elems as [|e elems IH]; intros elems' Hf.
  - injection Hf as <-. constructor.
  - simpl in Hf. destruct e as [| | |s| |]; try done.
    unfold rbind, rmap, rbind in Hf.
    destruct (format_from InText s domain port) as [r| |] eqn:Hfmt; [|done..].
    destruct (format_elems elems domain port) as [rs| |]; [|done..].
    injection Hf as <-. constructor; [|by apply IH].
    by exists s, r.
Qed.

Lemma set_domain_and_port_tree_substituted uris domain port t t' :
  set_domain_and_port_tree uris domain port t = Done t' ->
  uris_substituted uris domain port t t'.
Proof.
  revert t'. induction t as [| | | | |items IH] using tree_ind;
    intros t' Hf; try done.
  simpl in Hf. unfold rmap, rbind in Hf.
  destruct (map_entries _ items) as [items'| |] eqn:Hmap; [|done..].
  injection Hf as <-. constructor.
  revert items' Hmap. induction IH as [|[key v] items Hv _ IHitems];
    intros items' Hmap.
  - injection Hmap as <-. constructor.
  - apply map_entries_cons_inv in Hmap as (v' & rest' & Hf & Hmap & ->).
    specialize (IHitems _ Hmap). simpl in Hv.
    unfold set_domain_and_port_value in Hf. case_bool_decide.
    + destruct v as [| | |s|elems|]; try done; unfold rmap, rbind in Hf.
      * destruct (format_from InText s domain port) as [r| |] eqn:Hfmt;
          [|done..].
        injection Hf as <-. by apply substituted_scalar.
      * destruct (format_elems elems domain port) as [rs| |] eqn:Hfmt;
          [|done..].
        injection Hf as <-. apply substituted_sequence; [done| |done].
        by apply format_elems_formatted.
    + destruct v as [| | | | |sub];
        try (injection Hf as <-; by apply substituted_other).
      apply substituted_nested; [done| |done]. by apply Hv.
Qed.

(** ** Every tree can be built in the store *)

Lemma build_repr t :
  keys_unique t = true ->
  forall h,
    returns (build t) h (fun v h' =>
      exists F,
        repr h' v t F /\
        (forall l, l ∈ F -> length h ≤ l) /\
        length h ≤ length h' /\
        (forall l, l < length h -> h' !! l = h !! l)).
Proof.
  induction t as [| | | |elems IH|items IH] using tree_ind; intros Hwf h.
  1-4: apply returns_ret; exists ∅; split_and!; [constructor|set_solver|lia|done].
  - cbn [build]. apply returns_bind.
    eapply returns_mono with
      (Q := fun vs h' => exists F,
              repr_elems h' vs elems F /\
              (forall l, l ∈ F -> length h ≤ l) /\
              length h ≤ length h' /\
              (forall l, l < length h -> h' !! l = h !! l)).
    + clear -IH Hwf. simpl in Hwf. revert h.
      induction IH as [|t elems Ht _ IHelems]; intros h.
      * apply returns_ret. exists ∅. split_and!; [constructor|set_solver|lia|done].
      * simpl in Hwf. apply andb_true_iff in Hwf as [Hwft Hwfs].
        apply returns_bind. eapply returns_mono; [by apply Ht|].
        intros v h1 (F1 & Hv & Hfresh1 & Hlen1 & Hframe1).
        apply returns_bind. eapply returns_mono; [by apply IHelems|].
        intros vs h2 (F2 & Hvs & Hfresh2 & Hlen2 & Hframe2).
        apply returns_ret. exists (F1 ∪ F2). split_and!.
        -- constructor; [|done|].
           ++ eapply repr_frame; [done|]. intros l Hl. apply Hframe2.
              by eapply repr_valid.
           ++ intros l Hl1 Hl2. pose proof (repr_valid _ _ _ _ _ Hv Hl1).
              pose proof (Hfresh2 _ Hl2). lia.
        -- intros l [Hl|Hl]%elem_of_union; [by apply Hfresh1|].
           pose proof (Hfresh2 _ Hl). lia.
        -- lia.
        -- intros l Hl. rewrite Hframe2 by lia. by apply Hframe1.
    + intros vs h1 (F1 & Hvs & Hfresh1 & Hlen1 & Hframe1).
      returns_go. exists ({[length h1]} ∪ F1). split_and!.
      * apply repr_List with vs; [by apply list_lookup_middle| |].
        -- eapply repr_elems_frame; [done|]. intros l Hl.
           apply lookup_app_l. by eapply repr_elems_valid.
        -- intros Hin. pose proof (repr_elems_valid _ _ _ _ _ Hvs Hin). lia.
      * intros l [->%elem_of_singleton|Hl]%elem_of_union; [done|by apply Hfresh1].
      * rewrite length_app. lia.
      * intros l Hl. rewrite lookup_app_l by lia. by apply Hframe1.
  - cbn [build]. apply returns_bind.
    simpl in Hwf. apply andb_true_iff in Hwf as [Hnd Hwf].
    apply bool_decide_eq_true in Hnd.
    eapply returns_mono with
      (Q := fun kvs h' => exists F,
              repr_items h' kvs items F /\
              (forall l, l ∈ F -> length h ≤ l) /\
              length h ≤ length h' /\
              (forall l, l < length h -> h' !! l = h !! l)).
    + clear -IH Hwf. revert h.
      induction IH as [|[key t] items Ht _ IHitems]; intros h.
      * apply returns_ret. exists ∅. split_and!; [constructor|set_solver|lia|done].
      * simpl in Hwf. apply andb_true_iff in Hwf as [Hwft Hwfs].
        apply returns_bind. eapply returns_mono; [by apply Ht|].
        intros v h1 (F1 & Hv & Hfresh1 & Hlen1 & Hframe1).
        apply returns_bind. eapply returns_mono; [by apply IHitems|].
        intros kvs h2 (F2 & Hkvs & Hfresh2 & Hlen2 & Hframe2).
        apply returns_ret. exists (F1 ∪ F2). split_and!.
        -- constructor; [|done|].
           ++ eapply repr_frame; [done|]. intros l Hl. apply Hframe2.
              by eapply repr_valid.
           ++ intros l Hl1 Hl2. pose proof (repr_valid _ _ _ _ _ Hv Hl1).
              pose proof (Hfresh2 _ Hl2). lia.
        -- intros l [Hl|Hl]%elem_of_union; [by apply Hfresh1|].
           pose proof (Hfresh2 _ Hl). lia.
        -- lia.
        -- intros l Hl. rewrite Hframe2 by lia. by apply Hframe1.
    + intros kvs h1 (F1 & Hkvs & Hfresh1 & Hlen1 & Hframe1).
      returns_go. exists ({[length h1]} ∪ F1). split_and!.
      * apply repr_Dict with kvs; [by apply list_lookup_middle| | |].
        -- by rewrite (repr_items_keys _ _ _ _ Hkvs).
        -- eapply repr_items_frame; [done|]. intros l Hl.
           apply lookup_app_l. by eapply repr_items_valid.
        -- intros Hin. pose proof (repr_items_valid _ _ _ _ _ Hkvs Hin). lia.
      * intros l [->%elem_of_singleton|Hl]%elem_of_union; [done|by apply Hfresh1].
      * rewrite length_app. lia.
      * intros l Hl. rewrite lookup_app_l by lia. by apply Hframe1.
Qed.

(** The tree built by a literal, as a fact about a closed computation. *)
Lemma build_repr_at t h v h' :
  keys_unique t = true -> build t h = Ok v h' ->
  exists F, repr h' v t F /\ (forall l, l ∈ F -> length h ≤ l).
Proof.
  intros Hwf Hb. pose proof (build_repr t Hwf h) as Hr.
  unfold returns in Hr. rewrite Hb in Hr.
  destruct Hr as (F & Hrep & Hfresh & _). eauto.
Qed.

(** ** The path resolver *)

Lemma sample_repr :
  exists F, repr sample_heap sample_ref sample_conf F /\
            (forall l, l ∈ F -> length module_heap ≤ l).
Proof. by apply (build_repr_at sample_conf module_heap). Qed.

(** C5, as stated, fails: [add_base_path] is not total.  For the
    configuration [{"filename": 5}] the call [val.startswith("/")]
    raises [AttributeError]. *)
Lemma add_base_path_not_total :
  build (TDict [("filename", TInt 5)]) [] = Ok (VRef 0) [ODict [("filename", VInt 5)]] /\
  add_base_path 3 (VRef 0) "/etc/idp" DEFAULT_FILE_ATTRIBUTE_NAMES
    [ODict [("filename", VInt 5)]]
  = Raise AttributeError [ODict [("filename", VInt 5)]].
Proof. split; reflexivity. Qed.

(** C5 (amended). For every tree in which the file attributes of the
    visited mappings are strings, [add_base_path] returns its argument
    without an exception, changes no object outside the tree, and the
    resulting tree is the input tree except for the strings under
    file-attribute keys: every other value that is not a mapping, every
    sequence with all its elements included, is the same, and nested
    mappings are treated in the same way. *)
Theorem add_base_path_frame base_path file_attributes t h v F fuel :
  repr h v t F ->
  paths_typed file_attributes t = true ->
  height t ≤ fuel ->
  exists t' h' F',
    add_base_path fuel v base_path file_attributes h = Ok v h' /\
    repr h' v t' F' /\
    in_place h F h' F' /\
    outside_untouched file_attributes t t'.
Proof.
  intros Hrep Hty Hfuel.
  destruct (paths_typed_Done base_path _ _ Hty) as [t' Hf].
  pose proof (add_base_path_refines base_path file_attributes t fuel Hfuel
                h v F t' Hrep Hf) as Hrun.
  apply returns_inv in Hrun as (r & h' & Hrun & -> & F' & Hrep' & Hin).
  exists t', h', F'. split_and!; [done..|].
  eapply path_resolved_untouched. by apply add_base_path_tree_resolved.
Qed.

Ltac repr_solve :=
  repeat first
    [ apply repr_None | apply repr_Bool | apply repr_Int | apply repr_Str
    | apply repr_elems_nil | apply repr_items_nil
    | eapply repr_elems_cons | eapply repr_items_cons
    | eapply repr_List; [reflexivity| |]
    | eapply repr_Dict; [reflexivity| | |]
    | match goal with
      | |- NoDup _ => apply (bool_decide_unpack _); vm_compute; exact I
      | |- _ ## _ => set_solver
      | |- _ ∉ _ => set_solver
      end ].

Lemma sample_objects :
  exists F, repr sample_heap sample_ref sample_conf F.
Proof. eexists. unfold sample_heap, sample_ref, sample_conf. simpl. repr_solve. Qed.

Lemma add_base_path_frame_witness :
  exists F t' h' F',
    repr sample_heap sample_ref sample_conf F /\
    add_base_path 3 sample_ref "/etc/idp" DEFAULT_FILE_ATTRIBUTE_NAMES sample_heap
    = Ok sample_ref h' /\
    repr h' sample_ref t' F' /\
    in_place sample_heap F h' F' /\
    outside_untouched DEFAULT_FILE_ATTRIBUTE_NAMES sample_conf t'.
Proof.
  destruct sample_objects as [F HF].
  destruct (add_base_path_frame "/etc/idp" DEFAULT_FILE_ATTRIBUTE_NAMES
              sample_conf sample_heap sample_ref F 3 HF eq_refl)
    as (t' & h' & F' & H); [vm_compute; lia|].
  exists F, t', h', F'. split; [exact HF|exact H].
Defined.

(** C6, as stated, fails in its last sentence: the recursion into a
    nested mapping depends on the key.  A mapping under a
    file-attribute key is not entered; [val.startswith("/")] raises
    [AttributeError] for it. *)
Lemma add_base_path_mapping_under_file_attribute :
  build (TDict [("filename", TDict [("db_file", TStr "users.json")])]) []
  = Ok (VRef 1)
      [ODict [("db_file", VStr "users.json")]; ODict [("filename", VRef 0)]] /\
  add_base_path 3 (VRef 1) "/etc/idp" DEFAULT_FILE_ATTRIBUTE_NAMES
    [ODict [("db_file", VStr "users.json")]; ODict [("filename", VRef 0)]]
  = Raise AttributeError
      [ODict [("db_file", VStr "users.json")]; ODict [("filename", VRef 0)]].
Proof. split; reflexivity. Qed.

(** C6 (amended). For every tree in which the file attributes of the
    visited mappings are strings, [add_base_path] returns, and the tree
    it leaves is the path-resolved input: a string under a
    file-attribute key is unchanged when it starts with ["/"], becomes
    ["./"] when it is empty and is joined to the base path otherwise
    (["jwks.json"] with base path ["/etc/idp"] becomes
    ["/etc/idp/jwks.json"]); nested mappings under keys outside the
    file-attribute set are resolved recursively. *)
Theorem add_base_path_rewrites base_path file_attributes t h v F fuel :
  repr h v t F ->
  paths_typed file_attributes t = true ->
  height t ≤ fuel ->
  exists t' h' F',
    add_base_path fuel v base_path file_attributes h = Ok v h' /\
    repr h' v t' F' /\
    path_resolved base_path file_attributes t t' /\
    path_join "/etc/idp" "jwks.json" = "/etc/idp/jwks.json".
Proof.
  intros Hrep Hty Hfuel.
  destruct (paths_typed_Done base_path _ _ Hty) as [t' Hf].
  pose proof (add_base_path_refines base_path file_attributes t fuel Hfuel
                h v F t' Hrep Hf) as Hrun.
  apply returns_inv in Hrun as (r & h' & Hrun & -> & F' & Hrep' & Hin).
  exists t', h', F'. split_and!; [done..| |done].
  by apply add_base_path_tree_resolved.
Qed.

Lemma add_base_path_rewrites_witness :
  exists F t' h' F',
    repr sample_heap sample_ref sample_conf F /\
    add_base_path 3 sample_ref "/etc/idp" DEFAULT_FILE_ATTRIBUTE_NAMES sample_heap
    = Ok sample_ref h' /\
    repr h' sample_ref t' F' /\
    path_resolved "/etc/idp" DEFAULT_FILE_ATTRIBUTE_NAMES sample_conf t' /\
    path_join "/etc/idp" "jwks.json" = "/etc/idp/jwks.json".
Proof.
  destruct sample_objects as [F HF].
  destruct (add_base_path_rewrites "/etc/idp" DEFAULT_FILE_ATTRIBUTE_NAMES
              sample_conf sample_heap sample_ref F 3 HF eq_refl)
    as (t' & h' & F' & H); [vm_compute; lia|].
  exists F, t', h', F'. split; [exact HF|exact H].
Defined.

(** The resolved sample, computed. *)
Example add_base_path_sample :
  exists h',
    add_base_path 3 sample_ref "/etc/idp" DEFAULT_FILE_ATTRIBUTE_NAMES sample_heap
    = Ok sample_ref h' /\
    h' !! 32 = Some (ODict [("private_path", VStr "/etc/idp/jwks.json");
                            ("public_path", VStr "/srv/static/jwks.json");
                            ("db_file", VStr "./");
                            ("key_defs", VRef 31)]) /\
    h' !! 31 = Some (OList [VStr "filename"; VStr "{domain}"]).
Proof. eexists. split; [reflexivity|]. split; reflexivity. Qed.

(** ** The template substitutor *)

Lemma assoc_get_Forall2 {A} (P : string -> A -> A -> Prop)
    (kvs kvs' : list (string * A)) key v :
  Forall2 (fun kv kv' => fst kv' = fst kv /\ P (fst kv) (snd kv) (snd kv'))
    kvs kvs' ->
  assoc_get kvs key = Some v ->
  exists x, assoc_get kvs' key = Some x /\ P key v x.
Proof.
  induction 1 as [|[k a] [k' a'] kvs kvs' [Hk HP] _ IH]; [done|].
  simpl in *. subst k'. destruct (String.eqb_spec k key) as [->|Hne].
  - intros [= ->]. eauto.
  - done.
Qed.

Lemma uris_all_Done uris domain port t :
  uris_all (fun s => exists r, format_from InText s domain port = Done r) uris t ->
  exists t', set_domain_and_port_tree uris domain port t = Done t'.
Proof.
  induction t as [| | | | |items IH] using tree_ind; intros Hall; try done.
  simpl in Hall. simpl.
  assert (exists items',
            map_entries
              (set_domain_and_port_value
                 (set_domain_and_port_tree uris domain port) uris domain port)
              items = Done items')
    as [items' ->]; [|by eexists].
  induction IH as [|[key v] items Hv _ IHitems]; [by eexists|].
  destruct Hall as [Hkv Hrest].
  destruct (IHitems Hrest) as [rest' Hmap]. simpl in Hv.
  simpl. rewrite Hmap. unfold set_domain_and_port_value.
  case_bool_decide.
  - destruct v as [| | |s|elems|]; try done.
    + destruct Hkv as [r ->]. by eexists.
    + assert (exists rs, format_elems elems domain port = Done rs) as [rs ->];
        [|by eexists].
      clear -Hkv. induction Hkv as [|e elems (s & -> & r & Hr) _ [rs IH]];
        [by eexists|].
      simpl. rewrite Hr, IH. by eexists.
  - destruct v as [| | | | |sub]; try by eexists.
    destruct (Hv Hkv) as [v' ->]. by eexists.
Qed.

(** C7, as stated, fails: [set_domain_and_port] does not substitute in
    every tree.  A URI value that is neither a string nor a sequence
    has no method [format]; the call raises [AttributeError] there and
    the entries after it are not reached.  With
    [{"base_url": 5, "issuer": "https://{domain}"}] the issuer is left
    as it was. *)
Lemma set_domain_and_port_not_total :
  build (TDict [("base_url", TInt 5); ("issuer", TStr "https://{domain}")]) []
  = Ok (VRef 0)
      [ODict [("base_url", VInt 5); ("issuer", VStr "https://{domain}")]] /\
  set_domain_and_port 3 (VRef 0) URIS (VStr "example.com") (VInt 443)
    [ODict [("base_url", VInt 5); ("issuer", VStr "https://{domain}")]]
  = Raise AttributeError
      [ODict [("base_url", VInt 5); ("issuer", VStr "https://{domain}")]].
Proof. split; reflexivity. Qed.

(** C7 (amended). For every tree whose URI values are strings, or
    sequences of strings, that [str.format] accepts with the domain and
    the port, [set_domain_and_port] returns, and the tree it leaves is
    the substituted input: under a URI key a string is replaced by the
    string formatted with the domain and the port, and a sequence by a
    newly created sequence of its elements, each formatted with the
    same domain and port; a mapping under any other key is substituted
    recursively.  So ["https://{domain}:{port}"] with domain
    ["example.com"] and port 443 becomes ["https://example.com:443"]. *)
Theorem set_domain_and_port_substitutes uris domain port t h v F fuel :
  repr h v t F ->
  uris_all (fun s => exists r,
              format_from InText s (format_value domain) (format_value port)
              = Done r) uris t ->
  height t ≤ fuel ->
  exists t' h' F',
    set_domain_and_port fuel v uris domain port h = Ok v h' /\
    repr h' v t' F' /\
    uris_substituted uris (format_value domain) (format_value port) t t' /\
    (forall key l,
       key ∈ uris -> entry_of h v key = Some (VRef l) ->
       exists l', entry_of h' v key = Some (VRef l') /\ length h ≤ l') /\
    format_from InText "https://{domain}:{port}"
      (format_value (VStr "example.com")) (format_value (VInt 443))
    = Done "https://example.com:443".
Proof.
  intros Hrep Hall Hfuel.
  destruct (uris_all_Done _ _ _ _ Hall) as [t' Hf].
  destruct t as [| | | | |items]; try done.
  pose proof (set_domain_and_port_tree_substituted _ _ _ _ _ Hf) as Hsub.
  inversion Hsub as [items0 items' Hentries]; subst.
  inversion Hrep as [| | | | |l kvs kts0 F0 Hl Hnd Hitems HlF]; subst.
  pose proof (set_domain_and_port_entries uris domain port items items' fuel h l
                _ Hrep Hf Hfuel) as Hrun.
  apply returns_inv in Hrun
    as (r & h' & Hrun & -> & (kvs0 & kvs' & Hl0 & Hl' & Hrel) & F' & Hrep' & Hin).
  exists (TDict items'), h', F'. split_and!; [done..| |done].
  intros key lv Hkey Hentry. simpl in Hentry. rewrite Hl0 in Hentry.
  destruct (assoc_get_Forall2 (renews_lists uris (length h)) _ _ _ _ Hrel Hentry)
    as (x & Hx & _ & Hnew).
  destruct (Hnew Hkey lv eq_refl) as (l' & -> & Hl'fresh).
  exists l'. simpl. rewrite Hl'. done.
Qed.

Lemma set_domain_and_port_substitutes_witness :
  exists F t' h' F',
    repr sample_heap sample_ref sample_conf F /\
    set_domain_and_port 3 sample_ref URIS (VStr "example.com") (VInt 443)
      sample_heap = Ok sample_ref h' /\
    repr h' sample_ref t' F' /\
    uris_substituted URIS (Some "example.com") (Some "443") sample_conf t' /\
    (forall key l,
       key ∈ URIS -> entry_of sample_heap sample_ref key = Some (VRef l) ->
       exists l', entry_of h' sample_ref key = Some (VRef l') /\
                  length sample_heap ≤ l') /\
    format_from InText "https://{domain}:{port}"
      (format_value (VStr "example.com")) (format_value (VInt 443))
    = Done "https://example.com:443".
Proof.
  destruct sample_objects as [F HF].
  destruct (set_domain_and_port_substitutes URIS (VStr "example.com") (VInt 443)
              sample_conf sample_heap sample_ref F 3 HF)
    as (t' & h' & F' & H).
  - simpl. repeat split; eauto.
    repeat constructor; eexists; (split; [reflexivity|]); eexists; reflexivity.
  - vm_compute; lia.
  - exists F, t', h', F'. split; [exact HF|exact H].
Defined.

Example set_domain_and_port_sample :
  exists h',
    set_domain_and_port 3 sample_ref URIS (VStr "example.com") (VInt 443)
      sample_heap = Ok sample_ref h' /\
    h' !! 34 = Some (ODict [("issuer", VStr "https://example.com:443");
                            ("base_url", VRef 35);
                            ("keys", VRef 32);
                            ("webserver", VRef 33)]) /\
    h' !! 35 = Some (OList [VStr "https://example.com";
                            VStr "http://example.com:443"]) /\
    h' !! 30 = Some (OList [VStr "https://{domain}";
                            VStr "http://{domain}:{port}"]).
Proof. eexists. split; [reflexivity|]. repeat split; reflexivity. Qed.

(** ** Substituting twice *)

Lemma format_brace_free s domain port :
  brace_free s = true -> format_from InText s domain port = Done s.
Proof.
  induction s as [|c s IH]; [done|]. simpl.
  intros [[Ho Hc]%andb_true_iff Hs]%andb_true_iff.
  apply negb_true_iff in Ho, Hc. rewrite Ho, Hc, (IH Hs). done.
Qed.

Lemma brace_free_app s1 s2 :
  brace_free (s1 +:+ s2) = brace_free s1 && brace_free s2.
Proof.
  induction s1 as [|c s1 IH]; [done|]. simpl. rewrite IH.
  by rewrite andb_assoc.
Qed.

Lemma format_plain_template s d p :
  plain_template s -> brace_free d = true -> brace_free p = true ->
  exists r, format_from InText s (Some d) (Some p) = Done r /\
            brace_free r = true.
Proof.
  intros Hs Hd Hp. induction Hs as [|c s Ho Hc _ [r [IH Hr]]
                                    |s _ [r [IH Hr]]|s _ [r [IH Hr]]].
  - by exists "".
  - exists (String c r). simpl. rewrite Ho, Hc, IH. simpl.
    by rewrite ?Ho, ?Hc, ?Hr.
  - exists (d +:+ r). simpl. change ("" +:+ s) with s. rewrite IH. simpl.
    by rewrite brace_free_app, Hd, Hr.
  - exists (p +:+ r). simpl. change ("" +:+ s) with s. rewrite IH. simpl.
    by rewrite brace_free_app, Hp, Hr.
Qed.

Lemma format_elems_brace_free elems domain port :
  Forall (fun e => exists s, e = TStr s /\ brace_free s = true) elems ->
  format_elems elems domain port = Done elems.
Proof.
  induction 1 as [|e elems (s & -> & Hs) _ IH]; [done|].
  simpl. by rewrite (format_brace_free s), IH.
Qed.

Lemma set_domain_and_port_tree_brace_free uris domain port t :
  uris_all (fun s => brace_free s = true) uris t ->
  set_domain_and_port_tree uris domain port t = Done t.
Proof.
  induction t as [| | | | |items IH] using tree_ind; intros Hall; try done.
  simpl in Hall. simpl.
  assert (map_entries
            (set_domain_and_port_value
               (set_domain_and_port_tree uris domain port) uris domain port)
            items = Done items) as ->; [|done].
  induction IH as [|[key v] items Hv _ IHitems]; [done|].
  destruct Hall as [Hkv Hrest]. simpl in Hv.
  simpl. rewrite (IHitems Hrest). unfold set_domain_and_port_value.
  case_bool_decide.
  - destruct v as [| | |s|elems|]; try done.
    + by rewrite format_brace_free.
    + by rewrite format_elems_brace_free.
  - destruct v as [| | | | |sub]; try done. by rewrite (Hv Hkv).
Qed.

Lemma format_elems_plain elems d p :
  Forall (fun e => exists s, e = TStr s /\ plain_template s) elems ->
  brace_free d = true -> brace_free p = true ->
  exists elems',
    format_elems elems (Some d) (Some p) = Done elems' /\
    Forall (fun e => exists s, e = TStr s /\ brace_free s = true) elems' /\
    length elems' = length elems.
Proof.
  intros Hall Hd Hp.
  induction Hall as [|e elems (s & -> & Hs) _ (rs & IH & Hrs & Hlen)].
  - by exists [].
  - destruct (format_plain_template s d p Hs Hd Hp) as (r & Hr & Hfree).
    exists (TStr r :: rs). simpl. rewrite Hr, IH. simpl.
    split_and!; [done| |by rewrite Hlen]. constructor; eauto.
Qed.

Lemma set_domain_and_port_tree_plain uris d p t :
  uris_all plain_template uris t ->
  brace_free d = true -> brace_free p = true ->
  exists t',
    set_domain_and_port_tree uris (Some d) (Some p) t = Done t' /\
    uris_all (fun s => brace_free s = true) uris t' /\
    height t' ≤ height t.
Proof.
  intros Hall Hd Hp. revert Hall.
  induction t as [| | | | |items IH] using tree_ind; intros Hall; try done.
  simpl in Hall.
  assert (exists items',
            map_entries
              (set_domain_and_port_value
                 (set_domain_and_port_tree uris (Some d) (Some p))
                 uris (Some d) (Some p)) items = Done items' /\
            uris_all (fun s => brace_free s = true) uris (TDict items') /\
            list_max (map (fun kt => height (snd kt)) items')
            ≤ list_max (map (fun kt => height (snd kt)) items))
    as (items' & Hmap & Hfree & Hh).
  2: { exists (TDict items'). simpl. rewrite Hmap. simpl.
       split_and!; [done|done|lia]. }
  induction IH as [|[key v] items Hv _ IHitems]; [by exists []|].
  destruct Hall as [Hkv Hrest].
  destruct (IHitems Hrest) as (rest' & Hmap & Hfree & Hh). simpl in Hv.
  simpl. rewrite Hmap. unfold set_domain_and_port_value.
  case_bool_decide as Hkey.
  - destruct v as [| | |s|elems|]; try done.
    + destruct (format_plain_template s d p Hkv Hd Hp) as (r & Hr & Hfr).
      exists ((key, TStr r) :: rest'). rewrite Hr. simpl.
      rewrite bool_decide_eq_true_2 by done. split_and!; [done..|lia].
    + destruct (format_elems_plain elems d p Hkv Hd Hp) as (rs & Hr & Hfr & Hlen).
      exists ((key, TList rs) :: rest'). rewrite Hr. simpl.
      rewrite bool_decide_eq_true_2 by done. split_and!; [done..|].
      assert (list_max (map height rs) = 0) as ->.
      { clear -Hfr. induction Hfr as [|e rs (s & -> & _) _ IH]; [done|].
        simpl. by rewrite IH. }
      lia.
  - destruct v as [| | | | |sub].
    1-5: eexists; split; [reflexivity|]; simpl;
         rewrite bool_decide_eq_false_2 by done; split_and!; [done..|lia].
    destruct (Hv Hkv) as (v' & Hv' & Hfv' & Hhv').
    exists ((key, v') :: rest'). rewrite Hv'. simpl.
    rewrite bool_decide_eq_false_2 by done.
    destruct v' as [| | | | |sub']; try done.
    split_and!; [done..|]. simpl in Hhv'. simpl. lia.
Qed.

(** C4, as stated, fails: the output of [set_domain_and_port] may
    still contain fields.  The template ["{{domain}}"] is formatted to
    ["{domain}"], and formatting again gives the domain. *)
Lemma set_domain_and_port_not_idempotent :
  set_domain_and_port 3 (VRef 0) URIS (VStr "example.com") (VInt 443)
    [ODict [("issuer", VStr "{{domain}}")]]
  = Ok (VRef 0) [ODict [("issuer", VStr "{domain}")]] /\
  set_domain_and_port 3 (VRef 0) URIS (VStr "example.com") (VInt 443)
    [ODict [("issuer", VStr "{domain}")]]
  = Ok (VRef 0) [ODict [("issuer", VStr "example.com")]].
Proof. split; reflexivity. Qed.

(** C4 (amended). Template substitution is idempotent on plain
    templates: for every tree whose URI values are made of text without
    braces and of the fields [{domain}] and [{port}], and for a domain
    and a port whose renderings have no braces, [set_domain_and_port]
    applied to its own output returns a tree equal to its input.
    Formatting a string without braces returns the string. *)
Theorem set_domain_and_port_idempotent uris domain port t h v F fuel :
  repr h v t F ->
  uris_all plain_template uris t ->
  brace_free_value domain = true ->
  brace_free_value port = true ->
  height t ≤ fuel ->
  exists t' h1 F1 h2 F2,
    set_domain_and_port fuel v uris domain port h = Ok v h1 /\
    repr h1 v t' F1 /\
    set_domain_and_port fuel v uris domain port h1 = Ok v h2 /\
    repr h2 v t' F2 /\
    (forall s, brace_free s = true ->
               format_from InText s (format_value domain) (format_value port)
               = Done s).
Proof.
  intros Hrep Hall Hd Hp Hfuel. unfold brace_free_value in *.
  destruct (format_value domain) as [d|] eqn:Hfd; [|done].
  destruct (format_value port) as [p|] eqn:Hfp; [|done].
  destruct (set_domain_and_port_tree_plain uris d p t Hall Hd Hp)
    as (t' & Hf & Hfree & Hh).
  pose proof (set_domain_and_port_refines uris domain port t fuel Hfuel
                h v F t' Hrep) as Hrun1.
  rewrite Hfd, Hfp in Hrun1. specialize (Hrun1 Hf).
  apply returns_inv in Hrun1 as (r1 & h1 & Hrun1 & -> & F1 & Hrep1 & _).
  assert (Hfuel' : height t' ≤ fuel) by lia.
  pose proof (set_domain_and_port_refines uris domain port t' fuel Hfuel'
                h1 v F1 t' Hrep1) as Hrun2.
  rewrite Hfd, Hfp in Hrun2.
  specialize (Hrun2 (set_domain_and_port_tree_brace_free _ _ _ _ Hfree)).
  apply returns_inv in Hrun2 as (r2 & h2 & Hrun2 & -> & F2 & Hrep2 & _).
  exists t', h1, F1, h2, F2. split_and!; [done..|].
  intros s Hs. by apply format_brace_free.
Qed.

Lemma sample_plain : uris_all plain_template URIS sample_conf.
Proof.
  simpl. split_and!; try done.
  - apply (plain_text "h"), (plain_text "t"), (plain_text "t"),
      (plain_text "p"), (plain_text "s"), (plain_text ":"),
      (plain_text "/"), (plain_text "/"); try done.
    apply plain_domain, (plain_text ":"); try done.
    apply plain_port, plain_end.
  - constructor; [|constructor; [|constructor]]; eexists; (split; [reflexivity|]).
    + apply (plain_text "h"), (plain_text "t"), (plain_text "t"),
        (plain_text "p"), (plain_text "s"), (plain_text ":"),
        (plain_text "/"), (plain_text "/"); try done.
      apply plain_domain, plain_end.
    + apply (plain_text "h"), (plain_text "t"), (plain_text "t"),
        (plain_text "p"), (plain_text ":"),
        (plain_text "/"), (plain_text "/"); try done.
      apply plain_domain, (plain_text ":"); try done.
      apply plain_port, plain_end.
Qed.

Lemma set_domain_and_port_idempotent_witness :
  exists F t' h1 F1 h2 F2,
    repr sample_heap sample_ref sample_conf F /\
    set_domain_and_port 3 sample_ref URIS (VStr "example.com") (VInt 443)
      sample_heap = Ok sample_ref h1 /\
    repr h1 sample_ref t' F1 /\
    set_domain_and_port 3 sample_ref URIS (VStr "example.com") (VInt 443) h1
    = Ok sample_ref h2 /\
    repr h2 sample_ref t' F2 /\
    (forall s, brace_free s = true ->
               format_from InText s (format_value (VStr "example.com"))
                 (format_value (VInt 443)) = Done s).
Proof.
  destruct sample_objects as [F HF].
  destruct (set_domain_and_port_idempotent URIS (VStr "example.com") (VInt 443)
              sample_conf sample_heap sample_ref F 3 HF sample_plain
              eq_refl eq_refl)
    as (t' & h1 & F1 & h2 & F2 & H); [vm_compute; lia|].
  exists F, t', h1, F1, h2, F2. split; [exact HF|exact H].
Defined.

(** ** Laws of the monad, at a store *)

Lemma bind_assoc_at {A B C} (m : M A) (f : A -> M B) (g : B -> M C) h :
  bind (bind m f) g h = bind m (fun a => bind (f a) g) h.
Proof. unfold bind. by destruct (m h). Qed.

Lemma bind_ext_at {A B} (m : M A) (f g : A -> M B) h :
  (forall a h', f a h' = g a h') -> bind m f h = bind m g h.
Proof. intros Hfg. unfold bind. by destruct (m h). Qed.

Lemma for_each_app {A} (xs ys : list A) (body : A -> M unit) h :
  for_each (xs ++ ys) body h
  = bind (for_each xs body) (fun _ => for_each ys body) h.
Proof.
  revert h. induction xs as [|x xs IH]; intros h; [done|].
  simpl. rewrite bind_assoc_at. apply bind_ext_at. intros _ h'. apply IH.
Qed.

(** ** The stages of the builders *)

Ltac bind_stages :=
  repeat first
    [ rewrite bind_assoc_at
    | apply bind_ext_at; intros ? ? ];
  try reflexivity.

Lemma OPConfiguration_init_stages fuel cwd self conf base_path entity_conf
    domain port file_attributes h :
  OPConfiguration_init fuel cwd self conf base_path entity_conf domain port
    file_attributes h
  = bind (OP_working_copy fuel self conf base_path domain port file_attributes)
      (fun conf' =>
         keys <- attr_names self ;;
         for_each keys (OP_merge_key self conf') ;;
         OP_template_dir cwd self) h.
Proof.
  unfold OPConfiguration_init, OP_working_copy. symmetry. bind_stages.
Qed.

Lemma Configuration_init_stages fuel cwd self conf entity_conf base_path
    file_attributes domain port h :
  Configuration_init (S fuel) cwd self conf entity_conf base_path
    file_attributes domain port h
  = bind (Configuration_prepare fuel self conf base_path file_attributes
            domain port)
      (fun dp =>
         match entity_conf with
         | None | Some [] => ret tt
         | Some descriptors =>
             for_each descriptors
               (attach_entity
                  (entity_class fuel cwd base_path file_attributes
                     (fst dp) (snd dp))
                  self conf)
         end) h.
Proof.
  cbn [Configuration_init]. unfold Configuration_prepare. symmetry.
  bind_stages.
Qed.

(** ** The entity attacher *)

Lemma getitem_pure conf key h :
  match getitem conf key h with
  | Ok _ h' | Raise _ h' => h' = h
  | _ => True
  end.
Proof.
  destruct conf as [| | | | |l]; try done.
  unfold getitem, bind, load. destruct (h !! l) as [[items| |]|]; try done.
  by destruct (assoc_get items key).
Qed.

Lemma walk_pure conf path h :
  match walk conf path h with
  | Ok _ h' | Raise _ h' => h' = h
  | _ => True
  end.
Proof.
  revert conf. induction path as [|step path IH]; intros conf; [done|].
  simpl. unfold bind. pose proof (getitem_pure conf step h) as Hg.
  destruct (getitem conf step h) as [sub h'| | |]; try done.
  subst h'. apply IH.
Qed.

Lemma walk_app conf prefix rest h sub :
  walk conf prefix h = Ok sub h ->
  walk conf (prefix ++ rest) h = walk sub rest h.
Proof.
  revert conf. induction prefix as [|step prefix IH]; intros conf.
  - by intros [= ->].
  - simpl. unfold bind. pose proof (getitem_pure conf step h) as Hg.
    destruct (getitem conf step h) as [c h'| | |]; try done.
    subst h'. apply IH.
Qed.

Lemma walk_missing conf prefix key rest h l items :
  walk conf prefix h = Ok (VRef l) h ->
  h !! l = Some (ODict items) ->
  assoc_get items key = None ->
  walk conf (prefix ++ key :: rest) h = Raise KeyError h.
Proof.
  intros Hwalk Hl Hkey. rewrite (walk_app _ _ _ _ _ Hwalk).
  simpl. unfold bind, getitem, bind, load. by rewrite Hl, Hkey.
Qed.

(** The sub-tree a descriptor designates. *)
Lemma attach_entity_located instantiate self conf (d : econf) h :
  attach_entity instantiate self conf d h
  = bind (match e_path d with
          | None | Some [] => ret conf
          | Some _path => walk conf _path
          end)
      (fun _cnf =>
         _attr <- required (e_attr d) ;;
         _cls <- required (e_class d) ;;
         entity <- instantiate _cls _cnf ;;
         setattr self _attr entity) h.
Proof. done. Qed.

(** C9. The provider-level builder does not look at [entity_conf]:
    whatever is passed, the call behaves as with [None], on every
    store; it returns the same object and leaves the same store. *)
Theorem OPConfiguration_ignores_entity_conf fuel cwd conf base_path entity_conf
    domain port file_attributes h :
  OPConfiguration fuel cwd conf base_path entity_conf domain port
    file_attributes h
  = OPConfiguration fuel cwd conf base_path None domain port file_attributes h.
Proof. reflexivity. Qed.

(** ** Values and their trees *)

Lemma truthy_run v h :
  (forall l, v = VRef l -> is_Some (h !! l)) ->
  truthy v h = Ok (truthy_in h v) h.
Proof.
  intros Hv. destruct v as [| | | | |l]; try done.
  destruct (Hv l eq_refl) as [o Ho].
  unfold truthy, truthy_in, bind, load. rewrite Ho.
  by destruct o as [[]|[]|].
Qed.

Lemma truthy_scalar_run v h :
  is_scalar v = true -> truthy v h = Ok (truthy_scalar v) h.
Proof. by destruct v. Qed.

Lemma repr_truthy_in h v t F : repr h v t F -> truthy_in h v = truthy_tree t.
Proof.
  destruct 1 as [| | | |l vs ts F Hl Hvs _|l kvs kts F Hl _ Hkvs _]; try done.
  - simpl. rewrite Hl. by destruct Hvs.
  - simpl. rewrite Hl. by destruct Hkvs.
Qed.

Lemma repr_format_value h v t F : repr h v t F -> format_value v = format_tree t.
Proof. by destruct 1. Qed.

Lemma repr_refs_valid h v t F l : repr h v t F -> v = VRef l -> is_Some (h !! l).
Proof. destruct 1; intros [= ->]; eauto. Qed.

Lemma repr_items_get h kvs kts F key :
  repr_items h kvs kts F ->
  match assoc_get kts key with
  | Some x => exists v Fx, assoc_get kvs key = Some v /\ repr h v x Fx /\ Fx ⊆ F
  | None => assoc_get kvs key = None
  end.
Proof.
  induction 1 as [|k v t Fv kvs kts Fs Hv _ IH _]; [done|].
  simpl. destruct (String.eqb_spec k key) as [->|Hne].
  - exists v, Fv. split_and!; [done..|set_solver].
  - destruct (assoc_get kts key); [|done].
    destruct IH as (v' & Fx & ? & ? & ?). exists v', Fx.
    split_and!; [done..|set_solver].
Qed.

(** An assignment to an attribute that is not a data descriptor of
    the type. *)
Lemma setattr_run self c attrs name x h :
  h !! self = Some (OInst c attrs) ->
  name ∉ DATA_DESCRIPTORS ->
  setattr self name x h = Ok tt (<[self := OInst c (assoc_set attrs name x)]> h).
Proof.
  intros Hself Hname. unfold setattr, bind, load. rewrite Hself.
  destruct (String.eqb_spec name "__weakref__") as [->|_].
  { destruct Hname. set_solver. }
  destruct (String.eqb_spec name "__class__") as [->|_].
  { destruct Hname. set_solver. }
  destruct (String.eqb_spec name "__dict__") as [->|_]; [|done].
  destruct Hname. set_solver.
Qed.

Ltac plain_name :=
  match goal with
  | |- _ ∉ DATA_DESCRIPTORS =>
      apply (bool_decide_unpack _); vm_compute; exact I
  end.

Lemma returns_setattr self c attrs name x h (Q : unit -> heap -> Prop) :
  h !! self = Some (OInst c attrs) ->
  name ∉ DATA_DESCRIPTORS ->
  Q tt (<[self := OInst c (assoc_set attrs name x)]> h) ->
  returns (setattr self name x) h Q.
Proof.
  intros Hl Hname HQ. unfold returns. by rewrite (setattr_run _ _ _ _ _ _ Hl Hname).
Qed.

Lemma returns_truthy v h (Q : bool -> heap -> Prop) :
  (forall l, v = VRef l -> is_Some (h !! l)) ->
  Q (truthy_in h v) h -> returns (truthy v) h Q.
Proof. intros Hv HQ. unfold returns. by rewrite truthy_run. Qed.

(** ** [Base.__init__] and the resolution of domain and port *)

Lemma Base_init_refines base_path file_attributes t t1 h c F fuel :
  repr h c t F ->
  base_tree base_path file_attributes t = Done t1 ->
  height t ≤ fuel ->
  returns (Base_init fuel c base_path file_attributes) h (fun _ h' =>
    exists F', repr h' c t1 F' /\ in_place h F h' F').
Proof.
  intros Hrep Hbase Hfuel. unfold Base_init, base_tree in *.
  destruct file_attributes as [names|]; simpl in *.
  - destruct (negb (String.eqb base_path "")); simpl in *.
    + destruct names as [|name names]; simpl in *.
      * injection Hbase as <-. apply returns_ret.
        exists F. split; [done|apply in_place_refl].
      * apply returns_bind. eapply returns_mono;
          [by eapply (add_base_path_refines base_path (name :: names) t fuel)|].
        intros r h' (-> & F' & Hrep' & Hin). apply returns_ret. eauto.
    + injection Hbase as <-. apply returns_ret.
      exists F. split; [done|apply in_place_refl].
  - destruct (negb (String.eqb base_path "")); simpl in *.
    + apply returns_bind. eapply returns_mono;
        [by eapply (add_base_path_refines base_path
                      DEFAULT_FILE_ATTRIBUTE_NAMES t fuel)|].
      intros r h' (-> & F' & Hrep' & Hin). apply returns_ret. eauto.
    + injection Hbase as <-. apply returns_ret.
      exists F. split; [done|apply in_place_refl].
Qed.

Lemma resolve_refines x c name fallback fallback_tree items h F
    (Q : val -> heap -> Prop) :
  repr h c (TDict items) F ->
  is_scalar x = true ->
  format_value fallback = format_tree fallback_tree ->
  (forall d, format_value d
             = resolve_tree x (TDict items) name fallback_tree -> Q d h) ->
  returns (resolve x c name fallback) h Q.
Proof.
  intros Hrep Hx Hfb HQ. unfold resolve, resolve_tree in *.
  apply returns_bind. unfold returns at 1. rewrite truthy_scalar_run by done.
  destruct (truthy_scalar x); [by apply returns_ret, HQ|].
  inversion Hrep as [| | | | |l kvs kts F0 Hl Hnd Hitems HlF]; subst.
  eapply returns_dict_get; [done|]. apply HQ. simpl.
  pose proof (repr_items_get _ _ _ _ name Hitems) as Hget.
  destruct (assoc_get items name) as [xt|].
  - destruct Hget as (v & Fx & -> & Hv & _). simpl.
    by eapply repr_format_value.
  - by rewrite Hget.
Qed.

(** ** The placeholders *)

Lemma placeholders_step h0 self c names name v h :
  placeholders_set h0 self c names h ->
  name ∉ names -> name ∉ DATA_DESCRIPTORS ->
  is_placeholder (length h0) h v ->
  returns (setattr self name v) h (fun _ h' =>
    placeholders_set h0 self c (names ++ [name]) h').
Proof.
  intros (attrs & Hself & Hnames & Hlen & Hframe & Hph) Hname Hplain Hv.
  assert (Hlt : self < length h) by (by eapply lookup_lt_Some).
  eapply returns_setattr; [done..|].
  exists (attrs ++ [(name, v)]).
  rewrite assoc_set_fresh by (by rewrite Hnames).
  split_and!.
  - by apply list_lookup_insert_eq.
  - by rewrite map_app, Hnames.
  - by rewrite length_insert.
  - intros l Hl Hne. rewrite list_lookup_insert_ne by done. by apply Hframe.
  - intros key x Hget.
    assert (is_placeholder (length h0) h x) as Hx.
    { destruct (decide (key ∈ map fst attrs)) as [Hin|Hnin].
      - destruct (assoc_get attrs key) as [y|] eqn:Hy.
        + assert (assoc_get (attrs ++ [(name, v)]) key = Some y) as Hy'.
          { clear -Hy. induction attrs as [|[k a] attrs IH]; [done|].
            simpl in *. destruct (String.eqb k key); [done|by apply IH]. }
          rewrite Hy' in Hget. injection Hget as <-. by apply (Hph key).
        + by apply assoc_get_None_notin in Hy.
      - rewrite assoc_get_app_notin in Hget by done.
        simpl in Hget. destruct (String.eqb name key); [|done].
        by injection Hget as <-. }
    destruct Hx as [->|[->|(p & -> & Hp & Hhp)]]; [by left|by right; left|].
    right; right. exists p. split_and!; [done..|].
    rewrite list_lookup_insert_ne; [done|].
    intros ->. by rewrite Hself in Hhp.
Qed.

Lemma placeholders_dict h0 self c names name h :
  placeholders_set h0 self c names h ->
  name ∉ names -> name ∉ DATA_DESCRIPTORS ->
  returns (d <- new_dict ;; setattr self name d) h (fun _ h' =>
    placeholders_set h0 self c (names ++ [name]) h').
Proof.
  intros (attrs & Hself & Hnames & Hlen & Hframe & Hph) Hname Hplain.
  assert (Hlt : self < length h) by (by eapply lookup_lt_Some).
  returns_go.
  apply (placeholders_step h0 self c names name (VRef (length h))
           (h ++ [ODict []])); [|done|done|].
  - exists attrs. split_and!.
    + by rewrite lookup_app_l.
    + done.
    + rewrite length_app. lia.
    + intros l Hl Hne. rewrite lookup_app_l by lia. by apply Hframe.
    + intros key x Hget.
      destruct (Hph key x Hget) as [->|[->|(p & -> & Hp & Hhp)]];
        [by left|by right; left|].
      right; right. exists p. split_and!; [done..|].
      rewrite lookup_app_l; [done|]. by eapply lookup_lt_Some.
  - right; right. exists (length h). split_and!; [done|lia|].
    by apply list_lookup_middle.
Qed.

Lemma placeholders_step_then {A} h0 self c names name v h (k : unit -> M A)
    (Q : A -> heap -> Prop) :
  placeholders_set h0 self c names h ->
  bool_decide (name ∉ names) = true ->
  bool_decide (name ∉ DATA_DESCRIPTORS) = true ->
  v = VNone \/ v = VStr "" ->
  (forall h', placeholders_set h0 self c (names ++ [name]) h' ->
              returns (k tt) h' Q) ->
  returns (bind (setattr self name v) k) h Q.
Proof.
  intros Hset Hname%bool_decide_eq_true Hplain%bool_decide_eq_true Hv Hk.
  apply returns_bind. eapply returns_mono.
  - apply (placeholders_step h0 self c names name v h Hset Hname Hplain).
    destruct Hv as [->| ->]; [by left|by right; left].
  - intros [] h'. apply Hk.
Qed.

Lemma placeholders_dict_then {A} h0 self c names name h (k : unit -> M A)
    (Q : A -> heap -> Prop) :
  placeholders_set h0 self c names h ->
  bool_decide (name ∉ names) = true ->
  bool_decide (name ∉ DATA_DESCRIPTORS) = true ->
  (forall h', placeholders_set h0 self c (names ++ [name]) h' ->
              returns (k tt) h' Q) ->
  returns (bind new_dict (fun d => bind (setattr self name d) k)) h Q.
Proof.
  intros Hset Hname%bool_decide_eq_true Hplain%bool_decide_eq_true Hk.
  pose proof (placeholders_dict h0 self c names name h Hset Hname Hplain) as Hd.
  unfold returns in *. rewrite <- bind_assoc_at. unfold bind at 1.
  destruct (bind new_dict _ h) as [[] h'| | |]; [|done..].
  by apply Hk.
Qed.

Lemma OP_placeholders_spec h0 self c :
  h0 !! self = Some (OInst c []) ->
  returns (OP_placeholders self) h0 (fun _ h' =>
    placeholders_set h0 self c OP_SCHEMA h').
Proof.
  intros Hself.
  assert (H0 : placeholders_set h0 self c [] h0).
  { exists []. by split_and!. }
  unfold OP_placeholders. revert H0. generalize h0 at 2 3 as h.
  repeat
    (intros h Hset;
     first
       [ eapply placeholders_step_then;
           [exact Hset|reflexivity|reflexivity|first [by left|by right]|]
       | eapply placeholders_dict_then; [exact Hset|reflexivity|reflexivity|] ];
     clear h Hset; simpl app).
  intros h Hset.
  apply (placeholders_step h0 self c _ "userinfo" VNone h Hset);
    [| |by left]; apply (bool_decide_unpack _); vm_compute; exact I.
Qed.

(** ** The merge loop *)

Lemma truthy_in_insert_ne h l o v :
  (forall l', v = VRef l' -> l' <> l) ->
  truthy_in (<[l := o]> h) v = truthy_in h v.
Proof.
  intros Hv. destruct v as [| | | | |l']; try done.
  simpl. rewrite list_lookup_insert_ne; [done|]. intros ->. by apply (Hv l').
Qed.

Lemma merged_insert_ne h l o kvs defaults key old :
  (forall l', default VNone (assoc_get kvs key) = VRef l' -> l' <> l) ->
  merged (<[l := o]> h) kvs defaults key old = merged h kvs defaults key old.
Proof. intros Hv. unfold merged. by rewrite truthy_in_insert_ne. Qed.

Lemma defaults_of_loc h defaults :
  defaults_of h = Some defaults ->
  exists l, DEFAULT_CONFIG = VRef l /\ h !! l = Some (ODict defaults).
Proof.
  intros H. exists 29. split; [reflexivity|].
  revert H. unfold defaults_of. simpl.
  match goal with
  | |- context [@lookup ?K ?A ?T ?L ?l h] =>
      change (h !! 29) with (@lookup K A T L l h);
      destruct (@lookup K A T L l h) as [[items| |]|]
  end; congruence.
Qed.

Lemma OP_merge_key_run self c done key old todo lc kvs defaults h :
  h !! self = Some (OInst c (done ++ (key, old) :: todo)) ->
  NoDup (map fst (done ++ (key, old) :: todo)) ->
  key ∉ DATA_DESCRIPTORS ->
  h !! lc = Some (ODict kvs) ->
  defaults_of h = Some defaults ->
  (forall l, default VNone (assoc_get kvs key) = VRef l -> is_Some (h !! l)) ->
  OP_merge_key self (VRef lc) key h
  = Ok tt (<[self := OInst c (done ++ (key, merged h kvs defaults key old)
                                :: todo)]> h).
Proof.
  intros Hself Hnd Hplain Hlc Hdef Hval.
  destruct (defaults_of_loc _ _ Hdef) as (ld & Hld & Hdefl).
  unfold OP_merge_key, merged.
  unfold bind at 1, dict_get, bind at 1, dict_entries, bind at 1, load.
  rewrite Hlc. cbn [ret].
  change (match assoc_get kvs key with Some v => v | None => VNone end)
    with (default VNone (assoc_get kvs key)).
  set (_val := default VNone (assoc_get kvs key)) in *.
  unfold bind at 1. rewrite truthy_run by done.
  destruct (truthy_in h _val) eqn:Htruthy.
  - rewrite (setattr_run _ _ _ _ _ _ Hself Hplain).
    by rewrite assoc_set_middle.
  - rewrite Hld.
    unfold bind at 1, dict_contains, bind at 1, load. rewrite Hdefl. cbn [ret].
    destruct (assoc_get defaults key) as [d|] eqn:Hd; simpl.
    + unfold bind at 1, getitem, bind at 1, load. rewrite Hdefl, Hd. cbn [ret].
      rewrite (setattr_run _ _ _ _ _ _ Hself Hplain).
      by rewrite assoc_set_middle.
    + unfold ret. by rewrite list_insert_id.
Qed.

Lemma OP_merge_loop self c lc kvs defaults todo :
  forall done h,
    h !! self = Some (OInst c (done ++ todo)) ->
    NoDup (map fst (done ++ todo)) ->
    Forall (fun key => key ∉ DATA_DESCRIPTORS) (map fst todo) ->
    h !! lc = Some (ODict kvs) -> lc <> self ->
    defaults_of h = Some defaults ->
    (forall key l, default VNone (assoc_get kvs key) = VRef l ->
                   l <> self /\ is_Some (h !! l)) ->
    for_each (map fst todo) (OP_merge_key self (VRef lc)) h
    = Ok tt (<[self := OInst c (done ++ merge_attrs h kvs defaults todo)]> h).
Proof.
  induction todo as [|[key old] todo IH];
    intros done h Hself Hnd Hplain Hlc Hne Hdef Hvals.
  - simpl. rewrite app_nil_r in *. unfold ret. by rewrite list_insert_id.
  - assert (Hlt : self < length h) by (by eapply lookup_lt_Some).
    destruct (defaults_of_loc _ _ Hdef) as (ld & Hld & Hdefl).
    assert (Hlds : ld <> self).
    { intros ->. by rewrite Hself in Hdefl. }
    simpl in Hplain. apply Forall_cons in Hplain as [Hkey Hplain].
    simpl. unfold bind.
    rewrite (OP_merge_key_run self c done key old todo lc kvs defaults h);
      try done.
    2: { intros l Hl. by apply (Hvals key l). }
    set (m := merged h kvs defaults key old).
    set (h1 := <[self := OInst c (done ++ (key, m) :: todo)]> h).
    rewrite (IH (done ++ [(key, m)]) h1).
    + unfold h1. rewrite list_insert_insert_eq. f_equal. f_equal. f_equal.
      rewrite <- app_assoc. simpl. f_equal. f_equal.
      unfold merge_attrs. apply map_ext. intros [k o]. simpl. f_equal.
      apply merged_insert_ne. intros l' Hl'. by apply (Hvals k l').
    + unfold h1. rewrite list_lookup_insert_eq by done.
      by rewrite <- app_assoc.
    + rewrite <- app_assoc. simpl.
      by rewrite !map_app in *.
    + done.
    + unfold h1. by rewrite list_lookup_insert_ne.
    + done.
    + unfold defaults_of. rewrite Hld. cbn beta iota. unfold h1.
      rewrite list_lookup_insert_ne by done. by rewrite Hdefl.
    + intros k l Hl. destruct (Hvals k l Hl) as [Hls Hsome].
      split; [done|]. unfold h1. by rewrite list_lookup_insert_ne.
Qed.

Lemma assoc_get_merge_attrs h kvs defaults attrs key :
  assoc_get (merge_attrs h kvs defaults attrs) key
  = merged h kvs defaults key <$> assoc_get attrs key.
Proof.
  induction attrs as [|[k o] attrs IH]; [done|]. simpl.
  destruct (String.eqb_spec k key) as [->|Hne]; [done|apply IH].
Qed.

Lemma merge_attrs_keys h kvs defaults attrs :
  map fst (merge_attrs h kvs defaults attrs) = map fst attrs.
Proof. unfold merge_attrs. rewrite map_map. done. Qed.

(** ** [template_dir] *)

Lemma OP_template_dir_run cwd self c attrs h td :
  h !! self = Some (OInst c attrs) ->
  assoc_get attrs "template_dir" = Some td ->
  OP_template_dir cwd self h
  = match td with
    | VNone =>
        Ok tt (<[self := OInst c (assoc_set attrs "template_dir"
                                    (VStr (abspath cwd "templates")))]> h)
    | VStr s =>
        Ok tt (<[self := OInst c (assoc_set attrs "template_dir"
                                    (VStr (abspath cwd s)))]> h)
    | _ => Raise TypeError h
    end.
Proof.
  intros Hself Htd. unfold OP_template_dir, bind at 1, getattr, bind at 1, load.
  rewrite Hself, Htd. cbn [ret].
  assert (Hplain : "template_dir" ∉ DATA_DESCRIPTORS) by plain_name.
  destruct td; try done; by rewrite (setattr_run _ _ _ _ _ _ Hself Hplain).
Qed.

(** ** The working copy of the provider-level builder *)

Lemma map_entries_height f items items' :
  Forall (fun kt => forall t', f (fst kt) (snd kt) = Done t' ->
                               height t' ≤ height (snd kt)) items ->
  map_entries f items = Done items' ->
  list_max (map (fun kt => height (snd kt)) items')
  ≤ list_max (map (fun kt => height (snd kt)) items).
Proof.
  intros Hall. revert items'.
  induction Hall as [|[key v] items Hv _ IH]; intros items' Hmap.
  - by injection Hmap as <-.
  - apply map_entries_cons_inv in Hmap as (v' & rest' & Hf & Hmap & ->).
    specialize (IH _ Hmap). specialize (Hv _ Hf). simpl in *. lia.
Qed.

Lemma add_base_path_tree_height base_path file_attributes t t' :
  add_base_path_tree base_path file_attributes t = Done t' ->
  height t' ≤ height t.
Proof.
  revert t'. induction t as [| | | | |items IH] using tree_ind;
    intros t' Hf; try done.
  simpl in Hf. unfold rmap, rbind in Hf.
  destruct (map_entries _ items) as [items'| |] eqn:Hmap; [|done..].
  injection Hf as <-. simpl. apply le_n_S.
  eapply map_entries_height; [|done].
  eapply Forall_impl; [exact IH|]. intros [key v] Hv v' Hval. simpl in *.
  unfold add_base_path_value in Hval. case_bool_decide.
  - destruct v; try done. by injection Hval as <-.
  - destruct v; try (by injection Hval as <-). by apply Hv.
Qed.

Lemma add_base_path_tree_dict base_path file_attributes items t' :
  add_base_path_tree base_path file_attributes (TDict items) = Done t' ->
  exists items', t' = TDict items'.
Proof.
  simpl. unfold rmap, rbind.
  destruct (map_entries _ items) as [items'| |]; [|done..].
  intros [= <-]. eauto.
Qed.

Lemma base_tree_dict base_path file_attributes items t1 :
  base_tree base_path file_attributes (TDict items) = Done t1 ->
  (exists items1, t1 = TDict items1) /\ height t1 ≤ height (TDict items).
Proof.
  unfold base_tree. destruct (_ && _).
  - intros Hf. split; [by eapply add_base_path_tree_dict|].
    by eapply add_base_path_tree_height.
  - intros [= <-]. eauto.
Qed.

Lemma OP_working_copy_spec fuel c conf base_path domain port file_attributes
    items t2 h0 F :
  repr h0 conf (TDict items) F ->
  working_tree base_path file_attributes domain port (TDict items) = Done t2 ->
  is_scalar domain = true -> is_scalar port = true ->
  height (TDict items) < fuel ->
  returns
    (OP_working_copy fuel (length h0) conf base_path domain port file_attributes)
    (h0 ++ [OInst c []])
    (fun r h' =>
       exists F2 attrs,
         repr h' r t2 F2 /\
         (forall l, l ∈ F2 -> length h0 < l) /\
         length h0 < length h' /\
         (forall l, l < length h0 -> h' !! l = h0 !! l) /\
         h' !! length h0 = Some (OInst c attrs) /\
         map fst attrs = OP_SCHEMA /\
         (forall key v, assoc_get attrs key = Some v ->
                        is_placeholder (S (length h0)) h' v)).
Proof.
  intros Hrep Hwork Hd Hp Hfuel.
  unfold working_tree, rbind in Hwork.
  destruct (base_tree base_path file_attributes (TDict items))
    as [t1| |] eqn:Hbase; [|done..].
  destruct (base_tree_dict _ _ _ _ Hbase) as [[items1 ->] Hh1].
  set (self := length h0). set (h1 := h0 ++ [OInst c []]).
  assert (Hself1 : h1 !! self = Some (OInst c [])) by (by apply list_lookup_middle).
  assert (Hlen1 : length h1 = S self) by (unfold h1; rewrite length_app; simpl; lia).
  assert (Hrep1 : repr h1 conf (TDict items) F).
  { eapply repr_frame; [done|]. intros l Hl. apply lookup_app_l.
    by eapply repr_valid. }
  unfold OP_working_copy. apply returns_bind.
  eapply returns_mono; [by eapply (deepcopy_refines (TDict items) fuel h1 conf F)|].
  intros cp h2 (Fc & Hcp & Hfresh & Hlen2 & Hframe2).
  apply returns_bind.
  eapply returns_mono;
    [eapply (Base_init_refines base_path file_attributes _ _ h2 cp Fc fuel);
       [done|done|lia]|].
  intros _ h3 (Fc3 & Hcp3 & Hlen3 & Hframe3 & Hsub3).
  assert (HFc3 : forall l, l ∈ Fc3 -> self < l).
  { intros l [Hl|Hl]%Hsub3; [apply Hfresh in Hl|]; lia. }
  assert (Hself3 : h3 !! self = Some (OInst c [])).
  { rewrite Hframe3; [rewrite Hframe2; [done|lia]|lia|].
    intros Hin%Hfresh. lia. }
  apply returns_bind.
  eapply returns_mono; [by apply (OP_placeholders_spec h3 self c)|].
  intros _ h4 (attrs & Hself4 & Hnames & Hlen4 & Hframe4 & Hph).
  assert (Hcp4 : repr h4 cp (TDict items1) Fc3).
  { eapply repr_frame; [done|]. intros l Hl.
    apply Hframe4; [by eapply repr_valid|]. apply HFc3 in Hl. lia. }
  apply returns_bind.
  eapply (resolve_refines domain cp "domain" (VStr "127.0.0.1")
            (TStr "127.0.0.1") items1 h4 Fc3); [done..|].
  intros d Hfd. apply returns_bind.
  eapply (resolve_refines port cp "port" (VInt 80) (TInt 80) items1 h4 Fc3);
    [done..|].
  intros p Hfp. apply returns_bind.
  rewrite <- Hfd, <- Hfp in Hwork.
  eapply returns_mono;
    [eapply (set_domain_and_port_refines URIS d p (TDict items1) fuel);
       [lia|done|done]|].
  intros r h5 (-> & F5 & Hcp5 & Hlen5 & Hframe5 & Hsub5).
  apply returns_ret.
  assert (Hvalid3 : forall l, l ∈ Fc3 -> l < length h3).
  { intros l Hl. by eapply repr_valid. }
  exists F5, attrs. split_and!; [done| |lia| | |done|].
  - intros l [Hl|Hl]%Hsub5; [by apply HFc3|]. unfold self. lia.
  - intros l Hl. rewrite Hframe5; [|lia|intros Hin%HFc3; unfold self in *; lia].
    rewrite Hframe4; [|lia|unfold self; lia].
    rewrite Hframe3; [|lia|intros Hin%Hfresh; lia].
    rewrite Hframe2; [|lia]. by apply lookup_app_l.
  - rewrite Hframe5; [done|by eapply lookup_lt_Some|].
    intros Hin%HFc3. lia.
  - intros key v Hget.
    destruct (Hph key v Hget) as [->|[->|(q & -> & Hq & Hhq)]];
      [by left|by right; left|].
    right; right. exists q. split_and!; [done|unfold self in *; lia|].
    rewrite Hframe5; [done|by eapply lookup_lt_Some|].
    intros Hin%Hvalid3. lia.
Qed.

(** ** The provider-level builder on a tree *)

Lemma repr_items_value_ref h kvs kts F key l :
  repr_items h kvs kts F ->
  assoc_get kvs key = Some (VRef l) ->
  l ∈ F /\ is_Some (h !! l).
Proof.
  induction 1 as [|k v t Fv kvs kts Fs Hv _ IH _]; [done|].
  simpl. destruct (String.eqb_spec k key) as [->|Hne].
  - intros [= ->]. inversion Hv; subst; (split; [set_solver|eauto]).
  - intros Hget. destruct (IH Hget). split; [set_solver|done].
Qed.

Lemma set_domain_and_port_tree_dict uris domain port items t' :
  set_domain_and_port_tree uris domain port (TDict items) = Done t' ->
  exists items', t' = TDict items'.
Proof.
  simpl. unfold rmap, rbind.
  destruct (map_entries _ items) as [items'| |]; [|done..].
  intros [= <-]. eauto.
Qed.

Lemma working_tree_dict base_path file_attributes domain port items t2 :
  working_tree base_path file_attributes domain port (TDict items) = Done t2 ->
  exists items2, t2 = TDict items2.
Proof.
  unfold working_tree, rbind.
  destruct (base_tree _ _ _) as [t1| |] eqn:Hbase; [|done..].
  destruct (base_tree_dict _ _ _ _ Hbase) as [[items1 ->] _].
  apply set_domain_and_port_tree_dict.
Qed.

Lemma OP_SCHEMA_plain : Forall (fun key => key ∉ DATA_DESCRIPTORS) OP_SCHEMA.
Proof. apply (bool_decide_unpack _). vm_compute. exact I. Qed.

Lemma OP_SCHEMA_NoDup : NoDup OP_SCHEMA.
Proof. apply (bool_decide_unpack _). vm_compute. exact I. Qed.

Lemma OPConfiguration_on_tree fuel cwd conf base_path entity_conf domain port
    file_attributes items t2 defaults td h0 F :
  repr h0 conf (TDict items) F ->
  defaults_of h0 = Some defaults ->
  working_tree base_path file_attributes domain port (TDict items) = Done t2 ->
  is_scalar domain = true -> is_scalar port = true ->
  template_dir_of cwd t2 defaults = Some td ->
  height (TDict items) < fuel ->
  exists h' lc kvs F2 attrs,
    OPConfiguration fuel cwd conf base_path entity_conf domain port
      file_attributes h0 = Ok (VRef (length h0)) h' /\
    (forall l, l < length h0 -> h' !! l = h0 !! l) /\
    h' !! length h0 = Some (OInst COPConfiguration attrs) /\
    map fst attrs = OP_SCHEMA /\
    repr h' (VRef lc) t2 F2 /\
    (forall l, l ∈ F2 -> length h0 < l) /\
    h' !! lc = Some (ODict kvs) /\
    assoc_get attrs "template_dir" = Some (VStr td) /\
    forall key, key ∈ OP_SCHEMA -> key <> "template_dir" ->
      exists old,
        is_placeholder (S (length h0)) h' old /\
        assoc_get attrs key = Some (merged h' kvs defaults key old).
Proof.
  intros Hrep Hdef Hwork Hd Hp Htd Hfuel.
  destruct (working_tree_dict _ _ _ _ _ _ Hwork) as [items2 ->].
  pose proof (OP_working_copy_spec fuel COPConfiguration conf base_path domain
                port file_attributes items (TDict items2) h0 F
                Hrep Hwork Hd Hp Hfuel) as Hcopy.
  apply returns_inv in Hcopy
    as (cp & h5 & Hcopy & F2 & attrs & Hcp & HF2 & Hlen5 & Hframe5 & Hself5
        & Hnames & Hph).
  inversion Hcp as [| | | | |lc kvs kts0 F0 Hlc Hndk Hitems HlcF]; subst.
  set (self := length h0) in *.
  assert (Hlcs : lc <> self).
  { intros ->. assert (self < self); [apply HF2; set_solver|lia]. }
  destruct (defaults_of_loc _ _ Hdef) as (ld & Hld & Hdefl).
  assert (Hldlt : ld < self) by (by eapply lookup_lt_Some).
  assert (Hdef5 : defaults_of h5 = Some defaults).
  { unfold defaults_of. rewrite Hld. by rewrite Hframe5, Hdefl. }
  assert (Hvals : forall key l,
            default VNone (assoc_get kvs key) = VRef l ->
            l <> self /\ is_Some (h5 !! l)).
  { intros key l Hv. destruct (assoc_get kvs key) as [v|] eqn:Hget; [|done].
    simpl in Hv. subst v.
    destruct (repr_items_value_ref _ _ _ _ _ _ Hitems Hget) as [Hin Hsome].
    split; [|done]. intros ->.
    assert (self < self); [apply HF2; set_solver|lia]. }
  assert (Hnd : NoDup (map fst ([] ++ attrs))).
  { simpl. rewrite Hnames. apply OP_SCHEMA_NoDup. }
  assert (Hplain : Forall (fun key => key ∉ DATA_DESCRIPTORS) (map fst attrs))
    by (rewrite Hnames; apply OP_SCHEMA_plain).
  pose proof (OP_merge_loop self COPConfiguration lc kvs defaults attrs [] h5
                Hself5 Hnd Hplain Hlc Hlcs Hdef5 Hvals) as Hloop.
  simpl in Hloop.
  set (attrs6 := merge_attrs h5 kvs defaults attrs) in *.
  set (h6 := <[self := OInst COPConfiguration attrs6]> h5) in *.
  assert (Hselflt : self < length h5) by (by eapply lookup_lt_Some).
  assert (Hself6 : h6 !! self = Some (OInst COPConfiguration attrs6)).
  { unfold h6. by apply list_lookup_insert_eq. }
  (* the template directory *)
  assert (exists old_td, assoc_get attrs "template_dir" = Some old_td)
    as [old_td Hold].
  { destruct (assoc_get attrs "template_dir") eqn:Hg; [by eexists|].
    apply assoc_get_None_notin in Hg. rewrite Hnames in Hg.
    exfalso. apply Hg. apply (bool_decide_unpack _). vm_compute. exact I. }
  assert (Htd6 : assoc_get attrs6 "template_dir"
                 = Some (merged h5 kvs defaults "template_dir" old_td)).
  { unfold attrs6. by rewrite assoc_get_merge_attrs, Hold. }
  assert (exists s, merged h5 kvs defaults "template_dir" old_td = VStr s
                    /\ abspath cwd s = td) as (s & Hms & Hstd).
  { unfold template_dir_of, merged in *. simpl in Htd.
    pose proof (repr_items_get _ _ _ _ "template_dir" Hitems) as Hget.
    destruct (assoc_get items2 "template_dir") as [x|].
    - destruct Hget as (v & Fx & -> & Hv & _). simpl.
      rewrite (repr_truthy_in _ _ _ _ Hv).
      destruct (truthy_tree x).
      + destruct x; try done. inversion Hv; subst. injection Htd as <-. eauto.
      + destruct (assoc_get defaults "template_dir") as [[| | |s0| |]|];
          try done. injection Htd as <-. eauto.
    - rewrite Hget. simpl.
      destruct (assoc_get defaults "template_dir") as [[| | |s0| |]|];
        try done. injection Htd as <-. eauto. }
  pose proof (OP_template_dir_run cwd self COPConfiguration attrs6 h6 _
                Hself6 Htd6) as Hrun_td.
  rewrite Hms, Hstd in Hrun_td.
  set (attrs7 := assoc_set attrs6 "template_dir" (VStr td)) in *.
  set (h7 := <[self := OInst COPConfiguration attrs7]> h6) in *.
  assert (Hother : forall l, l <> self -> h7 !! l = h5 !! l).
  { intros l Hl. unfold h7, h6. by rewrite !list_lookup_insert_ne. }
  exists h7, lc, kvs, ({[lc]} ∪ F0), attrs7. split_and!.
  - unfold OPConfiguration, bind at 1, alloc.
    unfold bind at 1. rewrite OPConfiguration_init_stages.
    unfold bind at 1. fold self. rewrite Hcopy.
    unfold bind at 1, attr_names, bind at 1, load. rewrite Hself5. cbn [ret].
    unfold bind at 1. rewrite Hloop. by rewrite Hrun_td.
  - intros l Hl. rewrite Hother by lia. by apply Hframe5.
  - unfold h7. apply list_lookup_insert_eq. unfold h6.
    by rewrite length_insert.
  - unfold attrs7. rewrite assoc_set_keys_present.
    + unfold attrs6. by rewrite merge_attrs_keys.
    + unfold attrs6. rewrite merge_attrs_keys, Hnames.
      apply (bool_decide_unpack _). vm_compute. exact I.
  - eapply repr_frame; [exact Hcp|]. intros l Hl. apply Hother.
    intros ->. assert (self < self); [by apply HF2|lia].
  - done.
  - by rewrite Hother.
  - unfold attrs7. apply assoc_get_set_eq.
  - intros key Hkey Hne.
    assert (exists old, assoc_get attrs key = Some old) as [old Hgetold].
    { destruct (assoc_get attrs key) eqn:Hg; [by eexists|].
      apply assoc_get_None_notin in Hg. by rewrite Hnames in Hg. }
    exists old. split.
    + destruct (Hph key old Hgetold) as [->|[->|(q & -> & Hq & Hhq)]];
        [by left|by right; left|].
      right; right. exists q. split_and!; [done..|].
      rewrite Hother; [done|]. intros ->. by rewrite Hself5 in Hhq.
    + unfold attrs7. rewrite assoc_get_set_ne by done.
      unfold attrs6. rewrite assoc_get_merge_attrs, Hgetold. simpl. f_equal.
      unfold merged. f_equal.
      destruct (default VNone (assoc_get kvs key)) as [| | | | |l] eqn:Hv;
        try done.
      simpl. rewrite Hother; [done|]. by apply (Hvals key l).
Qed.

(** ** The default-merge rule *)

Lemma map_entries_keys f kts kts' :
  map_entries f kts = Done kts' -> map fst kts' = map fst kts.
Proof.
  revert kts'. induction kts as [|[key v] kts IH]; intros kts' Hmap.
  - by injection Hmap as <-.
  - apply map_entries_cons_inv in Hmap as (v' & rest' & _ & Hmap & ->).
    simpl. by rewrite (IH _ Hmap).
Qed.

Lemma assoc_get_None_keys {A B} (kvs : list (string * A))
    (kvs' : list (string * B)) key :
  map fst kvs' = map fst kvs ->
  assoc_get kvs key = None -> assoc_get kvs' key = None.
Proof.
  intros Hkeys Hnone. apply assoc_get_None_notin. rewrite Hkeys.
  by apply assoc_get_None_notin.
Qed.

Lemma working_tree_missing base_path file_attributes domain port items t2 key :
  working_tree base_path file_attributes domain port (TDict items) = Done t2 ->
  tree_get (TDict items) key = None -> tree_get t2 key = None.
Proof.
  unfold working_tree, rbind. intros Hwork Hnone.
  destruct (base_tree _ _ _) as [t1| |] eqn:Hbase; [|done..].
  assert (tree_get t1 key = None) as Hnone1.
  { unfold base_tree in Hbase. destruct (_ && _).
    - simpl in Hbase. unfold rmap, rbind in Hbase.
      destruct (map_entries _ items) as [items1| |] eqn:Hmap; [|done..].
      injection Hbase as <-. simpl in *.
      eapply assoc_get_None_keys; [|done]. by eapply map_entries_keys.
    - by injection Hbase as <-. }
  destruct t1 as [| | | | |items1]; try done.
  simpl in Hwork. unfold rmap, rbind in Hwork.
  destruct (map_entries _ items1) as [items2| |] eqn:Hmap; [|done..].
  injection Hwork as <-. simpl in *.
  eapply assoc_get_None_keys; [|done]. by eapply map_entries_keys.
Qed.

Lemma merged_rule n h items2 kvs defaults attrs key old F :
  repr_items h kvs items2 F ->
  is_placeholder n h old ->
  assoc_get attrs key = Some (merged h kvs defaults key old) ->
  merge_rule n h (TDict items2) kvs defaults attrs key.
Proof.
  intros Hitems Hold Hattr. unfold merge_rule, falsy_at, merged in *.
  simpl. pose proof (repr_items_get _ _ _ _ key Hitems) as Hget.
  destruct (assoc_get items2 key) as [x|].
  - destruct Hget as (v & Fx & Hv & Hrep & _). rewrite Hv in Hattr.
    simpl in Hattr. rewrite (repr_truthy_in _ _ _ _ Hrep) in Hattr.
    destruct (truthy_tree x); simpl; split_and!; try done.
    + intros _. by exists v, x, Fx.
    + intros _ d Hd. by rewrite Hd in Hattr.
    + intros _ Hd. rewrite Hd in Hattr. by exists old.
  - rewrite Hget in Hattr. simpl in Hattr. split_and!; try done.
    + intros _ d Hd. by rewrite Hd in Hattr.
    + intros _ Hd. rewrite Hd in Hattr. by exists old.
Qed.

(** ** The provider-level builder: defaults *)

Lemma sample_defaults :
  exists defaults, defaults_of sample_heap = Some defaults /\
                   defaults_of module_heap = Some defaults.
Proof. eexists. split; reflexivity. Qed.





(** C2, as stated, fails for an explicitly supplied value that is
    falsy: for the raw configuration [{"httpc_params": {}}] the
    attribute [httpc_params] is the entry of the default table, not the
    supplied empty mapping. *)
Lemma OPConfiguration_overrides_empty_value :
  let h0 := module_heap ++ [ODict []; ODict [("httpc_params", VRef 30)]] in
  exists h',
    entry_of h0 (VRef 31) "httpc_params" = Some (VRef 30) /\
    OPConfiguration 5 "/srv/op" (VRef 31) "" None (VStr "") (VInt 0) None h0
    = Ok (VRef 32) h' /\
    entry_of h0 DEFAULT_CONFIG "httpc_params" = Some (VRef 18) /\
    attr_of h' 32 "httpc_params" = Some (VRef 18) /\
    h' !! 18 = Some (ODict [("verify", VBool false)]).
Proof.
  eexists. split; [reflexivity|]. split; [vm_compute; reflexivity|].
  split; [reflexivity|]. split; reflexivity.
Qed.

(** C2 (amended). An attribute of the schema other than [template_dir]
    whose value in the working tree (the copy of the raw tree,
    path-resolved and substituted) is truthy holds that value: the
    attribute is the very reference stored in the working copy, it
    denotes the working tree's value, and no default replaces it. *)
Theorem OPConfiguration_keeps_supplied fuel cwd conf base_path entity_conf
    domain port file_attributes items t2 defaults td h0 F :
  repr h0 conf (TDict items) F ->
  defaults_of h0 = Some defaults ->
  working_tree base_path file_attributes domain port (TDict items) = Done t2 ->
  is_scalar domain = true -> is_scalar port = true ->
  template_dir_of cwd t2 defaults = Some td ->
  height (TDict items) < fuel ->
  exists h' lc kvs F2 attrs,
    OPConfiguration fuel cwd conf base_path entity_conf domain port
      file_attributes h0 = Ok (VRef (length h0)) h' /\
    h' !! length h0 = Some (OInst COPConfiguration attrs) /\
    repr h' (VRef lc) t2 F2 /\
    h' !! lc = Some (ODict kvs) /\
    forall key x, key ∈ OP_SCHEMA -> key <> "template_dir" ->
      tree_get t2 key = Some x -> truthy_tree x = true ->
      exists v Fx,
        assoc_get kvs key = Some v /\
        repr h' v x Fx /\
        assoc_get attrs key = Some v.
Proof.
  intros Hrep Hdef Hwork Hd Hp Htd Hfuel.
  destruct (OPConfiguration_on_tree fuel cwd conf base_path entity_conf domain
              port file_attributes items t2 defaults td h0 F
              Hrep Hdef Hwork Hd Hp Htd Hfuel)
    as (h' & lc & kvs & F2 & attrs & Hrun & Hframe & Hself & Hnames & Hcp
        & HF2 & Hlc & Htdattr & Hattrs).
  destruct (working_tree_dict _ _ _ _ _ _ Hwork) as [items2 ->].
  assert (exists F0, repr_items h' kvs items2 F0) as [F0 Hitems].
  { inversion Hcp; subst. rewrite Hlc in *. simplify_eq. eauto. }
  exists h', lc, kvs, F2, attrs. split_and!; try done.
  intros key x Hkey Hne Hget Htruthy.
  destruct (Hattrs key Hkey Hne) as (old & Hold & Hattr).
  destruct (merged_rule _ _ _ _ _ _ _ _ _ Hitems Hold Hattr)
    as (_ & _ & Hkeep).
  destruct Hkeep as (v & x' & Fx & Hx' & Hv & Hrv & Hav).
  { unfold falsy_at. rewrite Hget. by rewrite Htruthy. }
  rewrite Hget in Hx'. injection Hx' as <-. eauto.
Qed.

Lemma OPConfiguration_keeps_supplied_witness :
  exists t2 h' lc kvs F2 attrs,
    working_tree "/etc/idp" None (VStr "") (VInt 0) sample_conf = Done t2 /\
    OPConfiguration 4 "/srv/op" sample_ref "/etc/idp" None (VStr "") (VInt 0)
      None sample_heap = Ok (VRef (length sample_heap)) h' /\
    h' !! length sample_heap = Some (OInst COPConfiguration attrs) /\
    repr h' (VRef lc) t2 F2 /\
    h' !! lc = Some (ODict kvs) /\
    forall key x, key ∈ OP_SCHEMA -> key <> "template_dir" ->
      tree_get t2 key = Some x -> truthy_tree x = true ->
      exists v Fx,
        assoc_get kvs key = Some v /\
        repr h' v x Fx /\
        assoc_get attrs key = Some v.
Proof.
  destruct sample_objects as [F HF].
  destruct sample_defaults as (defaults & Hdef & Hdef0).
  assert (Hdef' := Hdef). vm_compute in Hdef'. injection Hdef' as <-.
  assert (exists t2, working_tree "/etc/idp" None (VStr "") (VInt 0) sample_conf
                     = Done t2) as [t2 Hwork].
  { eexists. vm_compute. reflexivity. }
  assert (Hwork' := Hwork). vm_compute in Hwork'. injection Hwork' as <-.
  destruct (OPConfiguration_keeps_supplied 4 "/srv/op" sample_ref "/etc/idp"
              None (VStr "") (VInt 0) None _ _ _ "/srv/op/templates"
              sample_heap F HF Hdef Hwork eq_refl eq_refl)
    as (h' & lc & kvs & F2 & attrs & H); [reflexivity|vm_compute; lia|].
  eexists _, h', lc, kvs, F2, attrs.
  split; [exact Hwork|]. exact H.
Defined.


(** ** The provider-level builder: shared defaults *)

Lemma map_entries_get f kts kts' key x :
  map_entries f kts = Done kts' ->
  assoc_get kts key = Some x ->
  exists x', f key x = Done x' /\ assoc_get kts' key = Some x'.
Proof.
  revert kts'. induction kts as [|[k v] kts IH]; intros kts' Hmap Hget; [done|].
  apply map_entries_cons_inv in Hmap as (v' & rest' & Hf & Hmap & ->).
  simpl in *. destruct (String.eqb k key) eqn:Hk.
  - apply String.eqb_eq in Hk as ->. injection Hget as ->. eauto.
  - eauto.
Qed.

Lemma add_base_path_value_falsy base_path names key x x' :
  add_base_path_value (add_base_path_tree base_path names) base_path names
    key x = Done x' ->
  key ∉ names -> truthy_tree x = false -> truthy_tree x' = false.
Proof.
  unfold add_base_path_value. intros Hf Hkey Hx.
  rewrite bool_decide_eq_false_2 in Hf by done.
  by destruct x as [| | | | |[|]]; try (by injection Hf as <-).
Qed.

Lemma set_domain_and_port_value_falsy uris domain port key x x' :
  set_domain_and_port_value (set_domain_and_port_tree uris domain port)
    uris domain port key x = Done x' ->
  truthy_tree x = false -> truthy_tree x' = false.
Proof.
  unfold set_domain_and_port_value. intros Hf Hx.
  destruct (bool_decide (key ∈ uris)).
  - destruct x as [| | |s|[|]|]; try done.
    + simpl in Hx. apply negb_false_iff, String.eqb_eq in Hx as ->.
      simpl in Hf. by injection Hf as <-.
    + simpl in Hf. by injection Hf as <-.
  - by destruct x as [| | | | |[|]]; try (by injection Hf as <-).
Qed.

(** An entry that is falsy in the raw tree, under a name that is not a
    file attribute, is falsy in the working tree. *)
Lemma working_tree_falsy base_path file_attributes domain port items t2 key :
  working_tree base_path file_attributes domain port (TDict items) = Done t2 ->
  key ∉ default DEFAULT_FILE_ATTRIBUTE_NAMES file_attributes ->
  falsy_at (TDict items) key = true -> falsy_at t2 key = true.
Proof.
  intros Hwork Hkey Hfalsy. unfold falsy_at in *.
  destruct (tree_get (TDict items) key) as [x|] eqn:Hget;
    [|by rewrite (working_tree_missing _ _ _ _ _ _ _ Hwork Hget)].
  apply negb_true_iff in Hfalsy.
  unfold working_tree, rbind in Hwork.
  destruct (base_tree _ _ _) as [t1| |] eqn:Hbase; [|done..].
  assert (exists x1, tree_get t1 key = Some x1 /\ truthy_tree x1 = false)
    as (x1 & Hget1 & Hx1).
  { unfold base_tree in Hbase. destruct (_ && _).
    - simpl in Hbase. unfold rmap, rbind in Hbase.
      destruct (map_entries _ items) as [items1| |] eqn:Hmap; [|done..].
      injection Hbase as <-. simpl in *.
      destruct (map_entries_get _ _ _ _ _ Hmap Hget) as (x1 & Hf & Hget1).
      exists x1. split; [done|]. by eapply add_base_path_value_falsy.
    - injection Hbase as <-. eauto. }
  destruct t1 as [| | | | |items1]; try done.
  simpl in Hwork. unfold rmap, rbind in Hwork.
  destruct (map_entries _ items1) as [items2| |] eqn:Hmap; [|done..].
  injection Hwork as <-. simpl in *.
  destruct (map_entries_get _ _ _ _ _ Hmap Hget1) as (x2 & Hf & ->).
  apply negb_true_iff. by eapply set_domain_and_port_value_falsy.
Qed.

(** C10, as stated, fails for [template_dir]: for the raw configuration
    [{}] the attribute is filled from the default table, but the built
    object stores the absolute path ["/srv/op/templates"], a new
    string, not the entry ["templates"] of the default table. *)
Lemma OPConfiguration_template_dir_not_shared :
  let h0 := module_heap ++ [ODict []] in
  exists h',
    entry_of h0 (VRef 30) "template_dir" = None /\
    OPConfiguration 5 "/srv/op" (VRef 30) "/etc/idp" None (VStr "") (VInt 0)
      None h0 = Ok (VRef 31) h' /\
    entry_of h' DEFAULT_CONFIG "template_dir" = Some (VStr "templates") /\
    attr_of h' 31 "template_dir" = Some (VStr "/srv/op/templates").
Proof.
  eexists. split; [reflexivity|]. split; [vm_compute; reflexivity|].
  split; reflexivity.
Qed.

(** C10 (amended). Attributes filled from the default table are not
    copied, [template_dir] apart: when a schema attribute other than
    [template_dir], under a name that is not a file attribute, is falsy
    in the raw tree and the default table has an entry for it, the
    built object stores that entry itself.  Two objects built one after
    the other from raw trees that both leave the attribute falsy hold
    the same reference as the default table, and an update of the
    object it refers to is seen through both objects and through the
    default table. *)
Theorem OPConfiguration_shares_defaults fuel cwd conf1 conf2 base_path
    entity_conf domain port file_attributes items1 items2 w1 w2 defaults
    td1 td2 h0 F1 F2 key d :
  repr h0 conf1 (TDict items1) F1 ->
  repr h0 conf2 (TDict items2) F2 ->
  defaults_of h0 = Some defaults ->
  working_tree base_path file_attributes domain port (TDict items1) = Done w1 ->
  working_tree base_path file_attributes domain port (TDict items2) = Done w2 ->
  is_scalar domain = true -> is_scalar port = true ->
  template_dir_of cwd w1 defaults = Some td1 ->
  template_dir_of cwd w2 defaults = Some td2 ->
  height (TDict items1) < fuel -> height (TDict items2) < fuel ->
  key ∈ OP_SCHEMA -> key <> "template_dir" ->
  key ∉ default DEFAULT_FILE_ATTRIBUTE_NAMES file_attributes ->
  falsy_at (TDict items1) key = true ->
  falsy_at (TDict items2) key = true ->
  assoc_get defaults key = Some d ->
  exists h1 h2,
    OPConfiguration fuel cwd conf1 base_path entity_conf domain port
      file_attributes h0 = Ok (VRef (length h0)) h1 /\
    OPConfiguration fuel cwd conf2 base_path entity_conf domain port
      file_attributes h1 = Ok (VRef (length h1)) h2 /\
    length h0 < length h1 /\
    attr_of h2 (length h0) key = Some d /\
    attr_of h2 (length h1) key = Some d /\
    entry_of h2 DEFAULT_CONFIG key = Some d /\
    forall l o, d = VRef l -> VRef l <> DEFAULT_CONFIG -> is_Some (h0 !! l) ->
      let h3 := <[l := o]> h2 in
      attr_of h3 (length h0) key = Some (VRef l) /\
      attr_of h3 (length h1) key = Some (VRef l) /\
      entry_of h3 DEFAULT_CONFIG key = Some (VRef l) /\
      h3 !! l = Some o.
Proof.
  intros Hrep1 Hrep2 Hdef Hw1 Hw2 Hd Hp Htd1 Htd2 Hfuel1 Hfuel2 Hkey Hne Hfa
    Hfalsy1 Hfalsy2 Hdflt.
  destruct (OPConfiguration_on_tree fuel cwd conf1 base_path entity_conf domain
              port file_attributes items1 w1 defaults td1 h0 F1
              Hrep1 Hdef Hw1 Hd Hp Htd1 Hfuel1)
    as (h1 & lc1 & kvs1 & G1 & attrs1 & Hrun1 & Hframe1 & Hself1 & _ & Hcp1
        & _ & Hlc1 & _ & Hattrs1).
  assert (Hlen1 : length h0 < length h1) by (by eapply lookup_lt_Some).
  assert (exists dl, DEFAULT_CONFIG = VRef dl /\
                           h0 !! dl = Some (ODict defaults)) as (dl & HD & Hdl0).
  { unfold defaults_of in Hdef. destruct DEFAULT_CONFIG as [| | | | |dl]; try done.
    exists dl. split; [done|]. destruct (h0 !! dl) as [[| |]|]; naive_solver. }
  assert (Hdl_lt : dl < length h0) by (by eapply lookup_lt_Some).
  assert (Hdef1 : defaults_of h1 = Some defaults).
  { unfold defaults_of. rewrite HD, Hframe1 by done. by rewrite Hdl0. }
  assert (Hrep2' : repr h1 conf2 (TDict items2) F2).
  { eapply repr_frame; [done|]. intros l Hl. apply Hframe1.
    by eapply repr_valid. }
  destruct (OPConfiguration_on_tree fuel cwd conf2 base_path entity_conf domain
              port file_attributes items2 w2 defaults td2 h1 F2
              Hrep2' Hdef1 Hw2 Hd Hp Htd2 Hfuel2)
    as (h2 & lc2 & kvs2 & G2 & attrs2 & Hrun2 & Hframe2 & Hself2 & _ & Hcp2
        & _ & Hlc2 & _ & Hattrs2).
  assert (Hlen2 : length h1 < length h2) by (by eapply lookup_lt_Some).
  pose proof (working_tree_falsy _ _ _ _ _ _ _ Hw1 Hfa Hfalsy1) as Hf1.
  pose proof (working_tree_falsy _ _ _ _ _ _ _ Hw2 Hfa Hfalsy2) as Hf2.
  destruct (working_tree_dict _ _ _ _ _ _ Hw1) as [its1 ->].
  destruct (working_tree_dict _ _ _ _ _ _ Hw2) as [its2 ->].
  assert (Ha1 : assoc_get attrs1 key = Some d).
  { destruct (Hattrs1 key Hkey Hne) as (old & Hold & Hattr).
    assert (exists F0, repr_items h1 kvs1 its1 F0) as [F0 Hitems].
    { inversion Hcp1; subst. rewrite Hlc1 in *. simplify_eq. eauto. }
    destruct (merged_rule _ _ _ _ _ _ _ _ _ Hitems Hold Hattr) as (Hr & _).
    by apply Hr. }
  assert (Ha2 : assoc_get attrs2 key = Some d).
  { destruct (Hattrs2 key Hkey Hne) as (old & Hold & Hattr).
    assert (exists F0, repr_items h2 kvs2 its2 F0) as [F0 Hitems].
    { inversion Hcp2; subst. rewrite Hlc2 in *. simplify_eq. eauto. }
    destruct (merged_rule _ _ _ _ _ _ _ _ _ Hitems Hold Hattr) as (Hr & _).
    by apply Hr. }
  assert (Hs1 : h2 !! length h0 = Some (OInst COPConfiguration attrs1))
    by (by rewrite Hframe2).
  assert (Hd2 : h2 !! dl = Some (ODict defaults)).
  { rewrite Hframe2 by lia. by rewrite Hframe1. }
  exists h1, h2. split_and!; try done.
  - unfold attr_of. by rewrite Hs1.
  - unfold attr_of. by rewrite Hself2.
  - rewrite HD. simpl. by rewrite Hd2.
  - intros l o -> Hnd Hl. apply lookup_lt_is_Some in Hl.
    assert (l <> dl) by (intros ->; by rewrite HD in Hnd).
    cbv zeta. unfold attr_of, entry_of. rewrite HD.
    rewrite !list_lookup_insert_ne by lia.
    rewrite Hs1, Hself2, Hd2.
    split_and!; try done.
    apply list_lookup_insert_eq. lia.
Qed.

Lemma OPConfiguration_shares_defaults_witness :
  exists h1 h2,
    OPConfiguration 4 "/srv/op" sample_ref "/etc/idp" None (VStr "") (VInt 0)
      None sample_heap = Ok (VRef (length sample_heap)) h1 /\
    OPConfiguration 4 "/srv/op" sample_ref "/etc/idp" None (VStr "") (VInt 0)
      None h1 = Ok (VRef (length h1)) h2 /\
    length sample_heap < length h1 /\
    attr_of h2 (length sample_heap) "authz" = Some (VRef 17) /\
    attr_of h2 (length h1) "authz" = Some (VRef 17) /\
    entry_of h2 DEFAULT_CONFIG "authz" = Some (VRef 17) /\
    forall l o, VRef 17 = VRef l -> VRef l <> DEFAULT_CONFIG ->
      is_Some (sample_heap !! l) ->
      let h3 := <[l := o]> h2 in
      attr_of h3 (length sample_heap) "authz" = Some (VRef l) /\
      attr_of h3 (length h1) "authz" = Some (VRef l) /\
      entry_of h3 DEFAULT_CONFIG "authz" = Some (VRef l) /\
      h3 !! l = Some o.
Proof.
  destruct sample_objects as [F HF].
  destruct sample_defaults as (defaults & Hdef & Hdef0).
  assert (Hdef' := Hdef). vm_compute in Hdef'. injection Hdef' as <-.
  assert (exists t2, working_tree "/etc/idp" None (VStr "") (VInt 0) sample_conf
                     = Done t2) as [t2 Hwork].
  { eexists. vm_compute. reflexivity. }
  assert (Hwork' := Hwork). vm_compute in Hwork'. injection Hwork' as <-.
  apply (OPConfiguration_shares_defaults 4 "/srv/op" sample_ref sample_ref
           "/etc/idp" None (VStr "") (VInt 0) None _ _ _ _ _
           "/srv/op/templates" "/srv/op/templates" sample_heap F F "authz"
           (VRef 17) HF HF Hdef Hwork Hwork eq_refl eq_refl).
  - reflexivity.
  - reflexivity.
  - vm_compute; lia.
  - vm_compute; lia.
  - apply (bool_decide_unpack _). vm_compute. exact I.
  - discriminate.
  - apply (bool_decide_unpack _). vm_compute. exact I.
  - reflexivity.
  - reflexivity.
  - reflexivity.
Defined.


(** ** The server-level builder on a tree *)

Lemma assoc_get_Forall2_eq {A} (P : string -> A -> A -> Prop)
    (kvs kvs' : list (string * A)) key :
  Forall2 (fun kv kv' => fst kv' = fst kv /\ P (fst kv) (snd kv) (snd kv'))
    kvs kvs' ->
  (forall v x, P key v x -> x = v) ->
  assoc_get kvs' key = assoc_get kvs key.
Proof.
  intros HF HP.
  induction HF as [|[k v] [k' x] kvs kvs' [Hk Hv] _ IH]; [done|].
  simpl in *. subst k'. destruct (String.eqb k key) eqn:E; [|done].
  apply String.eqb_eq in E as ->. f_equal. by apply HP.
Qed.

Lemma returns_logger (configured : bool) log_conf h (Q : val -> heap -> Prop) :
  (forall b, Q (VLogger b) h) ->
  returns (if configured then configure_logging log_conf
           else ret (VLogger false)) h Q.
Proof. intros HQ. destruct configured; apply HQ. Qed.

(** [Configuration.__init__] up to the template substitution works on
    the caller's own objects: afterwards the caller's reference denotes
    the working tree, and the attribute [webserver] is the value the
    caller's mapping holds under that key. *)
Lemma Configuration_prepare_spec fuel c conf base_path domain port
    file_attributes items t2 h0 F :
  repr h0 conf (TDict items) F ->
  working_tree base_path file_attributes domain port (TDict items) = Done t2 ->
  is_scalar domain = true -> is_scalar port = true ->
  height (TDict items) ≤ fuel ->
  returns
    (Configuration_prepare fuel (length h0) conf base_path file_attributes
       domain port)
    (h0 ++ [OInst c []])
    (fun _ h' =>
       exists F2 attrs lc kvs Fi,
         repr h' conf t2 F2 /\
         (forall l, l ∈ F2 -> l ∈ F \/ length h0 < l) /\
         length h0 < length h' /\
         (forall l, l < length h0 -> l ∉ F -> h' !! l = h0 !! l) /\
         h' !! length h0 = Some (OInst c attrs) /\
         conf = VRef lc /\ h' !! lc = Some (ODict kvs) /\
         (exists items2, t2 = TDict items2 /\ repr_items h' kvs items2 Fi) /\
         lc ∉ Fi /\ F2 = {[lc]} ∪ Fi /\
         forall w, assoc_get kvs "webserver" = Some w ->
                   assoc_get attrs "webserver" = Some w).
Proof.
  intros Hrep Hwork Hd Hp Hfuel.
  unfold working_tree, rbind in Hwork.
  destruct (base_tree base_path file_attributes (TDict items))
    as [t1| |] eqn:Hbase; [|done..].
  destruct (base_tree_dict _ _ _ _ Hbase) as [[items1 ->] Hh1].
  set (self := length h0). set (h1 := h0 ++ [OInst c []]).
  assert (Hself1 : h1 !! self = Some (OInst c [])) by (by apply list_lookup_middle).
  assert (Hlen1 : length h1 = S self) by (unfold h1; rewrite length_app; simpl; lia).
  assert (HF : forall l, l ∈ F -> l < self) by (intros l Hl; by eapply repr_valid).
  assert (Hrep1 : repr h1 conf (TDict items) F).
  { eapply repr_frame; [done|]. intros l Hl. apply lookup_app_l. by apply HF. }
  unfold Configuration_prepare. apply returns_bind.
  eapply returns_mono;
    [eapply (Base_init_refines base_path file_attributes _ _ h1 conf F fuel);
       [done|done|lia]|].
  intros _ h2 (F1 & Hrep2 & Hlen2 & Hframe2 & Hsub2).
  assert (HF1 : forall l, l ∈ F1 -> l <> self).
  { intros l [Hl|Hl]%Hsub2; [apply HF in Hl|]; lia. }
  assert (Hself2 : h2 !! self = Some (OInst c [])).
  { rewrite Hframe2; [done|lia|]. intros Hin%HF. lia. }
  assert (Hvalid2 : forall l, l ∈ F1 -> l < length h2)
    by (intros l Hl; by eapply repr_valid).
  inversion Hrep2 as [| | | | |lc kvs1 kts Fi1 Hlc2 Hnd Hitems2 Hlc_notin];
    subst.
  assert (Hlc_self : lc <> self) by (apply HF1; set_solver).
  apply returns_bind. eapply returns_dict_get; [done|].
  apply returns_bind. apply returns_truthy.
  { intros l Hl. destruct (assoc_get kvs1 "logging") as [v|] eqn:Hlog; [|done].
    subst v. by eapply (proj2 (repr_items_value_ref _ _ _ _ _ _ Hitems2 Hlog)). }
  apply returns_bind. apply returns_logger. intros lg.
  apply returns_bind. eapply returns_setattr; [exact Hself2|plain_name|].
  set (h3 := <[self := OInst c (assoc_set [] "logger" (VLogger lg))]> h2).
  assert (Hlen3 : length h3 = length h2) by (unfold h3; by rewrite length_insert).
  apply returns_bind. eapply returns_dict_entries;
    [unfold h3; by rewrite list_lookup_insert_ne|].
  apply returns_bind. unfold new_dict. apply returns_bind.
  apply returns_alloc. apply returns_ret.
  apply returns_bind. eapply returns_setattr; [|plain_name|].
  { rewrite lookup_app_l by lia. unfold h3. apply list_lookup_insert_eq. lia. }
  set (web := match assoc_get kvs1 "webserver" with
              | Some v => v | None => VRef (length h3) end).
  set (attrs := assoc_set (assoc_set [] "logger" (VLogger lg)) "webserver" web).
  set (h5 := <[self := OInst c attrs]> (h3 ++ [ODict []])).
  assert (Hlen5 : length h5 = S (length h2)).
  { unfold h5. rewrite length_insert, length_app. simpl. lia. }
  assert (Hold5 : forall l, l < length h2 -> l <> self -> h5 !! l = h2 !! l).
  { intros l Hl Hne. unfold h5. rewrite list_lookup_insert_ne by done.
    rewrite lookup_app_l by lia. unfold h3. by rewrite list_lookup_insert_ne. }
  assert (Hself5 : h5 !! self = Some (OInst c attrs)).
  { unfold h5. apply list_lookup_insert_eq. rewrite length_app. simpl. lia. }
  assert (Hrep5 : repr h5 (VRef lc) (TDict items1) ({[lc]} ∪ Fi1)).
  { eapply repr_frame; [exact Hrep2|]. intros l Hl.
    apply Hold5; [by apply Hvalid2|by apply HF1]. }
  apply returns_bind.
  eapply (resolve_refines domain (VRef lc) "domain" (VStr "127.0.0.1")
            (TStr "127.0.0.1") items1 h5 _); [done..|].
  intros d Hfd. apply returns_bind.
  eapply (resolve_refines port (VRef lc) "port" (VInt 80) (TInt 80) items1 h5 _);
    [done..|].
  intros p Hfp. apply returns_bind.
  rewrite <- Hfd, <- Hfp in Hwork.
  destruct (set_domain_and_port_tree_dict _ _ _ _ _ Hwork) as [items2 ->].
  eapply returns_mono;
    [eapply (set_domain_and_port_entries URIS d p items1 items2 fuel h5 lc);
       [done|done|lia]|].
  intros r h6 (-> & (kvs & kvs' & Hk5 & Hk6 & Hall)
               & F2 & Hrep6 & Hlen6 & Hframe6 & Hsub6).
  apply returns_ret.
  assert (kvs = kvs1) as ->.
  { rewrite Hold5 in Hk5; [|by eapply lookup_lt_Some|done]. congruence. }
  inversion Hrep6 as [| | | | |lc' kvs6 kts6 Fi6 Hlc6 Hnd6 Hitems6 Hlc_notin6];
    subst.
  assert (kvs6 = kvs') as -> by congruence.
  exists ({[lc]} ∪ Fi6), attrs, lc, kvs', Fi6. split_and!; try done.
  - intros l [Hl|Hl]%Hsub6.
    + apply Hsub2 in Hl as [Hl|Hl]; [by left|right; lia].
    + right. lia.
  - lia.
  - intros l Hl HlF.
    assert (l ∉ {[lc]} ∪ Fi1).
    { intros [Hin|Hin]%Hsub2; [done|lia]. }
    rewrite Hframe6; [|lia|done]. rewrite Hold5; [|lia|lia].
    rewrite Hframe2; [|lia|done]. by apply lookup_app_l.
  - rewrite Hframe6; [done|lia|]. intros Hin. by apply HF1 in Hin.
  - eauto.
  - intros w Hw.
    rewrite (assoc_get_Forall2_eq _ _ _ "webserver" Hall) in Hw.
    + unfold attrs, web. rewrite Hw. reflexivity.
    + intros v x [Hkeep _]. apply Hkeep. by apply (bool_decide_unpack _).
Qed.

(** A server-level object built without entity descriptors. *)
Lemma Configuration_on_tree fuel cwd conf entity_conf base_path domain port
    file_attributes items t2 h0 F :
  repr h0 conf (TDict items) F ->
  working_tree base_path file_attributes domain port (TDict items) = Done t2 ->
  is_scalar domain = true -> is_scalar port = true ->
  height (TDict items) < fuel ->
  default [] entity_conf = [] ->
  exists h' F2 attrs lc kvs Fi,
    Configuration fuel cwd conf entity_conf base_path file_attributes
      domain port h0 = Ok (VRef (length h0)) h' /\
    repr h' conf t2 F2 /\
    (forall l, l ∈ F2 -> l ∈ F \/ length h0 < l) /\
    length h0 < length h' /\
    (forall l, l < length h0 -> l ∉ F -> h' !! l = h0 !! l) /\
    h' !! length h0 = Some (OInst CConfiguration attrs) /\
    conf = VRef lc /\ h' !! lc = Some (ODict kvs) /\
    (exists items2, t2 = TDict items2 /\ repr_items h' kvs items2 Fi) /\
    lc ∉ Fi /\ F2 = {[lc]} ∪ Fi /\
    forall w, assoc_get kvs "webserver" = Some w ->
              assoc_get attrs "webserver" = Some w.
Proof.
  intros Hrep Hwork Hd Hp Hfuel Hnone.
  destruct fuel as [|fuel]; [lia|].
  pose proof (Configuration_prepare_spec fuel CConfiguration conf base_path
                domain port file_attributes items t2 h0 F Hrep Hwork Hd Hp
                ltac:(lia)) as Hprep.
  unfold returns in Hprep.
  destruct (Configuration_prepare fuel (length h0) conf base_path
              file_attributes domain port (h0 ++ [OInst CConfiguration []]))
    as [dp h'| | |] eqn:Hrun; try done.
  destruct Hprep as (F2 & attrs & lc & kvs & Fi & H).
  exists h', F2, attrs, lc, kvs, Fi. split; [|exact H].
  unfold Configuration, bind, alloc.
  rewrite Configuration_init_stages. unfold bind. rewrite Hrun.
  by destruct entity_conf as [[|]|].
Qed.


(** ** Copy asymmetry of the two builders *)




(** ** Path resolution applied twice *)

Lemma startswith_append a b :
  startswith a "/" = true -> startswith (a +:+ b) "/" = true.
Proof.
  destruct a as [|c a]; [done|].
  change (String c a +:+ b) with (String c (a +:+ b)).
  unfold startswith. cbn [String.prefix].
  destruct (ascii_dec "/" c); [intros _; by destruct (a +:+ b)|done].
Qed.

Lemma path_join_absolute a b :
  startswith a "/" = true -> startswith (path_join a b) "/" = true.
Proof.
  intros Ha. unfold path_join. destruct (startswith b "/") eqn:Hb; [done|].
  destruct (_ || _); by apply startswith_append.
Qed.

Lemma rewrite_path_twice base_path s :
  startswith base_path "/" = true -> s <> "" ->
  rewrite_path base_path (rewrite_path base_path s) = rewrite_path base_path s.
Proof.
  intros Hbase Hs. destruct (startswith s "/") eqn:Habs.
  - rewrite (rewrite_path_absolute _ s) by done.
    by apply rewrite_path_absolute.
  - rewrite (rewrite_path_relative _ s) by done.
    apply rewrite_path_absolute. by apply path_join_absolute.
Qed.

Lemma paths_given_typed file_attributes t :
  paths_given file_attributes t = true -> paths_typed file_attributes t = true.
Proof.
  induction t as [| | | | |items IH] using tree_ind; intros Hg; try done.
  simpl in *. induction IH as [|[key v] items Hv _ IHitems]; [done|].
  simpl in *. apply andb_true_iff in Hg as [Hkv Hrest].
  apply andb_true_iff. split; [|by apply IHitems].
  case_bool_decide.
  - by destruct v.
  - destruct v; try done. by apply Hv.
Qed.

Lemma add_base_path_tree_twice base_path file_attributes t t' :
  startswith base_path "/" = true ->
  paths_given file_attributes t = true ->
  add_base_path_tree base_path file_attributes t = Done t' ->
  add_base_path_tree base_path file_attributes t' = Done t'.
Proof.
  intros Hbase. revert t'.
  induction t as [| | | | |items IH] using tree_ind; intros t' Hg Hf; try done.
  simpl in Hf. unfold rmap, rbind in Hf.
  destruct (map_entries _ items) as [items'| |] eqn:Hmap; [|done..].
  injection Hf as <-. simpl. unfold rmap, rbind.
  enough (map_entries
            (add_base_path_value (add_base_path_tree base_path file_attributes)
               base_path file_attributes) items' = Done items') as -> by done.
  simpl in Hg. revert items' Hmap.
  induction IH as [|[key v] items Hv _ IHitems]; intros items' Hmap.
  - by injection Hmap as <-.
  - apply map_entries_cons_inv in Hmap as (v' & rest' & Hf & Hmap & ->).
    simpl in Hg. apply andb_true_iff in Hg as [Hkv Hrest].
    specialize (IHitems Hrest _ Hmap). simpl in Hv, Hkv.
    simpl. rewrite IHitems.
    unfold add_base_path_value in *. case_bool_decide.
    + destruct v as [| | |s| |]; try done. injection Hf as <-.
      rewrite rewrite_path_twice; [done|done|].
      intros ->. by simpl in Hkv.
    + destruct v as [| | | | |sub]; try (by injection Hf as <-).
      pose proof (Hv _ Hkv Hf) as Hagain.
      destruct (add_base_path_tree_dict _ _ _ _ Hf) as [sub' ->].
      by rewrite Hagain.
Qed.

(** X1. With an absolute base path, path resolution is idempotent on a
    configuration whose file attributes are non-empty strings: the
    first call of [add_base_path] returns, and a second call with the
    same arguments returns as well and leaves the tree the first call
    produced.  (An empty file attribute is excluded: it becomes ["./"],
    which a second call joins to the base path.) *)
Theorem add_base_path_idempotent base_path file_attributes t h v F fuel :
  repr h v t F ->
  paths_given file_attributes t = true ->
  startswith base_path "/" = true ->
  height t ≤ fuel ->
  exists t' h1 F1 h2 F2,
    add_base_path fuel v base_path file_attributes h = Ok v h1 /\
    repr h1 v t' F1 /\
    add_base_path fuel v base_path file_attributes h1 = Ok v h2 /\
    repr h2 v t' F2 /\
    in_place h F h2 F2.
Proof.
  intros Hrep Hg Hbase Hfuel.
  destruct (paths_typed_Done base_path _ _ (paths_given_typed _ _ Hg))
    as [t' Hf].
  pose proof (add_base_path_refines base_path file_attributes t fuel Hfuel
                h v F t' Hrep Hf) as Hrun.
  apply returns_inv in Hrun as (r & h1 & Hrun & -> & F1 & Hrep1 & Hin1).
  pose proof (add_base_path_tree_twice _ _ _ _ Hbase Hg Hf) as Hf2.
  pose proof (add_base_path_tree_height _ _ _ _ Hf) as Hh.
  pose proof (add_base_path_refines base_path file_attributes t' fuel
                ltac:(lia) h1 v F1 t' Hrep1 Hf2) as Hrun2.
  apply returns_inv in Hrun2 as (r & h2 & Hrun2 & -> & F2 & Hrep2 & Hin2).
  exists t', h1, F1, h2, F2. split_and!; try done.
  by eapply in_place_trans.
Qed.

Lemma add_base_path_idempotent_witness :
  let t := TDict [("keys", TDict [("private_path", TStr "jwks.json");
                                   ("public_path", TStr "/srv/jwks.json")]);
                  ("issuer", TStr "https://{domain}")] in
  let h := [ODict [("private_path", VStr "jwks.json");
                   ("public_path", VStr "/srv/jwks.json")];
            ODict [("keys", VRef 0); ("issuer", VStr "https://{domain}")]] in
  exists F t' h1 F1 h2 F2,
    repr h (VRef 1) t F /\
    add_base_path 2 (VRef 1) "/etc/idp" DEFAULT_FILE_ATTRIBUTE_NAMES h
      = Ok (VRef 1) h1 /\
    repr h1 (VRef 1) t' F1 /\
    add_base_path 2 (VRef 1) "/etc/idp" DEFAULT_FILE_ATTRIBUTE_NAMES h1
      = Ok (VRef 1) h2 /\
    repr h2 (VRef 1) t' F2 /\
    in_place h F h2 F2.
Proof.
  intros t h.
  assert (exists F, repr h (VRef 1) t F) as [F HF].
  { eexists. unfold h, t. repr_solve. }
  destruct (add_base_path_idempotent "/etc/idp" DEFAULT_FILE_ATTRIBUTE_NAMES
              t h (VRef 1) F 2 HF eq_refl eq_refl)
    as (t' & h1 & F1 & h2 & F2 & H); [vm_compute; lia|].
  exists F, t', h1, F1, h2, F2. split; [exact HF|exact H].
Defined.

(** ** The accessors of [class Base] *)

Lemma assoc_get_NoDup_in {A} (kvs : list (string * A)) key v :
  NoDup (map fst kvs) -> (key, v) ∈ kvs -> assoc_get kvs key = Some v.
Proof.
  induction kvs as [|[k x] kvs IH]; intros Hnd Hin; [by apply elem_of_nil in Hin|].
  simpl in *. apply NoDup_cons in Hnd as [Hk Hnd].
  apply elem_of_cons in Hin as [[= -> ->]|Hin].
  - by rewrite String.eqb_refl.
  - destruct (String.eqb_spec k key) as [->|Hne]; [|by apply IH].
    destruct Hk. apply list_elem_of_fmap. by exists (key, v).
Qed.

Lemma yield_items_run self c attrs kvs h :
  h !! self = Some (OInst c attrs) ->
  (forall key v, (key, v) ∈ kvs -> assoc_get attrs key = Some v) ->
  yield_items self (map fst kvs) h
  = Ok (List.filter (fun kv => negb (is_dunder (fst kv))) kvs) h.
Proof.
  intros Hself. induction kvs as [|[k x] kvs IH]; intros Hget; [done|].
  assert (IH' := IH (fun key v Hin => Hget key v (list_elem_of_further _ _ _ Hin))).
  cbn [map fst yield_items List.filter].
  destruct (is_dunder k); cbn [negb]; [exact IH'|].
  unfold bind at 1. unfold getattr, bind, load. rewrite Hself.
  rewrite (Hget k x) by left. unfold ret at 1.
  by rewrite IH'.
Qed.

Lemma Base_items_run self c attrs h :
  h !! self = Some (OInst c attrs) ->
  NoDup (map fst attrs) ->
  Base_items self h
  = Ok (List.filter (fun kv => negb (is_dunder (fst kv))) attrs) h.
Proof.
  intros Hself Hnd.
  unfold Base_items, bind, attr_names, bind, load. rewrite Hself. simpl.
  apply (yield_items_run self c attrs attrs h Hself).
  intros key v Hin. by apply assoc_get_NoDup_in.
Qed.

(** X2. [Base.items] yields the attributes of the instance in the order of
    their creation, those with a name of the form [__x__] left out, and
    each pair it yields is the pair of a name and the value that
    [Base.__getitem__] returns for that name. *)
Theorem Base_items_attributes self c attrs h :
  h !! self = Some (OInst c attrs) ->
  NoDup (map fst attrs) ->
  Base_items self h
  = Ok (List.filter (fun kv => negb (is_dunder (fst kv))) attrs) h /\
  forall key v,
    (key, v) ∈ List.filter (fun kv => negb (is_dunder (fst kv))) attrs ->
    is_dunder key = false /\ Base_getitem self key h = Ok v h.
Proof.
  intros Hself Hnd. split.
  - by eapply Base_items_run.
  - intros key v Hin. apply list_elem_of_In, filter_In in Hin as [Hin Hd].
    apply list_elem_of_In in Hin. simpl in Hd.
    split; [by apply negb_true_iff|].
    unfold Base_getitem, bind, load. rewrite Hself.
    by rewrite (assoc_get_NoDup_in _ _ _ Hnd Hin).
Qed.

Lemma Base_items_attributes_witness :
  let h := [OInst CBase [("issuer", VStr "https://op"); ("__doc__", VNone);
                         ("port", VInt 443)]] in
  Base_items 0 h = Ok [("issuer", VStr "https://op"); ("port", VInt 443)] h /\
  forall key v,
    (key, v) ∈ [("issuer", VStr "https://op"); ("port", VInt 443)] ->
    is_dunder key = false /\ Base_getitem 0 key h = Ok v h.
Proof.
  intros h.
  apply (Base_items_attributes 0 CBase
           [("issuer", VStr "https://op"); ("__doc__", VNone);
            ("port", VInt 443)] h).
  - reflexivity.
  - apply (bool_decide_unpack _). vm_compute. exact I.
Defined.



(** X4. A built [OPConfiguration] has exactly the eighteen attributes of the
    schema: [items()] yields them in the order of the schema,
    [key in obj] holds for them and for no other key, and for any other
    key -- [domain], [port], or a key of the raw configuration that is
    not in the schema -- [obj[key]] raises [KeyError] while
    [obj.get(key, default)] returns the default. *)
Theorem OPConfiguration_attributes fuel cwd conf base_path entity_conf
    domain port file_attributes items t2 defaults td h0 F :
  repr h0 conf (TDict items) F ->
  defaults_of h0 = Some defaults ->
  working_tree base_path file_attributes domain port (TDict items) = Done t2 ->
  is_scalar domain = true -> is_scalar port = true ->
  template_dir_of cwd t2 defaults = Some td ->
  height (TDict items) < fuel ->
  exists h' attrs,
    OPConfiguration fuel cwd conf base_path entity_conf domain port
      file_attributes h0 = Ok (VRef (length h0)) h' /\
    Base_items (length h0) h' = Ok attrs h' /\
    map fst attrs = OP_SCHEMA /\
    forall key,
      Base_contains (length h0) key h' = Ok (bool_decide (key ∈ OP_SCHEMA)) h' /\
      (key ∉ OP_SCHEMA ->
       Base_getitem (length h0) key h' = Raise KeyError h' /\
       (is_dunder key = false -> key ∉ CLASS_ATTRIBUTES ->
        forall default, Base_get (length h0) key default h' = Ok default h')).
Proof.
  intros Hrep Hdef Hwork Hd Hp Htd Hfuel.
  destruct (OPConfiguration_on_tree fuel cwd conf base_path entity_conf domain
              port file_attributes items t2 defaults td h0 F
              Hrep Hdef Hwork Hd Hp Htd Hfuel)
    as (h' & lc & kvs & F2 & attrs & Hrun & Hframe & Hself & Hnames & _).
  assert (Hnd : NoDup (map fst attrs)) by (rewrite Hnames; apply OP_SCHEMA_NoDup).
  assert (Hplain : List.filter (fun kv => negb (is_dunder (fst kv))) attrs
                   = attrs).
  { apply forallb_filter_id. apply forallb_forall. intros [k v] Hin.
    assert (Hk : In k OP_SCHEMA)
      by (rewrite <- Hnames; by apply (in_map fst _ (k, v))).
    assert (Hall : forallb (fun k => negb (is_dunder k)) OP_SCHEMA = true)
      by (by vm_compute).
    by apply (proj1 (forallb_forall _ _) Hall). }
  exists h', attrs. split_and!; [done| |done|].
  - rewrite (Base_items_run _ _ _ _ Hself Hnd). by rewrite Hplain.
  - intros key.
    assert (Hget : assoc_get attrs key = None <-> key ∉ OP_SCHEMA)
      by (rewrite <- Hnames; apply assoc_get_None_notin).
    split.
    + unfold Base_contains, bind, load. rewrite Hself. simpl. unfold ret.
      f_equal. destruct (assoc_get attrs key) eqn:Hk.
      * symmetry. apply bool_decide_eq_true.
        destruct (decide (key ∈ OP_SCHEMA)) as [|Hn]; [done|].
        apply Hget in Hn. congruence.
      * symmetry. apply bool_decide_eq_false. by apply Hget.
    + intros Hn. apply Hget in Hn. split.
      * unfold Base_getitem, bind, load. by rewrite Hself, Hn.
      * intros Hdu Hcl default. unfold Base_get, bind, load.
        rewrite Hself, Hdu, Hn. by rewrite bool_decide_eq_false_2.
Qed.

Lemma OPConfiguration_attributes_witness :
  exists h' attrs,
    OPConfiguration 4 "/srv/op" sample_ref "/etc/idp" None (VStr "") (VInt 0)
      None sample_heap = Ok (VRef (length sample_heap)) h' /\
    Base_items (length sample_heap) h' = Ok attrs h' /\
    map fst attrs = OP_SCHEMA /\
    forall key,
      Base_contains (length sample_heap) key h'
      = Ok (bool_decide (key ∈ OP_SCHEMA)) h' /\
      (key ∉ OP_SCHEMA ->
       Base_getitem (length sample_heap) key h' = Raise KeyError h' /\
       (is_dunder key = false -> key ∉ CLASS_ATTRIBUTES ->
        forall default,
          Base_get (length sample_heap) key default h' = Ok default h')).
Proof.
  destruct sample_objects as [F HF].
  destruct sample_defaults as (defaults & Hdef & Hdef0).
  assert (Hdef' := Hdef). vm_compute in Hdef'. injection Hdef' as <-.
  assert (exists t2, working_tree "/etc/idp" None (VStr "") (VInt 0) sample_conf
                     = Done t2) as [t2 Hwork].
  { eexists. vm_compute. reflexivity. }
  assert (Hwork' := Hwork). vm_compute in Hwork'. injection Hwork' as <-.
  exact (OPConfiguration_attributes 4 "/srv/op" sample_ref "/etc/idp" None
           (VStr "") (VInt 0) None _ _ _ "/srv/op/templates"
           sample_heap F HF Hdef Hwork eq_refl eq_refl eq_refl
           ltac:(vm_compute; lia)).
Defined.

(** ** Loading a configuration file *)

Lemma append_cons c a b : String c a +:+ b = String c (a +:+ b).
Proof. reflexivity. Qed.

Lemma append_nil b : "" +:+ b = b.
Proof. reflexivity. Qed.

Lemma string_length_append a b :
  String.length (a +:+ b) = String.length a + String.length b.
Proof.
  induction a as [|c a IH]; [done|].
  rewrite append_cons. simpl. by rewrite IH.
Qed.

Lemma string_append_assoc a b c : (a +:+ b) +:+ c = a +:+ (b +:+ c).
Proof.
  induction a as [|x a IH]; [done|].
  rewrite !append_cons. by rewrite IH.
Qed.

Lemma substring_whole b : String.substring 0 (String.length b) b = b.
Proof. induction b as [|c b IH]; [done|]. simpl. by rewrite IH. Qed.

Lemma substring_prefix a b :
  String.substring 0 (String.length a) (a +:+ b) = a.
Proof.
  induction a as [|c a IH]; [by destruct b|].
  rewrite append_cons. simpl. by rewrite IH.
Qed.

Lemma substring_after_sep a b :
  String.substring (S (String.length a)) (String.length b) (a +:+ "/" +:+ b) = b.
Proof.
  induction a as [|c a IH].
  - rewrite append_nil, append_cons, append_nil. simpl. apply substring_whole.
  - rewrite append_cons. simpl. exact IH.
Qed.

Lemma rfind_sep_append a b :
  rfind_sep a = None -> rfind_sep b = None -> rfind_sep (a +:+ b) = None.
Proof.
  intros Ha Hb. induction a as [|c a IH]; [done|].
  rewrite append_cons. simpl in *.
  destruct (rfind_sep a); [done|]. rewrite IH by done.
  by destruct (Ascii.eqb c "/").
Qed.

Lemma rfind_sep_last a b :
  rfind_sep b = None ->
  rfind_sep (a +:+ "/" +:+ b) = Some (String.length a).
Proof.
  intros Hb. induction a as [|c a IH].
  - rewrite append_nil, append_cons, append_nil. simpl. by rewrite Hb.
  - rewrite append_cons. simpl. by rewrite IH.
Qed.

(** The file name of a path: what follows the last ["/"]. *)
Lemma path_split_tail dir name :
  rfind_sep name = None ->
  snd (path_split (dir +:+ "/" +:+ name)) = name.
Proof.
  intros Hname. unfold path_split. cbv zeta. cbn [snd].
  rewrite rfind_sep_last by done.
  rewrite !string_length_append. cbn [String.length].
  replace (String.length dir + (1 + String.length name) - S (String.length dir))
    with (String.length name) by lia.
  apply substring_after_sep.
Qed.

Lemma path_split_plain name :
  rfind_sep name = None -> snd (path_split name) = name.
Proof.
  intros Hname. unfold path_split. cbv zeta. cbn [snd]. rewrite Hname.
  rewrite Nat.sub_0_r. apply substring_whole.
Qed.

Lemma endswith_append x suffix : endswith (x +:+ suffix) suffix = true.
Proof.
  induction x as [|c x IH].
  - rewrite append_nil. destruct suffix; cbn [endswith];
      by rewrite String.eqb_refl.
  - rewrite append_cons. cbn [endswith]. rewrite IH. apply orb_true_r.
Qed.

Lemma endswith_py_other x suffix :
  String.length suffix = 5 ->
  endswith ".py" suffix = false ->
  (forall c d, String c (String d ".py") <> suffix) ->
  endswith (x +:+ ".py") suffix = false.
Proof.
  intros Hlen Hbase Htwo.
  induction x as [|c x IH]; [done|].
  rewrite append_cons. cbn [endswith]. rewrite IH, orb_false_r.
  apply String.eqb_neq. intros Heq.
  assert (Hx : String.length x = 1).
  { apply (f_equal String.length) in Heq. simpl in Heq.
    rewrite string_length_append in Heq. simpl in Heq. lia. }
  destruct x as [|d [|e x]]; try done.
  by apply (Htwo c d).
Qed.

Lemma endswith_py_yaml x : endswith (x +:+ ".py") ".yaml" = false.
Proof. apply endswith_py_other; [done|done|]. by intros c d [=]. Qed.

Lemma endswith_py_json x : endswith (x +:+ ".py") ".json" = false.
Proof. apply endswith_py_other; [done|done|]. by intros c d [=]. Qed.

Lemma endswith_inv s suffix :
  endswith s suffix = true -> exists pre, s = pre +:+ suffix.
Proof.
  induction s as [|c s IH]; cbn [endswith]; intros Hs.
  - rewrite orb_false_r in Hs. apply String.eqb_eq in Hs as <-. by exists "".
  - apply orb_true_iff in Hs as [Hs|Hs].
    + apply String.eqb_eq in Hs as <-. by exists "".
    + destruct (IH Hs) as [pre ->]. by exists (String c pre).
Qed.

(** Two ways of cutting a file name at a dot agree on the extension when
    neither extension contains a dot. *)
Lemma last_dot x ext pre e :
  (forall a b, ext <> a +:+ "." +:+ b) ->
  (forall a b, e <> a +:+ "." +:+ b) ->
  x +:+ "." +:+ ext = pre +:+ "." +:+ e -> ext = e.
Proof.
  intros Hext He. revert pre.
  induction x as [|c x IH]; intros [|c' pre];
    rewrite ?append_cons, ?append_nil; intros [= ]; subst.
  - done.
  - by destruct (Hext pre e).
  - by destruct (He x ext).
  - by eapply IH.
Qed.

Lemma endswith_extension x ext e :
  (forall a b, ext <> a +:+ "." +:+ b) ->
  (forall a b, e <> a +:+ "." +:+ b) ->
  ext <> e ->
  endswith (x +:+ "." +:+ ext) ("." +:+ e) = false.
Proof.
  intros Hext He Hne.
  destruct (endswith (x +:+ "." +:+ ext) ("." +:+ e)) eqn:Hends; [|done].
  apply endswith_inv in Hends as [pre Heq].
  destruct Hne. by eapply last_dot.
Qed.

Ltac no_dot a H :=
  do 5 (destruct a as [|? a];
        [rewrite ?append_cons, ?append_nil in H; discriminate H|
         rewrite append_cons in H; try discriminate H; injection H as ? H]).

Lemma no_dot_yaml a b : "yaml" <> a +:+ "." +:+ b.
Proof. intros H. no_dot a H. Qed.

Lemma no_dot_json a b : "json" <> a +:+ "." +:+ b.
Proof. intros H. no_dot a H. Qed.

Lemma no_dot_py a b : "py" <> a +:+ "." +:+ b.
Proof. intros H. no_dot a H. Qed.

Lemma rfind_sep_py name :
  rfind_sep name = None -> rfind_sep (name +:+ ".py") = None.
Proof. intros Hname. by apply rfind_sep_append. Qed.

Lemma strip_py name :
  String.substring 0 (String.length (name +:+ ".py") - 3) (name +:+ ".py")
  = name.
Proof.
  rewrite string_length_append. simpl.
  replace (String.length name + 3 - 3) with (String.length name) by lia.
  apply substring_prefix.
Qed.

Section create_from_config_file_facts.

Variable load_yaml_config : string -> M val.
Variable load_json : string -> M val.
Variable import_OIDCOP_CONFIG : string -> M val.

Lemma create_from_py fuel cwd c filename name base_path
    entity_conf file_attributes domain port h :
  snd (path_split (filename +:+ ".py")) = name +:+ ".py" ->
  create_from_config_file load_yaml_config load_json
    import_OIDCOP_CONFIG fuel cwd c (filename +:+ ".py")
    base_path entity_conf file_attributes domain port h
  = bind (import_OIDCOP_CONFIG name)
      (fun _conf =>
         construct fuel cwd c _conf entity_conf base_path file_attributes
           domain port) h.
Proof.
  intros Htail. unfold create_from_config_file.
  rewrite endswith_py_yaml, endswith_py_json, endswith_append.
  destruct (path_split (filename +:+ ".py")) as [head tail].
  simpl in Htail. subst tail. by rewrite strip_py.
Qed.

Lemma create_from_config_file_refused fuel cwd c filename base_path
    entity_conf file_attributes domain port h :
  endswith filename ".yaml" = false ->
  endswith filename ".json" = false ->
  endswith filename ".py" = false ->
  create_from_config_file load_yaml_config load_json
    import_OIDCOP_CONFIG fuel cwd c filename
    base_path entity_conf file_attributes domain port h
  = Raise ValueError h.
Proof.
  intros Hyaml Hjson Hpy. unfold create_from_config_file, bind.
  by rewrite Hyaml, Hjson, Hpy.
Qed.

(** X5. A file whose extension is not [yaml], [json] or [py] is refused
    with [ValueError] before anything is loaded or built: the store is
    as it was, whatever the class and the other arguments.  The
    extension is what follows the last dot of the name, and the
    comparison is exact: [YAML] or [yml] are refused as well. *)
Theorem create_from_config_file_unknown_type fuel cwd c name ext base_path
    entity_conf file_attributes domain port h :
  (forall a b, ext <> a +:+ "." +:+ b) ->
  ext <> "yaml" -> ext <> "json" -> ext <> "py" ->
  create_from_config_file load_yaml_config load_json
    import_OIDCOP_CONFIG fuel cwd c (name +:+ "." +:+ ext)
    base_path entity_conf file_attributes domain port h
  = Raise ValueError h.
Proof.
  intros Hext Hyaml Hjson Hpy. apply create_from_config_file_refused.
  - apply (endswith_extension name ext "yaml"); [done| |done].
    intros a b. apply no_dot_yaml.
  - apply (endswith_extension name ext "json"); [done| |done].
    intros a b. apply no_dot_json.
  - apply (endswith_extension name ext "py"); [done| |done].
    intros a b. apply no_dot_py.
Qed.

(** X6. For a Python file the configuration is the [OIDCOP_CONFIG] of the
    module named by the file name without its directory and without
    [.py]: the directory of the path plays no role, so the path with
    a directory gives the same result as the bare file name. *)
Theorem create_from_config_file_py_module fuel cwd c dir name base_path
    entity_conf file_attributes domain port h :
  rfind_sep name = None ->
  create_from_config_file load_yaml_config load_json
    import_OIDCOP_CONFIG fuel cwd c (dir +:+ "/" +:+ name +:+ ".py")
    base_path entity_conf file_attributes domain port h
  = bind (import_OIDCOP_CONFIG name)
      (fun _conf =>
         construct fuel cwd c _conf entity_conf base_path file_attributes
           domain port) h /\
  create_from_config_file load_yaml_config load_json
    import_OIDCOP_CONFIG fuel cwd c (name +:+ ".py")
    base_path entity_conf file_attributes domain port h
  = create_from_config_file load_yaml_config load_json
      import_OIDCOP_CONFIG fuel cwd c (dir +:+ "/" +:+ name +:+ ".py")
      base_path entity_conf file_attributes domain port h.
Proof.
  intros Hname.
  assert (Hassoc : dir +:+ "/" +:+ name +:+ ".py"
                   = (dir +:+ "/" +:+ name) +:+ ".py").
  { by rewrite !string_append_assoc. }
  assert (Hdir : snd (path_split ((dir +:+ "/" +:+ name) +:+ ".py"))
                 = name +:+ ".py").
  { rewrite <- Hassoc. apply path_split_tail. by apply rfind_sep_py. }
  rewrite Hassoc.
  rewrite (create_from_py _ _ _ _ name) by exact Hdir.
  split; [done|].
  apply create_from_py. apply path_split_plain. by apply rfind_sep_py.
Qed.

(** X7. [Base] cannot be built from a file: the class is called with
    the keyword arguments [entity_conf], [base_path],
    [file_attributes], [domain] and [port], and the parameters of
    [Base.__init__] are [conf], [base_path] and [file_attributes]
    only.  So the call never returns an object; once a YAML or JSON
    file is loaded, the instance is created and binding the arguments
    raises [TypeError]. *)
Theorem create_from_config_file_Base fuel cwd filename base_path
    entity_conf file_attributes domain port h :
  (forall v h',
     create_from_config_file load_yaml_config load_json
       import_OIDCOP_CONFIG fuel cwd CBase filename
       base_path entity_conf file_attributes domain port h
     <> Ok v h') /\
  (forall conf h1,
     (if endswith filename ".yaml" then load_yaml_config filename h
      else if endswith filename ".json" then load_json filename h
      else Unmodelled) = Ok conf h1 ->
     create_from_config_file load_yaml_config load_json
       import_OIDCOP_CONFIG fuel cwd CBase filename
       base_path entity_conf file_attributes domain port h
     = Raise TypeError (h1 ++ [OInst CBase []])).
Proof.
  split.
  - intros v h'. unfold create_from_config_file, bind, construct, bind, alloc.
    destruct (endswith filename ".yaml");
      [by destruct (load_yaml_config filename h)|].
    destruct (endswith filename ".json");
      [by destruct (load_json filename h)|].
    destruct (endswith filename ".py"); [|done].
    destruct (path_split filename) as [head tail].
    by destruct (import_OIDCOP_CONFIG _ h).
  - intros conf h1 Hload.
    unfold create_from_config_file, bind, construct, bind, alloc.
    destruct (endswith filename ".yaml"); [by rewrite Hload|].
    destruct (endswith filename ".json"); [by rewrite Hload|done].
Qed.

End create_from_config_file_facts.

Lemma create_from_config_file_unknown_type_witness :
  create_from_config_file (fun _ => ret VNone) (fun _ => ret VNone)
    (fun _ => ret VNone) 1 "/srv/op" COPConfiguration
    ("conf/op" +:+ "." +:+ "yml") "" None None (VStr "") (VInt 0) []
  = Raise ValueError [].
Proof.
  apply (create_from_config_file_unknown_type (fun _ => ret VNone)
           (fun _ => ret VNone) (fun _ => ret VNone));
    [|discriminate..].
  intros a b H. no_dot a H.
Defined.

Lemma create_from_config_file_py_module_witness :
  let load : string -> M val := fun _ => raise KeyError in
  let import : string -> M val :=
    fun name =>
      if String.eqb name "op_config" then l <- alloc (ODict []) ;; ret (VRef l)
      else raise KeyError in
  create_from_config_file load load import 2 "/srv/op" COPConfiguration
    ("conf/idp" +:+ "/" +:+ "op_config" +:+ ".py") "" None None
    (VStr "") (VInt 0) []
  = bind (import "op_config")
      (fun _conf =>
         construct 2 "/srv/op" COPConfiguration _conf None "" None
           (VStr "") (VInt 0)) [] /\
  create_from_config_file load load import 2 "/srv/op" COPConfiguration
    ("op_config" +:+ ".py") "" None None (VStr "") (VInt 0) []
  = create_from_config_file load load import 2 "/srv/op" COPConfiguration
      ("conf/idp" +:+ "/" +:+ "op_config" +:+ ".py") "" None None
      (VStr "") (VInt 0) [].
Proof.
  intros load import.
  apply (create_from_config_file_py_module load load import 2 "/srv/op"
           COPConfiguration "conf/idp" "op_config").
  reflexivity.
Defined.

(** ** The provider-level builder: template directory and defaults *)

Lemma startswith_sep s : startswith (String "/" s) "/" = true.
Proof. unfold startswith. cbn [String.prefix]. by destruct s. Qed.

Lemma normpath_absolute p :
  startswith p "/" = true -> startswith (normpath p) "/" = true.
Proof.
  intros Hp. unfold normpath.
  destruct (String.eqb_spec p "") as [->|Hne]; [done|].
  rewrite Hp. cbv zeta.
  set (comps := fold_left _ _ _).
  destruct (startswith p "//" && negb (startswith p "///")).
  - change (String.concat "" (repeat "/" 2)) with "//".
    rewrite (append_cons "/" "/" (join_sep comps)).
    cbn [String.eqb]. apply startswith_sep.
  - change (String.concat "" (repeat "/" 1)) with "/".
    rewrite (append_cons "/" "" (join_sep comps)).
    cbn [String.eqb]. apply startswith_sep.
Qed.

Lemma abspath_absolute cwd p :
  startswith cwd "/" = true -> startswith (abspath cwd p) "/" = true.
Proof.
  intros Hcwd. unfold abspath. apply normpath_absolute.
  destruct (startswith p "/") eqn:Hp; [done|]. by apply path_join_absolute.
Qed.

Lemma template_dir_of_abspath cwd t defaults td :
  template_dir_of cwd t defaults = Some td -> exists s, td = abspath cwd s.
Proof.
  unfold template_dir_of. intros Htd.
  destruct (tree_get t "template_dir") as [x|].
  - destruct (truthy_tree x).
    + destruct x; try done. injection Htd as <-. eauto.
    + destruct (assoc_get defaults "template_dir") as [[| | |s| |]|]; try done.
      injection Htd as <-. eauto.
  - destruct (assoc_get defaults "template_dir") as [[| | |s| |]|]; try done.
    injection Htd as <-. eauto.
Qed.

(** X8. The [template_dir] of a built [OPConfiguration] is an absolute
    path: in a process whose working directory is absolute, the
    attribute is a string that starts with ["/"], whether it comes from
    the configuration or from the default table. *)
Theorem OPConfiguration_template_dir_absolute fuel cwd conf base_path
    entity_conf domain port file_attributes items t2 defaults td h0 F :
  repr h0 conf (TDict items) F ->
  defaults_of h0 = Some defaults ->
  working_tree base_path file_attributes domain port (TDict items) = Done t2 ->
  is_scalar domain = true -> is_scalar port = true ->
  template_dir_of cwd t2 defaults = Some td ->
  height (TDict items) < fuel ->
  startswith cwd "/" = true ->
  exists h',
    OPConfiguration fuel cwd conf base_path entity_conf domain port
      file_attributes h0 = Ok (VRef (length h0)) h' /\
    attr_of h' (length h0) "template_dir" = Some (VStr td) /\
    startswith td "/" = true.
Proof.
  intros Hrep Hdef Hwork Hd Hp Htd Hfuel Hcwd.
  destruct (OPConfiguration_on_tree fuel cwd conf base_path entity_conf domain
              port file_attributes items t2 defaults td h0 F
              Hrep Hdef Hwork Hd Hp Htd Hfuel)
    as (h' & lc & kvs & F2 & attrs & Hrun & Hframe & Hself & Hnames & Hcp
        & HF2 & Hlc & Htdattr & Hattrs).
  exists h'. split_and!; [done| |].
  - unfold attr_of. by rewrite Hself.
  - destruct (template_dir_of_abspath _ _ _ _ Htd) as [s ->].
    by apply abspath_absolute.
Qed.

Lemma OPConfiguration_template_dir_absolute_witness :
  exists h',
    OPConfiguration 4 "/srv/op" sample_ref "/etc/idp" None (VStr "") (VInt 0)
      None sample_heap = Ok (VRef (length sample_heap)) h' /\
    attr_of h' (length sample_heap) "template_dir"
    = Some (VStr "/srv/op/templates") /\
    startswith "/srv/op/templates" "/" = true.
Proof.
  destruct sample_objects as [F HF].
  destruct sample_defaults as (defaults & Hdef & Hdef0).
  assert (Hdef' := Hdef). vm_compute in Hdef'. injection Hdef' as <-.
  assert (exists t2, working_tree "/etc/idp" None (VStr "") (VInt 0) sample_conf
                     = Done t2) as [t2 Hwork].
  { eexists. vm_compute. reflexivity. }
  assert (Hwork' := Hwork). vm_compute in Hwork'. injection Hwork' as <-.
  exact (OPConfiguration_template_dir_absolute 4 "/srv/op" sample_ref
           "/etc/idp" None (VStr "") (VInt 0) None _ _ _ "/srv/op/templates"
           sample_heap F HF Hdef Hwork eq_refl eq_refl eq_refl
           ltac:(vm_compute; lia) eq_refl).
Defined.

Lemma module_defaults h0 :
  (forall l, l < length module_heap -> h0 !! l = module_heap !! l) ->
  defaults_of h0 = defaults_of module_heap.
Proof.
  intros Hext. unfold defaults_of.
  destruct DEFAULT_CONFIG as [| | | | |l] eqn:HD; try done.
  rewrite Hext; [done|]. injection HD as <-. vm_compute. lia.
Qed.

(** X9. The defaults are used as the module defines them: the template
    substitution and the path resolution of a build do not reach them.
    In a store that holds the module's objects, an [OPConfiguration]
    built from a raw configuration without [issuer] has the literal
    template ["https://{domain}:{port}"] as its [issuer], whatever the
    domain and the port, and one built without [session_key] has the
    relative file name ["private/session_jwk.json"] in its
    [session_key], whatever the base path. *)
Theorem OPConfiguration_defaults_verbatim fuel cwd conf base_path entity_conf
    domain port file_attributes items t2 defaults td h0 F :
  repr h0 conf (TDict items) F ->
  (forall l, l < length module_heap -> h0 !! l = module_heap !! l) ->
  defaults_of h0 = Some defaults ->
  working_tree base_path file_attributes domain port (TDict items) = Done t2 ->
  is_scalar domain = true -> is_scalar port = true ->
  template_dir_of cwd t2 defaults = Some td ->
  height (TDict items) < fuel ->
  exists h',
    OPConfiguration fuel cwd conf base_path entity_conf domain port
      file_attributes h0 = Ok (VRef (length h0)) h' /\
    (falsy_at (TDict items) "issuer" = true ->
     "issuer" ∉ default DEFAULT_FILE_ATTRIBUTE_NAMES file_attributes ->
     attr_of h' (length h0) "issuer" = Some (VStr "https://{domain}:{port}")) /\
    (falsy_at (TDict items) "session_key" = true ->
     "session_key" ∉ default DEFAULT_FILE_ATTRIBUTE_NAMES file_attributes ->
     exists d,
       attr_of h' (length h0) "session_key" = Some d /\
       entry_of h' d "filename" = Some (VStr "private/session_jwk.json")).
Proof.
  intros Hrep Hext Hdef Hwork Hd Hp Htd Hfuel.
  destruct (OPConfiguration_on_tree fuel cwd conf base_path entity_conf domain
              port file_attributes items t2 defaults td h0 F
              Hrep Hdef Hwork Hd Hp Htd Hfuel)
    as (h' & lc & kvs & F2 & attrs & Hrun & Hframe & Hself & Hnames & Hcp
        & HF2 & Hlc & Htdattr & Hattrs).
  rewrite (module_defaults _ Hext) in Hdef.
  vm_compute in Hdef. injection Hdef as <-.
  destruct (working_tree_dict _ _ _ _ _ _ Hwork) as [items2 ->].
  assert (exists F0, repr_items h' kvs items2 F0) as [F0 Hitems].
  { inversion Hcp; subst. rewrite Hlc in *. simplify_eq. eauto. }
  assert (Hmodule : length module_heap ≤ length h0).
  { destruct (decide (length module_heap ≤ length h0)) as [|Hlt]; [done|].
    assert (H29 : h0 !! 29 = module_heap !! 29)
      by (apply Hext; vm_compute; lia).
    assert (29 < length h0) by (apply lookup_lt_is_Some; rewrite H29; by eexists).
    assert (Hlast : h0 !! length h0 = module_heap !! length h0)
      by (apply Hext; lia).
    rewrite (lookup_ge_None_2 h0) in Hlast by lia.
    symmetry in Hlast. apply lookup_ge_None_1 in Hlast. lia. }
  exists h'. split_and!; [done| |].
  - intros Hfalsy Hfa.
    pose proof (working_tree_falsy _ _ _ _ _ _ _ Hwork Hfa Hfalsy) as Hf2.
    destruct (Hattrs "issuer") as (old & Hold & Hattr);
      [apply (bool_decide_unpack _); by vm_compute|done|].
    destruct (merged_rule _ _ _ _ _ _ _ _ _ Hitems Hold Hattr) as (Hr & _).
    unfold attr_of. rewrite Hself. by apply Hr.
  - intros Hfalsy Hfa.
    pose proof (working_tree_falsy _ _ _ _ _ _ _ Hwork Hfa Hfalsy) as Hf2.
    destruct (Hattrs "session_key") as (old & Hold & Hattr);
      [apply (bool_decide_unpack _); by vm_compute|done|].
    destruct (merged_rule _ _ _ _ _ _ _ _ _ Hitems Hold Hattr) as (Hr & _).
    exists (VRef 19). split.
    + unfold attr_of. rewrite Hself. by apply Hr.
    + assert (H19 : 19 < length module_heap) by (vm_compute; lia).
      unfold entry_of. rewrite Hframe by lia. by rewrite Hext.
Qed.

Lemma OPConfiguration_defaults_verbatim_witness :
  exists h',
    OPConfiguration 4 "/srv/op" sample_ref "/etc/idp" None (VStr "op.example")
      (VInt 443) None sample_heap = Ok (VRef (length sample_heap)) h' /\
    (falsy_at sample_conf "issuer" = true ->
     "issuer" ∉ default DEFAULT_FILE_ATTRIBUTE_NAMES None ->
     attr_of h' (length sample_heap) "issuer"
     = Some (VStr "https://{domain}:{port}")) /\
    (falsy_at sample_conf "session_key" = true ->
     "session_key" ∉ default DEFAULT_FILE_ATTRIBUTE_NAMES None ->
     exists d,
       attr_of h' (length sample_heap) "session_key" = Some d /\
       entry_of h' d "filename" = Some (VStr "private/session_jwk.json")).
Proof.
  destruct sample_objects as [F HF].
  destruct sample_defaults as (defaults & Hdef & Hdef0).
  assert (Hdef' := Hdef). vm_compute in Hdef'. injection Hdef' as <-.
  assert (exists t2, working_tree "/etc/idp" None (VStr "op.example") (VInt 443)
                       sample_conf = Done t2) as [t2 Hwork].
  { eexists. vm_compute. reflexivity. }
  assert (Hwork' := Hwork). vm_compute in Hwork'. injection Hwork' as <-.
  refine (OPConfiguration_defaults_verbatim 4 "/srv/op" sample_ref
            "/etc/idp" None (VStr "op.example") (VInt 443) None _ _ _
            "/srv/op/templates" sample_heap F HF _ Hdef Hwork eq_refl eq_refl
            eq_refl ltac:(vm_compute; lia)).
  intros l Hl.
  do 30 (destruct l as [|l]; [reflexivity|]).
  vm_compute in Hl. lia.
Defined.

(** ** The provider-level builder: the domain and the port by default *)

Lemma base_tree_get_other base_path file_attributes items t1 key x :
  base_tree base_path file_attributes (TDict items) = Done t1 ->
  key ∉ default DEFAULT_FILE_ATTRIBUTE_NAMES file_attributes ->
  (forall sub, x <> TDict sub) ->
  tree_get (TDict items) key = Some x ->
  tree_get t1 key = Some x.
Proof.
  unfold base_tree. intros Hbase Hkey Hx Hget. destruct (_ && _).
  - simpl in Hbase. unfold rmap, rbind in Hbase.
    destruct (map_entries _ items) as [items1| |] eqn:Hmap; [|done..].
    injection Hbase as <-. simpl in *.
    destruct (map_entries_get _ _ _ _ _ Hmap Hget) as (x1 & Hf & Hget1).
    unfold add_base_path_value in Hf.
    rewrite bool_decide_eq_false_2 in Hf by done.
    destruct x; try (by injection Hf as <-). by destruct (Hx items0).
  - by injection Hbase as <-.
Qed.

Lemma base_tree_missing base_path file_attributes items t1 key :
  base_tree base_path file_attributes (TDict items) = Done t1 ->
  tree_get (TDict items) key = None ->
  tree_get t1 key = None.
Proof.
  unfold base_tree. intros Hbase Hnone. destruct (_ && _).
  - simpl in Hbase. unfold rmap, rbind in Hbase.
    destruct (map_entries _ items) as [items1| |] eqn:Hmap; [|done..].
    injection Hbase as <-. simpl in *.
    eapply assoc_get_None_keys; [|done]. by eapply map_entries_keys.
  - by injection Hbase as <-.
Qed.

(** X10. Without a domain and a port the templates are filled with
    [127.0.0.1] and [80]: when the arguments [domain] and [port] are
    falsy and the configuration has no [domain] and no [port], the
    [issuer] of the built [OPConfiguration] is the string of the
    configuration formatted with these two values, so that
    ["https://{domain}:{port}"] gives ["https://127.0.0.1:80"]. *)
Theorem OPConfiguration_default_domain_port fuel cwd conf base_path
    entity_conf domain port file_attributes items t2 defaults td h0 F s r :
  repr h0 conf (TDict items) F ->
  defaults_of h0 = Some defaults ->
  working_tree base_path file_attributes domain port (TDict items) = Done t2 ->
  is_scalar domain = true -> is_scalar port = true ->
  template_dir_of cwd t2 defaults = Some td ->
  height (TDict items) < fuel ->
  truthy_scalar domain = false -> truthy_scalar port = false ->
  tree_get (TDict items) "domain" = None ->
  tree_get (TDict items) "port" = None ->
  tree_get (TDict items) "issuer" = Some (TStr s) ->
  "issuer" ∉ default DEFAULT_FILE_ATTRIBUTE_NAMES file_attributes ->
  format_from InText s (Some "127.0.0.1") (Some "80") = Done r ->
  r <> "" ->
  exists h',
    OPConfiguration fuel cwd conf base_path entity_conf domain port
      file_attributes h0 = Ok (VRef (length h0)) h' /\
    attr_of h' (length h0) "issuer" = Some (VStr r) /\
    format_from InText "https://{domain}:{port}" (Some "127.0.0.1") (Some "80")
    = Done "https://127.0.0.1:80".
Proof.
  intros Hrep Hdef Hwork Hd Hp Htd Hfuel Hnd Hnp Hdom Hport Hiss Hfa Hfmt Hr.
  destruct (OPConfiguration_on_tree fuel cwd conf base_path entity_conf domain
              port file_attributes items t2 defaults td h0 F
              Hrep Hdef Hwork Hd Hp Htd Hfuel)
    as (h' & lc & kvs & F2 & attrs & Hrun & Hframe & Hself & Hnames & Hcp
        & HF2 & Hlc & Htdattr & Hattrs).
  exists h'. split_and!; [done| |by vm_compute].
  destruct (working_tree_dict _ _ _ _ _ _ Hwork) as [items2 ->].
  assert (exists F0, repr_items h' kvs items2 F0) as [F0 Hitems].
  { inversion Hcp; subst. rewrite Hlc in *. simplify_eq. eauto. }
  assert (Hget2 : tree_get (TDict items2) "issuer" = Some (TStr r)).
  { unfold working_tree, rbind in Hwork.
    destruct (base_tree _ _ _) as [t1| |] eqn:Hbase; [|done..].
    assert (Hns : forall sub, TStr s <> TDict sub) by done.
    pose proof (base_tree_get_other _ _ _ _ _ _ Hbase Hfa Hns Hiss) as Hiss1.
    pose proof (base_tree_missing _ _ _ _ _ Hbase Hdom) as Hdom1.
    pose proof (base_tree_missing _ _ _ _ _ Hbase Hport) as Hport1.
    unfold resolve_tree in Hwork. rewrite Hnd, Hnp, Hdom1, Hport1 in Hwork.
    simpl in Hwork.
    destruct t1 as [| | | | |items1]; try done.
    simpl in Hwork. unfold rmap, rbind in Hwork.
    destruct (map_entries _ items1) as [items2'| |] eqn:Hmap; [|done..].
    injection Hwork as <-. simpl in *.
    destruct (map_entries_get _ _ _ _ _ Hmap Hiss1) as (x2 & Hf & ->).
    unfold set_domain_and_port_value in Hf.
    rewrite bool_decide_eq_true_2 in Hf
      by (apply (bool_decide_unpack _); by vm_compute).
    change (NilZero.string_of_int (Z.to_int 80)) with "80" in Hf.
    rewrite Hfmt in Hf. simpl in Hf. by injection Hf as <-. }
  destruct (Hattrs "issuer") as (old & Hold & Hattr);
    [apply (bool_decide_unpack _); by vm_compute|done|].
  destruct (merged_rule _ _ _ _ _ _ _ _ _ Hitems Hold Hattr)
    as (_ & _ & Hkeep).
  destruct Hkeep as (v & x & Fx & Hx & Hv & Hrv & Hav).
  { unfold falsy_at. rewrite Hget2. simpl.
    apply negb_false_iff, negb_true_iff. by apply String.eqb_neq. }
  rewrite Hget2 in Hx. injection Hx as <-. inversion Hrv; subst.
  unfold attr_of. by rewrite Hself.
Qed.

Lemma OPConfiguration_default_domain_port_witness :
  exists h',
    OPConfiguration 4 "/srv/op" sample_ref "/etc/idp" None (VStr "") (VInt 0)
      None sample_heap = Ok (VRef (length sample_heap)) h' /\
    attr_of h' (length sample_heap) "issuer"
    = Some (VStr "https://127.0.0.1:80") /\
    format_from InText "https://{domain}:{port}" (Some "127.0.0.1") (Some "80")
    = Done "https://127.0.0.1:80".
Proof.
  destruct sample_objects as [F HF].
  destruct sample_defaults as (defaults & Hdef & Hdef0).
  assert (Hdef' := Hdef). vm_compute in Hdef'. injection Hdef' as <-.
  assert (exists t2, working_tree "/etc/idp" None (VStr "") (VInt 0) sample_conf
                     = Done t2) as [t2 Hwork].
  { eexists. vm_compute. reflexivity. }
  assert (Hwork' := Hwork). vm_compute in Hwork'. injection Hwork' as <-.
  refine (OPConfiguration_default_domain_port 4 "/srv/op" sample_ref
            "/etc/idp" None (VStr "") (VInt 0) None _ _ _ "/srv/op/templates"
            sample_heap F "https://{domain}:{port}" "https://127.0.0.1:80"
            HF Hdef Hwork eq_refl eq_refl eq_refl ltac:(vm_compute; lia)
            eq_refl eq_refl eq_refl eq_refl eq_refl _ eq_refl _).
  - apply (bool_decide_unpack _). by vm_compute.
  - discriminate.
Defined.

(** ** The provider-level builder returns on well-formed input *)

Lemma add_base_path_tree_uris_all (P : string -> Prop) uris base_path
    file_attributes t t1 :
  (forall key, key ∈ uris -> key ∉ file_attributes) ->
  uris_all P uris t ->
  add_base_path_tree base_path file_attributes t = Done t1 ->
  uris_all P uris t1.
Proof.
  intros Hdisj. revert t1.
  induction t as [| | | | |items IH] using tree_ind; intros t1 Hall Hf; try done.
  simpl in Hf. unfold rmap, rbind in Hf.
  destruct (map_entries _ items) as [items1| |] eqn:Hmap; [|done..].
  injection Hf as <-. simpl in *. revert items1 Hmap.
  induction IH as [|[key v] items Hv _ IHitems]; intros items1 Hmap.
  - by injection Hmap as <-.
  - apply map_entries_cons_inv in Hmap as (v' & rest' & Hf & Hmap & ->).
    destruct Hall as [Hkv Hrest]. split; [|by apply IHitems].
    simpl in Hv. unfold add_base_path_value in Hf.
    destruct (bool_decide (key ∈ uris)) eqn:Huri.
    + apply bool_decide_eq_true in Huri.
      rewrite bool_decide_eq_false_2 in Hf by (by apply Hdisj).
      destruct v; try done; by injection Hf as <-.
    + case_bool_decide.
      * destruct v; try done. by injection Hf as <-.
      * destruct v as [| | | | |sub]; try (by injection Hf as <-).
        destruct (add_base_path_tree_dict _ _ _ _ Hf) as [sub' ->].
        by apply Hv.
Qed.

Lemma base_tree_Done base_path file_attributes t :
  paths_typed (default DEFAULT_FILE_ATTRIBUTE_NAMES file_attributes) t = true ->
  exists t1, base_tree base_path file_attributes t = Done t1.
Proof.
  intros Hty. unfold base_tree. cbv zeta. destruct (_ && _); [|by eexists].
  by apply paths_typed_Done.
Qed.

Lemma base_tree_uris_all (P : string -> Prop) base_path file_attributes t t1 :
  (forall key, key ∈ URIS ->
     key ∉ default DEFAULT_FILE_ATTRIBUTE_NAMES file_attributes) ->
  uris_all P URIS t ->
  base_tree base_path file_attributes t = Done t1 ->
  uris_all P URIS t1.
Proof.
  intros Hdisj Hall. unfold base_tree. cbv zeta. destruct (_ && _).
  - by apply add_base_path_tree_uris_all.
  - by intros [= <-].
Qed.

(** Under a name that is not a file attribute, path resolution keeps
    an entry that is not a mapping, and turns a mapping into a mapping. *)
Lemma base_tree_get base_path file_attributes items t1 key :
  base_tree base_path file_attributes (TDict items) = Done t1 ->
  key ∉ default DEFAULT_FILE_ATTRIBUTE_NAMES file_attributes ->
  match tree_get (TDict items) key with
  | None => tree_get t1 key = None
  | Some (TDict _) => exists sub, tree_get t1 key = Some (TDict sub)
  | Some x => tree_get t1 key = Some x
  end.
Proof.
  intros Hbase Hkey.
  destruct (tree_get (TDict items) key) as [x|] eqn:Hget;
    [|by eapply base_tree_missing].
  assert (Hother : (forall sub, x <> TDict sub) -> tree_get t1 key = Some x)
    by (intros Hx; by eapply base_tree_get_other).
  destruct x as [| | | | |sub]; try (by apply Hother).
  unfold base_tree in Hbase. destruct (_ && _).
  - simpl in Hbase. unfold rmap, rbind in Hbase.
    destruct (map_entries _ items) as [items1| |] eqn:Hmap; [|done..].
    injection Hbase as <-. simpl in *.
    destruct (map_entries_get _ _ _ _ _ Hmap Hget) as (x1 & Hf & Hget1).
    unfold add_base_path_value in Hf.
    rewrite bool_decide_eq_false_2 in Hf by done.
    destruct (add_base_path_tree_dict _ _ _ _ Hf) as [sub' ->]. eauto.
  - injection Hbase as <-. eauto.
Qed.

Lemma base_tree_resolve base_path file_attributes items t1 x name fallback :
  base_tree base_path file_attributes (TDict items) = Done t1 ->
  name ∉ default DEFAULT_FILE_ATTRIBUTE_NAMES file_attributes ->
  resolve_tree x t1 name fallback = resolve_tree x (TDict items) name fallback.
Proof.
  intros Hbase Hname. unfold resolve_tree.
  destruct (truthy_scalar x); [done|].
  pose proof (base_tree_get _ _ _ _ name Hbase Hname) as Hget.
  destruct (tree_get (TDict items) name) as [[| | | | |sub]|];
    try (by rewrite Hget).
  by destruct Hget as [sub' ->].
Qed.

(** The entry [template_dir] of the working tree is a string, or
    missing, when it is so in the raw tree. *)
Lemma working_tree_template_dir base_path file_attributes domain port
    items t2 :
  working_tree base_path file_attributes domain port (TDict items) = Done t2 ->
  (forall x, tree_get (TDict items) "template_dir" = Some x ->
             exists s, x = TStr s) ->
  forall x, tree_get t2 "template_dir" = Some x -> exists s, x = TStr s.
Proof.
  intros Hwork Hraw x Hget2. unfold working_tree, rbind in Hwork.
  destruct (base_tree _ _ _) as [t1| |] eqn:Hbase; [|done..].
  assert (Hone : forall x1, tree_get t1 "template_dir" = Some x1 ->
                            exists s, x1 = TStr s).
  { intros x1 Hget1. unfold base_tree in Hbase. destruct (_ && _).
    - simpl in Hbase. unfold rmap, rbind in Hbase.
      destruct (map_entries _ items) as [items1| |] eqn:Hmap; [|done..].
      injection Hbase as <-. simpl in *.
      destruct (assoc_get items "template_dir") as [x0|] eqn:Hget0.
      + destruct (Hraw x0 eq_refl) as [s ->].
        destruct (map_entries_get _ _ _ _ _ Hmap Hget0) as (x1' & Hf & Hget1').
        rewrite Hget1 in Hget1'. injection Hget1' as <-.
        unfold add_base_path_value in Hf.
        destruct (bool_decide _); injection Hf as <-; eauto.
      + pose proof (map_entries_keys _ _ _ Hmap) as Hkeys.
        rewrite (assoc_get_None_keys _ _ _ Hkeys Hget0) in Hget1. done.
    - injection Hbase as <-. by apply Hraw. }
  destruct t1 as [| | | | |items1]; try done.
  simpl in Hwork. unfold rmap, rbind in Hwork.
  destruct (map_entries _ items1) as [items2| |] eqn:Hmap; [|done..].
  injection Hwork as <-. simpl in *.
  destruct (assoc_get items1 "template_dir") as [x1|] eqn:Hget1.
  - destruct (Hone x1 eq_refl) as [s ->].
    destruct (map_entries_get _ _ _ _ _ Hmap Hget1) as (x2 & Hf & Hget2').
    rewrite Hget2 in Hget2'. injection Hget2' as <-.
    unfold set_domain_and_port_value in Hf.
    rewrite bool_decide_eq_false_2 in Hf
      by (intros Hin; by apply (bool_decide_pack _) in Hin).
    injection Hf as <-. eauto.
  - pose proof (map_entries_keys _ _ _ Hmap) as Hkeys.
    rewrite (assoc_get_None_keys _ _ _ Hkeys Hget1) in Hget2. done.
Qed.

(** The two passes succeed on a well-formed configuration. *)
Lemma working_tree_Done base_path file_attributes domain port items d p :
  paths_typed (default DEFAULT_FILE_ATTRIBUTE_NAMES file_attributes)
    (TDict items) = true ->
  (forall key, key ∈ URIS ->
     key ∉ default DEFAULT_FILE_ATTRIBUTE_NAMES file_attributes) ->
  "domain" ∉ default DEFAULT_FILE_ATTRIBUTE_NAMES file_attributes ->
  "port" ∉ default DEFAULT_FILE_ATTRIBUTE_NAMES file_attributes ->
  uris_all plain_template URIS (TDict items) ->
  resolve_tree domain (TDict items) "domain" (TStr "127.0.0.1") = Some d ->
  resolve_tree port (TDict items) "port" (TInt 80) = Some p ->
  brace_free d = true -> brace_free p = true ->
  exists t2,
    working_tree base_path file_attributes domain port (TDict items) = Done t2.
Proof.
  intros Hty Hdisj Hdn Hpn Hall Hrd Hrp Hbd Hbp.
  destruct (base_tree_Done base_path file_attributes _ Hty) as [t1 Hbase].
  pose proof (base_tree_uris_all _ _ _ _ _ Hdisj Hall Hbase) as Hall1.
  destruct (set_domain_and_port_tree_plain URIS d p t1 Hall1 Hbd Hbp)
    as (t2 & Hsdp & _ & _).
  exists t2. unfold working_tree, rbind. rewrite Hbase.
  rewrite (base_tree_resolve _ _ _ _ _ _ _ Hbase Hdn).
  rewrite (base_tree_resolve _ _ _ _ _ _ _ Hbase Hpn).
  by rewrite Hrd, Hrp.
Qed.

(** X11. [OPConfiguration] returns an object, without an exception, for
    every well-formed configuration: a mapping whose file attributes
    are strings, whose URI values are templates made of text and of the
    fields [{domain}] and [{port}], whose [template_dir] is a string if
    it is there, with a domain and a port that are scalars without
    braces, in a store that holds the module's default table; the URI
    keys and the names [domain] and [port] are not file attributes. *)
Theorem OPConfiguration_returns fuel cwd conf base_path entity_conf
    domain port file_attributes items h0 F d p :
  repr h0 conf (TDict items) F ->
  (forall l, l < length module_heap -> h0 !! l = module_heap !! l) ->
  paths_typed (default DEFAULT_FILE_ATTRIBUTE_NAMES file_attributes)
    (TDict items) = true ->
  (forall key, key ∈ URIS ->
     key ∉ default DEFAULT_FILE_ATTRIBUTE_NAMES file_attributes) ->
  "domain" ∉ default DEFAULT_FILE_ATTRIBUTE_NAMES file_attributes ->
  "port" ∉ default DEFAULT_FILE_ATTRIBUTE_NAMES file_attributes ->
  uris_all plain_template URIS (TDict items) ->
  is_scalar domain = true -> is_scalar port = true ->
  resolve_tree domain (TDict items) "domain" (TStr "127.0.0.1") = Some d ->
  resolve_tree port (TDict items) "port" (TInt 80) = Some p ->
  brace_free d = true -> brace_free p = true ->
  (forall x, tree_get (TDict items) "template_dir" = Some x ->
             exists s, x = TStr s) ->
  height (TDict items) < fuel ->
  exists h' attrs,
    OPConfiguration fuel cwd conf base_path entity_conf domain port
      file_attributes h0 = Ok (VRef (length h0)) h' /\
    h' !! length h0 = Some (OInst COPConfiguration attrs) /\
    map fst attrs = OP_SCHEMA.
Proof.
  intros Hrep Hext Hty Hdisj Hdn Hpn Hall Hd Hp Hrd Hrp Hbd Hbp Htdir Hfuel.
  destruct (working_tree_Done base_path file_attributes domain port items d p
              Hty Hdisj Hdn Hpn Hall Hrd Hrp Hbd Hbp) as [t2 Hwork].
  pose proof (module_defaults _ Hext) as Hdef.
  destruct (defaults_of module_heap) as [defaults|] eqn:Hmod; [|done].
  assert (Htd : exists td, template_dir_of cwd t2 defaults = Some td).
  { assert (Hdefault : assoc_get defaults "template_dir"
                       = Some (VStr "templates")).
    { vm_compute in Hmod. by injection Hmod as <-. }
    unfold template_dir_of. rewrite Hdefault.
    destruct (tree_get t2 "template_dir") as [x|] eqn:Hget; [|by eexists].
    destruct (working_tree_template_dir _ _ _ _ _ _ Hwork Htdir x Hget)
      as [s ->].
    destruct (truthy_tree (TStr s)); by eexists. }
  destruct Htd as [td Htd].
  destruct (OPConfiguration_on_tree fuel cwd conf base_path entity_conf domain
              port file_attributes items t2 defaults td h0 F
              Hrep Hdef Hwork Hd Hp Htd Hfuel)
    as (h' & lc & kvs & F2 & attrs & Hrun & Hframe & Hself & Hnames & _).
  by exists h', attrs.
Qed.

Lemma OPConfiguration_returns_witness :
  exists h' attrs,
    OPConfiguration 4 "/srv/op" sample_ref "/etc/idp" None (VStr "") (VInt 0)
      None sample_heap = Ok (VRef (length sample_heap)) h' /\
    h' !! length sample_heap = Some (OInst COPConfiguration attrs) /\
    map fst attrs = OP_SCHEMA.
Proof.
  destruct sample_objects as [F HF].
  refine (OPConfiguration_returns 4 "/srv/op" sample_ref "/etc/idp" None
            (VStr "") (VInt 0) None _ sample_heap F "127.0.0.1" "80"
            HF _ eq_refl _ _ _ sample_plain eq_refl eq_refl eq_refl eq_refl
            eq_refl eq_refl _ ltac:(vm_compute; lia)).
  - intros l Hl. do 30 (destruct l as [|l]; [reflexivity|]).
    vm_compute in Hl. lia.
  - intros key Hkey. unfold URIS in Hkey.
    apply elem_of_cons in Hkey as [->|Hkey];
      [apply (bool_decide_unpack _); by vm_compute|].
    apply elem_of_cons in Hkey as [->|Hkey];
      [apply (bool_decide_unpack _); by vm_compute|].
    by apply elem_of_nil in Hkey.
  - apply (bool_decide_unpack _). by vm_compute.
  - apply (bool_decide_unpack _). by vm_compute.
  - intros x Hx. vm_compute in Hx. discriminate.
Defined.

(** ** The attributes of a server-level object *)

Lemma Configuration_prepare_attrs fuel c conf base_path domain port
    file_attributes items t2 h0 F :
  repr h0 conf (TDict items) F ->
  working_tree base_path file_attributes domain port (TDict items) = Done t2 ->
  is_scalar domain = true -> is_scalar port = true ->
  height (TDict items) ≤ fuel ->
  returns
    (Configuration_prepare fuel (length h0) conf base_path file_attributes
       domain port)
    (h0 ++ [OInst c []])
    (fun _ h' =>
       exists F2 lg web kvs,
         repr h' conf t2 F2 /\
         h' !! length h0
         = Some (OInst c [("logger", VLogger lg); ("webserver", web)]) /\
         entry_of h' conf "webserver" = assoc_get kvs "webserver" /\
         match assoc_get kvs "webserver" with
         | Some w => web = w
         | None =>
             exists p, web = VRef p /\ length h0 < p /\ p ∉ F2 /\
                       h' !! p = Some (ODict [])
         end).
Proof.
  intros Hrep Hwork Hd Hp Hfuel.
  unfold working_tree, rbind in Hwork.
  destruct (base_tree base_path file_attributes (TDict items))
    as [t1| |] eqn:Hbase; [|done..].
  destruct (base_tree_dict _ _ _ _ Hbase) as [[items1 ->] Hh1].
  set (self := length h0). set (h1 := h0 ++ [OInst c []]).
  assert (Hself1 : h1 !! self = Some (OInst c [])) by (by apply list_lookup_middle).
  assert (Hlen1 : length h1 = S self) by (unfold h1; rewrite length_app; simpl; lia).
  assert (HF : forall l, l ∈ F -> l < self) by (intros l Hl; by eapply repr_valid).
  assert (Hrep1 : repr h1 conf (TDict items) F).
  { eapply repr_frame; [done|]. intros l Hl. apply lookup_app_l. by apply HF. }
  unfold Configuration_prepare. apply returns_bind.
  eapply returns_mono;
    [eapply (Base_init_refines base_path file_attributes _ _ h1 conf F fuel);
       [done|done|lia]|].
  intros _ h2 (F1 & Hrep2 & Hlen2 & Hframe2 & Hsub2).
  assert (HF1 : forall l, l ∈ F1 -> l <> self).
  { intros l [Hl|Hl]%Hsub2; [apply HF in Hl|]; lia. }
  assert (Hself2 : h2 !! self = Some (OInst c [])).
  { rewrite Hframe2; [done|lia|]. intros Hin%HF. lia. }
  assert (Hvalid2 : forall l, l ∈ F1 -> l < length h2)
    by (intros l Hl; by eapply repr_valid).
  inversion Hrep2 as [| | | | |lc kvs1 kts Fi1 Hlc2 Hnd Hitems2 Hlc_notin];
    subst.
  assert (Hlc_self : lc <> self) by (apply HF1; set_solver).
  apply returns_bind. eapply returns_dict_get; [done|].
  apply returns_bind. apply returns_truthy.
  { intros l Hl. destruct (assoc_get kvs1 "logging") as [v|] eqn:Hlog; [|done].
    subst v. by eapply (proj2 (repr_items_value_ref _ _ _ _ _ _ Hitems2 Hlog)). }
  apply returns_bind. apply returns_logger. intros lg.
  apply returns_bind. eapply returns_setattr; [exact Hself2|plain_name|].
  set (h3 := <[self := OInst c (assoc_set [] "logger" (VLogger lg))]> h2).
  assert (Hlen3 : length h3 = length h2) by (unfold h3; by rewrite length_insert).
  apply returns_bind. eapply returns_dict_entries;
    [unfold h3; by rewrite list_lookup_insert_ne|].
  apply returns_bind. unfold new_dict. apply returns_bind.
  apply returns_alloc. apply returns_ret.
  apply returns_bind. eapply returns_setattr; [|plain_name|].
  { rewrite lookup_app_l by lia. unfold h3. apply list_lookup_insert_eq. lia. }
  set (web := match assoc_get kvs1 "webserver" with
              | Some v => v | None => VRef (length h3) end).
  set (attrs := assoc_set (assoc_set [] "logger" (VLogger lg)) "webserver" web).
  set (h5 := <[self := OInst c attrs]> (h3 ++ [ODict []])).
  assert (Hlen5 : length h5 = S (length h2)).
  { unfold h5. rewrite length_insert, length_app. simpl. lia. }
  assert (Hold5 : forall l, l < length h2 -> l <> self -> h5 !! l = h2 !! l).
  { intros l Hl Hne. unfold h5. rewrite list_lookup_insert_ne by done.
    rewrite lookup_app_l by lia. unfold h3. by rewrite list_lookup_insert_ne. }
  assert (Hself5 : h5 !! self = Some (OInst c attrs)).
  { unfold h5. apply list_lookup_insert_eq. rewrite length_app. simpl. lia. }
  assert (Hrep5 : repr h5 (VRef lc) (TDict items1) ({[lc]} ∪ Fi1)).
  { eapply repr_frame; [exact Hrep2|]. intros l Hl.
    apply Hold5; [by apply Hvalid2|by apply HF1]. }
  apply returns_bind.
  eapply (resolve_refines domain (VRef lc) "domain" (VStr "127.0.0.1")
            (TStr "127.0.0.1") items1 h5 _); [done..|].
  intros d Hfd. apply returns_bind.
  eapply (resolve_refines port (VRef lc) "port" (VInt 80) (TInt 80) items1 h5 _);
    [done..|].
  intros p Hfp. apply returns_bind.
  rewrite <- Hfd, <- Hfp in Hwork.
  destruct (set_domain_and_port_tree_dict _ _ _ _ _ Hwork) as [items2 ->].
  eapply returns_mono;
    [eapply (set_domain_and_port_entries URIS d p items1 items2 fuel h5 lc);
       [done|done|lia]|].
  intros r h6 (-> & (kvs & kvs' & Hk5 & Hk6 & Hall)
               & F2 & Hrep6 & Hlen6 & Hframe6 & Hsub6).
  apply returns_ret.
  assert (kvs = kvs1) as ->.
  { rewrite Hold5 in Hk5; [|by eapply lookup_lt_Some|done]. congruence. }
  inversion Hrep6 as [| | | | |lc' kvs6 kts6 Fi6 Hlc6 Hnd6 Hitems6 Hlc_notin6];
    subst.
  assert (kvs6 = kvs') as -> by congruence.
  assert (Hsame : assoc_get kvs' "webserver" = assoc_get kvs1 "webserver").
  { apply (assoc_get_Forall2_eq _ _ _ "webserver" Hall).
    intros v x [Hkeep _]. apply Hkeep. by apply (bool_decide_unpack _). }
  exists ({[lc]} ∪ Fi6), lg, web, kvs'. split_and!; try done.
  - rewrite Hframe6; [done|lia|]. intros Hin. by apply HF1 in Hin.
  - simpl. by rewrite Hlc6.
  - rewrite Hsame. unfold web.
    destruct (assoc_get kvs1 "webserver") as [w|]; [done|].
    exists (length h3). split_and!; [done|lia| |].
    + intros [Hin|Hin]%Hsub6; [apply Hvalid2 in Hin|]; lia.
    + rewrite Hframe6; [|lia|intros Hin%Hvalid2; lia].
      unfold h5. rewrite list_lookup_insert_ne by lia.
      by apply list_lookup_middle.
Qed.

(** X12. [Configuration] returns an object, without an exception, for every
    well-formed configuration when no entity descriptors are given, and
    the object has exactly the attributes [logger] and [webserver], in
    this order.  The attribute [webserver] is the value that the
    caller's mapping holds under that key; when the mapping has no such
    key, it is a new empty mapping that is not part of the caller's
    tree. *)
Theorem Configuration_returns fuel cwd conf entity_conf base_path
    domain port file_attributes items h0 F d p :
  repr h0 conf (TDict items) F ->
  paths_typed (default DEFAULT_FILE_ATTRIBUTE_NAMES file_attributes)
    (TDict items) = true ->
  (forall key, key ∈ URIS ->
     key ∉ default DEFAULT_FILE_ATTRIBUTE_NAMES file_attributes) ->
  "domain" ∉ default DEFAULT_FILE_ATTRIBUTE_NAMES file_attributes ->
  "port" ∉ default DEFAULT_FILE_ATTRIBUTE_NAMES file_attributes ->
  uris_all plain_template URIS (TDict items) ->
  is_scalar domain = true -> is_scalar port = true ->
  resolve_tree domain (TDict items) "domain" (TStr "127.0.0.1") = Some d ->
  resolve_tree port (TDict items) "port" (TInt 80) = Some p ->
  brace_free d = true -> brace_free p = true ->
  height (TDict items) < fuel ->
  default [] entity_conf = [] ->
  exists h' lg web F2,
    Configuration fuel cwd conf entity_conf base_path file_attributes
      domain port h0 = Ok (VRef (length h0)) h' /\
    Base_items (length h0) h'
    = Ok [("logger", VLogger lg); ("webserver", web)] h' /\
    (exists t2, repr h' conf t2 F2) /\
    match entry_of h' conf "webserver" with
    | Some w => web = w
    | None =>
        exists q, web = VRef q /\ length h0 < q /\ q ∉ F2 /\
                  h' !! q = Some (ODict [])
    end.
Proof.
  intros Hrep Hty Hdisj Hdn Hpn Hall Hd Hp Hrd Hrp Hbd Hbp Hfuel Hnone.
  destruct (working_tree_Done base_path file_attributes domain port items d p
              Hty Hdisj Hdn Hpn Hall Hrd Hrp Hbd Hbp) as [t2 Hwork].
  destruct fuel as [|fuel]; [lia|].
  pose proof (Configuration_prepare_attrs fuel CConfiguration conf base_path
                domain port file_attributes items t2 h0 F Hrep Hwork Hd Hp
                ltac:(lia)) as Hprep.
  unfold returns in Hprep.
  destruct (Configuration_prepare fuel (length h0) conf base_path
              file_attributes domain port (h0 ++ [OInst CConfiguration []]))
    as [dp h'| | |] eqn:Hrun; try done.
  destruct Hprep as (F2 & lg & web & kvs & Hrep' & Hself & Hentry & Hweb).
  exists h', lg, web, F2. split_and!.
  - unfold Configuration, bind, alloc.
    rewrite Configuration_init_stages. unfold bind. rewrite Hrun.
    by destruct entity_conf as [[|]|].
  - rewrite (Base_items_run _ _ _ _ Hself); [done|].
    apply (bool_decide_unpack _). by vm_compute.
  - by exists t2.
  - by rewrite Hentry.
Qed.

Lemma Configuration_returns_witness :
  exists h' lg web F2,
    Configuration 4 "/srv/op" sample_ref None "/etc/idp" None (VStr "")
      (VInt 0) sample_heap = Ok (VRef (length sample_heap)) h' /\
    Base_items (length sample_heap) h'
    = Ok [("logger", VLogger lg); ("webserver", web)] h' /\
    (exists t2, repr h' sample_ref t2 F2) /\
    match entry_of h' sample_ref "webserver" with
    | Some w => web = w
    | None =>
        exists q, web = VRef q /\ length sample_heap < q /\ q ∉ F2 /\
                  h' !! q = Some (ODict [])
    end.
Proof.
  destruct sample_objects as [F HF].
  refine (Configuration_returns 4 "/srv/op" sample_ref None "/etc/idp"
            (VStr "") (VInt 0) None _ sample_heap F "127.0.0.1" "80"
            HF eq_refl _ _ _ sample_plain eq_refl eq_refl eq_refl eq_refl
            eq_refl eq_refl ltac:(vm_compute; lia) eq_refl).
  - intros key Hkey. unfold URIS in Hkey.
    apply elem_of_cons in Hkey as [->|Hkey];
      [apply (bool_decide_unpack _); by vm_compute|].
    apply elem_of_cons in Hkey as [->|Hkey];
      [apply (bool_decide_unpack _); by vm_compute|].
    by apply elem_of_nil in Hkey.
  - apply (bool_decide_unpack _). by vm_compute.
  - apply (bool_decide_unpack _). by vm_compute.
Defined.

(** ** The provider-level builder: a template directory that is not a string *)

Lemma working_tree_get_plain base_path file_attributes domain port items t2
    key x :
  working_tree base_path file_attributes domain port (TDict items) = Done t2 ->
  key ∉ default DEFAULT_FILE_ATTRIBUTE_NAMES file_attributes \/ base_path = "" ->
  key ∉ URIS ->
  (forall sub, x <> TDict sub) ->
  tree_get (TDict items) key = Some x ->
  tree_get t2 key = Some x.
Proof.
  intros Hwork Hkey Huri Hx Hget. unfold working_tree, rbind in Hwork.
  destruct (base_tree _ _ _) as [t1| |] eqn:Hbase; [|done..].
  assert (Hget1 : tree_get t1 key = Some x).
  { destruct Hkey as [Hkey| ->]; [by eapply base_tree_get_other|].
    unfold base_tree in Hbase. simpl in Hbase. by injection Hbase as <-. }
  destruct t1 as [| | | | |items1]; try done.
  simpl in Hwork. unfold rmap, rbind in Hwork.
  destruct (map_entries _ items1) as [items2| |] eqn:Hmap; [|done..].
  injection Hwork as <-. simpl in *.
  destruct (map_entries_get _ _ _ _ _ Hmap Hget1) as (x2 & Hf & ->).
  unfold set_domain_and_port_value in Hf.
  rewrite bool_decide_eq_false_2 in Hf by done.
  destruct x; try (by injection Hf as <-). by destruct (Hx items0).
Qed.

(** X13. A [template_dir] that is truthy and not a string -- a number, a
    sequence -- makes the build fail with [TypeError]: the value passes
    the two in-place passes and the merge of the defaults, and
    [os.path.abspath] refuses it at the very end.  The failure leaves
    every object of the caller as it was.  (This is the case of an
    empty base path, or of file attributes that do not name
    [template_dir]: otherwise [add_base_path] has already raised
    [AttributeError].) *)
Theorem OPConfiguration_template_dir_not_a_string fuel cwd conf base_path
    entity_conf domain port file_attributes items t2 defaults h0 F x :
  repr h0 conf (TDict items) F ->
  defaults_of h0 = Some defaults ->
  working_tree base_path file_attributes domain port (TDict items) = Done t2 ->
  is_scalar domain = true -> is_scalar port = true ->
  height (TDict items) < fuel ->
  "template_dir" ∉ default DEFAULT_FILE_ATTRIBUTE_NAMES file_attributes
    \/ base_path = "" ->
  tree_get (TDict items) "template_dir" = Some x ->
  truthy_tree x = true ->
  (forall s, x <> TStr s) -> (forall sub, x <> TDict sub) ->
  exists h',
    OPConfiguration fuel cwd conf base_path entity_conf domain port
      file_attributes h0 = Raise TypeError h' /\
    forall l, l < length h0 -> h' !! l = h0 !! l.
Proof.
  intros Hrep Hdef Hwork Hd Hp Hfuel Hfa Hraw Htruthy Hnstr Hndict.
  assert (Hget2 : tree_get t2 "template_dir" = Some x).
  { eapply working_tree_get_plain; try done.
    intros Hin. by apply (bool_decide_pack _) in Hin. }
  destruct (working_tree_dict _ _ _ _ _ _ Hwork) as [items2 ->].
  pose proof (OP_working_copy_spec fuel COPConfiguration conf base_path domain
                port file_attributes items (TDict items2) h0 F
                Hrep Hwork Hd Hp Hfuel) as Hcopy.
  apply returns_inv in Hcopy
    as (cp & h5 & Hcopy & F2 & attrs & Hcp & HF2 & Hlen5 & Hframe5 & Hself5
        & Hnames & Hph).
  inversion Hcp as [| | | | |lc kvs kts0 F0 Hlc Hndk Hitems HlcF]; subst.
  set (self := length h0) in *.
  assert (Hlcs : lc <> self).
  { intros ->. assert (self < self); [apply HF2; set_solver|lia]. }
  destruct (defaults_of_loc _ _ Hdef) as (ld & Hld & Hdefl).
  assert (Hldlt : ld < self) by (by eapply lookup_lt_Some).
  assert (Hdef5 : defaults_of h5 = Some defaults).
  { unfold defaults_of. rewrite Hld. by rewrite Hframe5, Hdefl. }
  assert (Hvals : forall key l,
            default VNone (assoc_get kvs key) = VRef l ->
            l <> self /\ is_Some (h5 !! l)).
  { intros key l Hv. destruct (assoc_get kvs key) as [v|] eqn:Hget; [|done].
    simpl in Hv. subst v.
    destruct (repr_items_value_ref _ _ _ _ _ _ Hitems Hget) as [Hin Hsome].
    split; [|done]. intros ->.
    assert (self < self); [apply HF2; set_solver|lia]. }
  assert (Hnd : NoDup (map fst ([] ++ attrs))).
  { simpl. rewrite Hnames. apply OP_SCHEMA_NoDup. }
  assert (Hplain : Forall (fun key => key ∉ DATA_DESCRIPTORS) (map fst attrs))
    by (rewrite Hnames; apply OP_SCHEMA_plain).
  pose proof (OP_merge_loop self COPConfiguration lc kvs defaults attrs [] h5
                Hself5 Hnd Hplain Hlc Hlcs Hdef5 Hvals) as Hloop.
  simpl in Hloop.
  set (attrs6 := merge_attrs h5 kvs defaults attrs) in *.
  set (h6 := <[self := OInst COPConfiguration attrs6]> h5) in *.
  assert (Hselflt : self < length h5) by (by eapply lookup_lt_Some).
  assert (Hself6 : h6 !! self = Some (OInst COPConfiguration attrs6)).
  { unfold h6. by apply list_lookup_insert_eq. }
  assert (exists old_td, assoc_get attrs "template_dir" = Some old_td)
    as [old_td Hold].
  { destruct (assoc_get attrs "template_dir") eqn:Hg; [by eexists|].
    apply assoc_get_None_notin in Hg. rewrite Hnames in Hg.
    exfalso. apply Hg. apply (bool_decide_unpack _). vm_compute. exact I. }
  assert (Htd6 : assoc_get attrs6 "template_dir"
                 = Some (merged h5 kvs defaults "template_dir" old_td)).
  { unfold attrs6. by rewrite assoc_get_merge_attrs, Hold. }
  assert (Hbad : exists v, merged h5 kvs defaults "template_dir" old_td = v /\
                           v <> VNone /\ forall s, v <> VStr s).
  { unfold merged. simpl in Hget2.
    pose proof (repr_items_get _ _ _ _ "template_dir" Hitems) as Hget.
    rewrite Hget2 in Hget. destruct Hget as (v & Fx & -> & Hv & _). simpl.
    rewrite (repr_truthy_in _ _ _ _ Hv), Htruthy.
    exists v. split; [done|].
    inversion Hv; subst; try done. split; [done|]. intros s' [= <-].
    by destruct (Hnstr s). }
  destruct Hbad as (v & Hv & Hnone & Hstr).
  pose proof (OP_template_dir_run cwd self COPConfiguration attrs6 h6 _
                Hself6 Htd6) as Hrun_td.
  rewrite Hv in Hrun_td.
  exists h6. split.
  - unfold OPConfiguration, bind at 1, alloc.
    unfold bind at 1. rewrite OPConfiguration_init_stages.
    unfold bind at 1. fold self. rewrite Hcopy.
    unfold bind at 1, attr_names, bind at 1, load. rewrite Hself5. cbn [ret].
    unfold bind at 1. rewrite Hloop. rewrite Hrun_td.
    destruct v; try done. by destruct (Hstr s).
  - intros l Hl. unfold h6. rewrite list_lookup_insert_ne by (unfold self; lia).
    by apply Hframe5.
Qed.

Lemma OPConfiguration_template_dir_not_a_string_witness :
  let h0 := module_heap ++ [ODict [("template_dir", VInt 5)]] in
  exists h',
    OPConfiguration 3 "/srv/op" (VRef 30) "" None (VStr "") (VInt 0) None h0
    = Raise TypeError h' /\
    forall l, l < length h0 -> h' !! l = h0 !! l.
Proof.
  intros h0.
  assert (exists F, repr h0 (VRef 30) (TDict [("template_dir", TInt 5)]) F)
    as [F HF].
  { eexists. unfold h0. repr_solve. }
  destruct sample_defaults as (defaults & _ & Hdef0).
  assert (Hdef : defaults_of h0 = Some defaults) by exact Hdef0.
  assert (Hdef' := Hdef). vm_compute in Hdef'. injection Hdef' as <-.
  refine (OPConfiguration_template_dir_not_a_string 3 "/srv/op" (VRef 30) ""
            None (VStr "") (VInt 0) None _
            (TDict [("template_dir", TInt 5)]) _ h0 F (TInt 5)
            HF Hdef eq_refl eq_refl eq_refl ltac:(vm_compute; lia)
            (or_intror eq_refl) eq_refl eq_refl _ _); discriminate.
Defined.


(** ** Building twice from the same tree *)

(** Template substitution does not disturb a path-resolved tree: when
    no URI key is a file attribute, a tree that path resolution leaves
    as it is stays such a tree after the substitution. *)
Lemma add_base_path_tree_after_substitution base_path file_attributes
    domain port t1 t2 :
  (forall key, key ∈ URIS -> key ∉ file_attributes) ->
  add_base_path_tree base_path file_attributes t1 = Done t1 ->
  set_domain_and_port_tree URIS domain port t1 = Done t2 ->
  add_base_path_tree base_path file_attributes t2 = Done t2.
Proof.
  intros Hdisj. revert t2.
  induction t1 as [| | | | |items IH] using tree_ind; intros t2 Hfix Hsdp;
    try done.
  simpl in Hfix, Hsdp. unfold rmap, rbind in Hfix, Hsdp.
  destruct (map_entries (add_base_path_value _ _ _) items)
    as [items1| |] eqn:Hmap1; [|done..].
  injection Hfix as ->.
  destruct (map_entries (set_domain_and_port_value _ _ _ _) items)
    as [items2| |] eqn:Hmap2; [|done..].
  injection Hsdp as <-. simpl. unfold rmap, rbind.
  enough (map_entries
            (add_base_path_value (add_base_path_tree base_path file_attributes)
               base_path file_attributes) items2 = Done items2) as -> by done.
  revert items2 Hmap1 Hmap2.
  induction IH as [|[key v] items Hv _ IHitems]; intros items2 Hmap1 Hmap2.
  - by injection Hmap2 as <-.
  - apply map_entries_cons_inv in Hmap1 as (v1 & rest1 & Hf1 & Hmap1 & Heq).
    injection Heq as <- <-.
    apply map_entries_cons_inv in Hmap2 as (v2 & rest2 & Hf2 & Hmap2 & ->).
    specialize (IHitems _ Hmap1 Hmap2). simpl in Hv.
    simpl. rewrite IHitems.
    unfold add_base_path_value, set_domain_and_port_value in *.
    destruct (bool_decide (key ∈ URIS)) eqn:Huri.
    + apply bool_decide_eq_true in Huri.
      rewrite bool_decide_eq_false_2 by (by apply Hdisj).
      destruct v as [| | |s|elems|]; try done.
      * destruct (format_from _ _ _ _); try done.
        simpl in Hf2. by injection Hf2 as <-.
      * destruct (format_elems _ _ _); try done.
        simpl in Hf2. by injection Hf2 as <-.
    + destruct (bool_decide (key ∈ file_attributes)) eqn:Hfa.
      * destruct v as [| | |s| |]; try done.
        injection Hf2 as <-. injection Hf1 as Hs. by rewrite Hs.
      * destruct v as [| | | | |sub]; try (by injection Hf2 as <-).
        destruct (set_domain_and_port_tree_dict _ _ _ _ _ Hf2) as [sub2 ->].
        by rewrite (Hv _ Hf1 Hf2).
Qed.

Lemma set_domain_and_port_tree_get uris domain port items t2 key :
  set_domain_and_port_tree uris domain port (TDict items) = Done t2 ->
  key ∉ uris ->
  match tree_get (TDict items) key with
  | None => tree_get t2 key = None
  | Some (TDict _) => exists sub, tree_get t2 key = Some (TDict sub)
  | Some x => tree_get t2 key = Some x
  end.
Proof.
  intros Hsdp Hkey. simpl in Hsdp. unfold rmap, rbind in Hsdp.
  destruct (map_entries _ items) as [items2| |] eqn:Hmap; [|done..].
  injection Hsdp as <-. simpl.
  destruct (assoc_get items key) as [x|] eqn:Hget.
  - destruct (map_entries_get _ _ _ _ _ Hmap Hget) as (x2 & Hf & ->).
    unfold set_domain_and_port_value in Hf.
    rewrite bool_decide_eq_false_2 in Hf by done.
    destruct x as [| | | | |sub]; try (by injection Hf as <-).
    destruct (set_domain_and_port_tree_dict _ _ _ _ _ Hf) as [sub2 ->]. eauto.
  - eapply assoc_get_None_keys; [|done]. by eapply map_entries_keys.
Qed.

Lemma set_domain_and_port_tree_resolve domain port items t2 x name fallback :
  set_domain_and_port_tree URIS domain port (TDict items) = Done t2 ->
  name ∉ URIS ->
  resolve_tree x t2 name fallback = resolve_tree x (TDict items) name fallback.
Proof.
  intros Hsdp Hname. unfold resolve_tree.
  destruct (truthy_scalar x); [done|].
  pose proof (set_domain_and_port_tree_get _ _ _ _ _ name Hsdp Hname) as Hget.
  destruct (tree_get (TDict items) name) as [[| | | | |sub]|];
    try (by rewrite Hget).
  by destruct Hget as [sub' ->].
Qed.

(** The working tree of a well-formed configuration is its own working
    tree, when the base path is absolute and no file attribute is
    empty. *)
Lemma working_tree_twice base_path file_attributes domain port items d p :
  paths_given (default DEFAULT_FILE_ATTRIBUTE_NAMES file_attributes)
    (TDict items) = true ->
  startswith base_path "/" = true ->
  (forall key, key ∈ URIS ->
     key ∉ default DEFAULT_FILE_ATTRIBUTE_NAMES file_attributes) ->
  "domain" ∉ default DEFAULT_FILE_ATTRIBUTE_NAMES file_attributes ->
  "port" ∉ default DEFAULT_FILE_ATTRIBUTE_NAMES file_attributes ->
  uris_all plain_template URIS (TDict items) ->
  resolve_tree domain (TDict items) "domain" (TStr "127.0.0.1") = Some d ->
  resolve_tree port (TDict items) "port" (TInt 80) = Some p ->
  brace_free d = true -> brace_free p = true ->
  exists items2,
    working_tree base_path file_attributes domain port (TDict items)
    = Done (TDict items2) /\
    working_tree base_path file_attributes domain port (TDict items2)
    = Done (TDict items2) /\
    height (TDict items2) ≤ height (TDict items).
Proof.
  intros Hg Habs Hdisj Hdn Hpn Hall Hrd Hrp Hbd Hbp.
  pose proof (paths_given_typed _ _ Hg) as Hty.
  destruct (base_tree_Done base_path file_attributes _ Hty) as [t1 Hbase].
  destruct (base_tree_dict _ _ _ _ Hbase) as [[items1 ->] Hh1].
  pose proof (base_tree_uris_all _ _ _ _ _ Hdisj Hall Hbase) as Hall1.
  destruct (set_domain_and_port_tree_plain URIS d p _ Hall1 Hbd Hbp)
    as (t2 & Hsdp & Hfree & Hh2).
  destruct (set_domain_and_port_tree_dict _ _ _ _ _ Hsdp) as [items2 ->].
  pose proof (base_tree_resolve _ _ _ _ domain _ (TStr "127.0.0.1") Hbase Hdn)
    as Hd1.
  pose proof (base_tree_resolve _ _ _ _ port _ (TInt 80) Hbase Hpn) as Hp1.
  assert (Hbase2 : base_tree base_path file_attributes (TDict items2)
                   = Done (TDict items2)).
  { unfold base_tree in *. cbv zeta in *. destruct (_ && _); [|done].
    eapply add_base_path_tree_after_substitution; [done| |done].
    by eapply add_base_path_tree_twice. }
  assert (Hnd : "domain" ∉ URIS)
    by (intros Hin; by apply (bool_decide_pack _) in Hin).
  assert (Hnp : "port" ∉ URIS)
    by (intros Hin; by apply (bool_decide_pack _) in Hin).
  exists items2. split_and!.
  - unfold working_tree, rbind. rewrite Hbase, Hd1, Hp1, Hrd, Hrp. done.
  - unfold working_tree, rbind. rewrite Hbase2.
    rewrite (set_domain_and_port_tree_resolve _ _ _ _ _ _ _ Hsdp Hnd).
    rewrite (set_domain_and_port_tree_resolve _ _ _ _ _ _ _ Hsdp Hnp).
    rewrite Hd1, Hp1, Hrd, Hrp.
    by apply set_domain_and_port_tree_brace_free.
  - lia.
Qed.

(** X14. Reusing a tree for a second build without entity descriptors
    is harmless under these conditions: the base path is absolute; the
    file attributes of the tree are strings that are not empty; the URI
    keys, [domain] and [port] are not file attributes; the URI values
    are plain templates; the arguments [domain] and [port] are scalars;
    and the domain and the port that the build substitutes are rendered
    without braces.  Then [Configuration], which works on the caller's
    tree, leaves after a second call with the same arguments the very
    tree that the first call produced. *)
Theorem Configuration_twice fuel cwd conf entity_conf base_path domain port
    file_attributes items h0 F d p :
  repr h0 conf (TDict items) F ->
  paths_given (default DEFAULT_FILE_ATTRIBUTE_NAMES file_attributes)
    (TDict items) = true ->
  startswith base_path "/" = true ->
  (forall key, key ∈ URIS ->
     key ∉ default DEFAULT_FILE_ATTRIBUTE_NAMES file_attributes) ->
  "domain" ∉ default DEFAULT_FILE_ATTRIBUTE_NAMES file_attributes ->
  "port" ∉ default DEFAULT_FILE_ATTRIBUTE_NAMES file_attributes ->
  uris_all plain_template URIS (TDict items) ->
  is_scalar domain = true -> is_scalar port = true ->
  resolve_tree domain (TDict items) "domain" (TStr "127.0.0.1") = Some d ->
  resolve_tree port (TDict items) "port" (TInt 80) = Some p ->
  brace_free d = true -> brace_free p = true ->
  height (TDict items) < fuel ->
  default [] entity_conf = [] ->
  exists t2 h1 F1 h2 F2,
    Configuration fuel cwd conf entity_conf base_path file_attributes
      domain port h0 = Ok (VRef (length h0)) h1 /\
    repr h1 conf t2 F1 /\
    Configuration fuel cwd conf entity_conf base_path file_attributes
      domain port h1 = Ok (VRef (length h1)) h2 /\
    repr h2 conf t2 F2.
Proof.
  intros Hrep Hg Habs Hdisj Hdn Hpn Hall Hd Hp Hrd Hrp Hbd Hbp Hfuel Hnone.
  destruct (working_tree_twice base_path file_attributes domain port items d p
              Hg Habs Hdisj Hdn Hpn Hall Hrd Hrp Hbd Hbp)
    as (items2 & Hw1 & Hw2 & Hh).
  destruct (Configuration_on_tree fuel cwd conf entity_conf base_path domain
              port file_attributes items _ h0 F Hrep Hw1 Hd Hp Hfuel Hnone)
    as (h1 & F1 & attrs1 & lc1 & kvs1 & Fi1 & Hrun1 & Hrep1 & _).
  destruct (Configuration_on_tree fuel cwd conf entity_conf base_path domain
              port file_attributes items2 _ h1 F1 Hrep1 Hw2 Hd Hp
              ltac:(lia) Hnone)
    as (h2 & F2 & attrs2 & lc2 & kvs2 & Fi2 & Hrun2 & Hrep2 & _).
  by exists (TDict items2), h1, F1, h2, F2.
Qed.

Lemma Configuration_twice_witness :
  let t := TDict [("issuer", TStr "https://{domain}:{port}");
                  ("keys", TDict [("private_path", TStr "jwks.json")])] in
  let h0 := [ODict [("private_path", VStr "jwks.json")];
             ODict [("issuer", VStr "https://{domain}:{port}");
                    ("keys", VRef 0)]] in
  exists t2 h1 F1 h2 F2,
    Configuration 3 "/srv/op" (VRef 1) None "/etc/idp" None
      (VStr "op.example") (VInt 443) h0 = Ok (VRef (length h0)) h1 /\
    repr h1 (VRef 1) t2 F1 /\
    Configuration 3 "/srv/op" (VRef 1) None "/etc/idp" None
      (VStr "op.example") (VInt 443) h1 = Ok (VRef (length h1)) h2 /\
    repr h2 (VRef 1) t2 F2.
Proof.
  intros t h0.
  assert (exists F, repr h0 (VRef 1) t F) as [F HF].
  { eexists. unfold h0, t. repr_solve. }
  refine (Configuration_twice 3 "/srv/op" (VRef 1) None "/etc/idp"
            (VStr "op.example") (VInt 443) None _ h0 F "op.example" "443"
            HF eq_refl eq_refl _ _ _ _ eq_refl eq_refl eq_refl eq_refl
            eq_refl eq_refl ltac:(vm_compute; lia) eq_refl).
  - intros key Hkey. unfold URIS in Hkey.
    apply elem_of_cons in Hkey as [->|Hkey];
      [apply (bool_decide_unpack _); by vm_compute|].
    apply elem_of_cons in Hkey as [->|Hkey];
      [apply (bool_decide_unpack _); by vm_compute|].
    by apply elem_of_nil in Hkey.
  - apply (bool_decide_unpack _). by vm_compute.
  - apply (bool_decide_unpack _). by vm_compute.
  - simpl. split_and!; try done.
    apply (plain_text "h"), (plain_text "t"), (plain_text "t"),
      (plain_text "p"), (plain_text "s"), (plain_text ":"),
      (plain_text "/"), (plain_text "/"); try done.
    apply plain_domain, (plain_text ":"); try done.
    apply plain_port, plain_end.
Defined.

(** ** The entity attacher: the instance that is assigned *)

Lemma repr_objects_all h :
  (forall v t F, repr h v t F ->
     forall l c attrs, l ∈ F -> h !! l <> Some (OInst c attrs)) /\
  (forall vs ts F, repr_elems h vs ts F ->
     forall l c attrs, l ∈ F -> h !! l <> Some (OInst c attrs)) /\
  (forall kvs kts F, repr_items h kvs kts F ->
     forall l c attrs, l ∈ F -> h !! l <> Some (OInst c attrs)).
Proof.
  apply repr_mutind; intros; set_unfold; naive_solver.
Qed.

(** An instance is not an object of a configuration tree. *)
Lemma repr_not_instance h v t F l c attrs :
  repr h v t F -> h !! l = Some (OInst c attrs) -> l ∉ F.
Proof.
  intros Hrep Hl Hin.
  by apply (proj1 (repr_objects_all h) v t F Hrep l c attrs Hin).
Qed.

Lemma attach_entity_run instantiate self conf (d : econf) _cnf _attr _cls h :
  designates conf d h _cnf ->
  e_attr d = Some _attr ->
  e_class d = Some _cls ->
  attach_entity instantiate self conf d h
  = bind (instantiate _cls _cnf) (fun entity => setattr self _attr entity) h.
Proof.
  intros Hpath Ha Hc. rewrite attach_entity_located.
  assert (match e_path d with
          | None | Some [] => ret conf
          | Some _path => walk conf _path
          end h = Ok _cnf h) as Hloc.
  { unfold designates in Hpath. destruct (e_path d) as [[|step path]|]; by subst. }
  unfold bind at 1. rewrite Hloc, Ha, Hc. done.
Qed.

(** A round of the loop for the class [OPConfiguration]. *)
Lemma attach_OPConfiguration fuel cwd self conf base_path file_attributes
    domain port (d : econf) _cnf _attr c attrs items t2 defaults td h F :
  designates conf d h _cnf ->
  e_attr d = Some _attr ->
  e_class d = Some COPConfiguration ->
  _attr ∉ DATA_DESCRIPTORS ->
  h !! self = Some (OInst c attrs) ->
  repr h _cnf (TDict items) F ->
  defaults_of h = Some defaults ->
  working_tree base_path file_attributes domain port (TDict items) = Done t2 ->
  is_scalar domain = true -> is_scalar port = true ->
  template_dir_of cwd t2 defaults = Some td ->
  height (TDict items) < fuel ->
  exists h' eattrs,
    attach_entity (entity_class fuel cwd base_path file_attributes domain port)
      self conf d h = Ok tt h' /\
    h' !! self = Some (OInst c (assoc_set attrs _attr (VRef (length h)))) /\
    (forall l, l < length h -> l <> self -> h' !! l = h !! l) /\
    h' !! length h = Some (OInst COPConfiguration eattrs) /\
    map fst eattrs = OP_SCHEMA /\
    assoc_get eattrs "template_dir" = Some (VStr td) /\
    forall key, key ∈ OP_SCHEMA -> key <> "template_dir" ->
      (falsy_at t2 key = false ->
       exists v x Fx,
         tree_get t2 key = Some x /\ assoc_get eattrs key = Some v /\
         repr h' v x Fx) /\
      (falsy_at t2 key = true ->
       forall dv, assoc_get defaults key = Some dv ->
                  assoc_get eattrs key = Some dv).
Proof.
  intros Hpath Ha Hc Hplain Hself Hrep Hdef Hwork Hd Hp Htd Hfuel.
  destruct (OPConfiguration_on_tree fuel cwd _cnf base_path None domain
              port file_attributes items t2 defaults td h F
              Hrep Hdef Hwork Hd Hp Htd Hfuel)
    as (h1 & lc & kvs & F2 & eattrs & Hrun & Hframe & Hnew & Hnames & Hcp
        & HF2 & Hlc & Htdattr & Hattrs).
  assert (Hlt : self < length h) by (by eapply lookup_lt_Some).
  assert (Hlt1 : length h < length h1) by (by eapply lookup_lt_Some).
  assert (Hself1 : h1 !! self = Some (OInst c attrs))
    by (by rewrite Hframe).
  set (h' := <[self := OInst c (assoc_set attrs _attr (VRef (length h)))]> h1).
  exists h', eattrs. split_and!.
  - rewrite (attach_entity_run _ _ _ _ _ _ _ _ Hpath Ha Hc).
    unfold bind.
    change (entity_class fuel cwd base_path file_attributes domain port
              COPConfiguration _cnf h)
      with (OPConfiguration fuel cwd _cnf base_path None domain port
              file_attributes h).
    rewrite Hrun. by apply setattr_run.
  - unfold h'. apply list_lookup_insert_eq. lia.
  - intros l Hl Hne. unfold h'. rewrite list_lookup_insert_ne by done.
    by apply Hframe.
  - unfold h'. rewrite list_lookup_insert_ne by lia. done.
  - done.
  - done.
  - intros key Hkey Hnt.
    destruct (working_tree_dict _ _ _ _ _ _ Hwork) as [items2 ->].
    assert (exists F0, repr_items h1 kvs items2 F0 /\ F0 ⊆ F2)
      as (F0 & Hitems & HF0).
    { inversion Hcp; subst. rewrite Hlc in *. simplify_eq.
      eexists. split; [done|set_solver]. }
    destruct (Hattrs key Hkey Hnt) as (old & Hold & Hattr).
    pose proof (repr_items_get _ _ _ _ key Hitems) as Hget.
    unfold falsy_at, merged in *. simpl in *.
    destruct (assoc_get items2 key) as [x|].
    + destruct Hget as (v & Fx & Hv & Hrv & HFx). rewrite Hv in Hattr.
      simpl in Hattr. rewrite (repr_truthy_in _ _ _ _ Hrv) in Hattr.
      split.
      * intros Hx. apply negb_false_iff in Hx. rewrite Hx in Hattr.
        exists v, x, Fx. split_and!; [done..|].
        eapply repr_frame; [done|]. intros l Hl. unfold h'.
        rewrite list_lookup_insert_ne; [done|].
        intros <-. assert (length h < self); [|lia].
        apply HF2. set_solver.
      * intros Hx dv Hdv. apply negb_true_iff in Hx.
        by rewrite Hx, Hdv in Hattr.
    + rewrite Hget in Hattr. simpl in Hattr. split; [done|].
      intros _ dv Hdv. by rewrite Hdv in Hattr.
Qed.

(** A round of the loop for the class [Configuration]: the sub-tree is
    path-resolved and substituted in place, and the new instance has a
    logger and the web server settings. *)
Lemma attach_Configuration fuel cwd self conf base_path file_attributes
    domain port (d : econf) _cnf _attr c attrs items t2 h F :
  designates conf d h _cnf ->
  e_attr d = Some _attr ->
  e_class d = Some CConfiguration ->
  _attr ∉ DATA_DESCRIPTORS ->
  h !! self = Some (OInst c attrs) ->
  repr h _cnf (TDict items) F ->
  working_tree base_path file_attributes domain port (TDict items) = Done t2 ->
  is_scalar domain = true -> is_scalar port = true ->
  height (TDict items) < fuel ->
  exists h' lg web F2,
    attach_entity (entity_class fuel cwd base_path file_attributes domain port)
      self conf d h = Ok tt h' /\
    h' !! self = Some (OInst c (assoc_set attrs _attr (VRef (length h)))) /\
    (forall l, l < length h -> l ∉ F -> l <> self -> h' !! l = h !! l) /\
    h' !! length h
    = Some (OInst CConfiguration [("logger", VLogger lg); ("webserver", web)]) /\
    repr h' _cnf t2 F2.
Proof.
  intros Hpath Ha Hc Hplain Hself Hrep Hwork Hd Hp Hfuel.
  destruct fuel as [|fuel]; [lia|].
  pose proof (Configuration_prepare_spec fuel CConfiguration _cnf base_path
                domain port file_attributes items t2 h F Hrep Hwork Hd Hp
                ltac:(lia)) as Hspec.
  pose proof (Configuration_prepare_attrs fuel CConfiguration _cnf base_path
                domain port file_attributes items t2 h F Hrep Hwork Hd Hp
                ltac:(lia)) as Hattrs.
  unfold returns in Hspec, Hattrs.
  destruct (Configuration_prepare fuel (length h) _cnf base_path
              file_attributes domain port (h ++ [OInst CConfiguration []]))
    as [dp h1| | |] eqn:Hrun; try done.
  destruct Hspec as (F2 & attrs1 & lc & kvs & Fi & Hrep1 & HF2 & Hlen1 & Hframe
                     & _).
  destruct Hattrs as (_ & lg & web & _ & _ & Hnew & _).
  assert (Hlt : self < length h) by (by eapply lookup_lt_Some).
  assert (HselfF : self ∉ F) by (by eapply repr_not_instance).
  assert (Hself1 : h1 !! self = Some (OInst c attrs))
    by (by rewrite Hframe).
  set (h' := <[self := OInst c (assoc_set attrs _attr (VRef (length h)))]> h1).
  exists h', lg, web, F2. split_and!.
  - rewrite (attach_entity_run _ _ _ _ _ _ _ _ Hpath Ha Hc).
    unfold bind.
    change (entity_class (S fuel) cwd base_path file_attributes domain port
              CConfiguration _cnf h)
      with (Configuration (S fuel) cwd _cnf None base_path file_attributes
              domain port h).
    assert (Configuration (S fuel) cwd _cnf None base_path file_attributes
              domain port h = Ok (VRef (length h)) h1) as ->.
    { unfold Configuration, bind, alloc.
      rewrite Configuration_init_stages. unfold bind. by rewrite Hrun. }
    by apply setattr_run.
  - unfold h'. apply list_lookup_insert_eq. lia.
  - intros l Hl HlF Hne. unfold h'. rewrite list_lookup_insert_ne by done.
    by apply Hframe.
  - unfold h'. rewrite list_lookup_insert_ne by lia. done.
  - eapply repr_frame; [done|]. intros l Hl. unfold h'.
    rewrite list_lookup_insert_ne; [done|]. intros <-.
    destruct (HF2 _ Hl) as [?|?]; [done|lia].
Qed.

(** The class [Base] cannot be the class of a descriptor: its
    [__init__] has no parameters [domain] and [port]. *)
Lemma attach_Base fuel cwd self conf base_path file_attributes domain port
    (d : econf) _cnf _attr h :
  designates conf d h _cnf ->
  e_attr d = Some _attr ->
  e_class d = Some CBase ->
  attach_entity (entity_class fuel cwd base_path file_attributes domain port)
    self conf d h = Raise TypeError (h ++ [OInst CBase []]).
Proof.
  intros Hpath Ha Hc.
  by rewrite (attach_entity_run _ _ _ _ _ _ _ _ Hpath Ha Hc).
Qed.

(** C8, as stated, fails in its last case: a descriptor with a path
    into the configuration, with [attr] and with [class] does not
    always get its attribute.  The class is called with the keyword
    arguments [base_path], [file_attributes], [domain] and [port]:
    [Base.__init__] has no [domain] and no [port], so the call raises
    [TypeError]; and [OPConfiguration] raises [AttributeError] when the
    path leads to a string, which has no [items].  In both runs the
    server configuration is left without the attribute. *)
Lemma entity_attacher_not_assigned :
  let h := [ODict [("issuer", VStr "https://{domain}")];
            ODict [("op", VRef 0)]] in
  let h' := [ODict [("issuer", VStr "https://example.com")];
             ODict [("op", VRef 0)];
             OInst CConfiguration
               [("logger", VLogger false); ("webserver", VRef 3)];
             ODict []] in
  Configuration 3 "/srv/op" (VRef 1)
    (Some [{| e_path := Some ["op"]; e_attr := Some "provider";
              e_class := Some CBase |}])
    "" None (VStr "example.com") (VInt 443) h
  = Raise TypeError (h' ++ [OInst CBase []]) /\
  Configuration 3 "/srv/op" (VRef 1)
    (Some [{| e_path := Some ["op"; "issuer"]; e_attr := Some "provider";
              e_class := Some COPConfiguration |}])
    "" None (VStr "example.com") (VInt 443) h
  = Raise AttributeError
      (h' ++ [OInst COPConfiguration
                [("add_on", VNone); ("authz", VNone); ("authentication", VNone);
                 ("base_url", VStr ""); ("capabilities", VNone);
                 ("cookie_handler", VNone); ("endpoint", VRef 5);
                 ("httpc_params", VRef 6); ("id_token", VNone);
                 ("issuer", VStr ""); ("keys", VNone);
                 ("login_hint2acrs", VRef 7); ("login_hint_lookup", VNone);
                 ("session_key", VNone); ("sub_func", VRef 8);
                 ("template_dir", VNone); ("token_handler_args", VRef 9);
                 ("userinfo", VNone)];
              ODict []; ODict []; ODict []; ODict []; ODict []]).
Proof. split; reflexivity. Qed.

(** C8 (amended). The server-level builder, after its preparation,
    treats the entity descriptors one after the other, in their order.
    For each it walks the path through the configuration key by key: a
    key missing from a mapping on the way raises [KeyError] (the
    [MissingConfigSection] of the description); a descriptor without
    [attr] or [class] raises [KeyError] too
    ([MalformedEntityDescriptor]).  Otherwise the class is called with
    the sub-tree and the base path, file attributes, domain and port of
    the parent build.  For the class [OPConfiguration] and a sub-tree
    that is a well-formed configuration, the attribute [attr] of the
    server configuration becomes a reference to the new object, and
    that object is the provider configuration of the sub-tree: it has
    the attributes of the schema, its template directory, and under
    every other name the entry of the sub-tree's working tree (resolved
    with the parent's base path and file attributes, substituted with
    the parent's domain and port) or, where that is falsy, the entry of
    the default table.  For the class [Configuration] the attribute
    becomes a reference to a new server configuration with a logger and
    the web server settings, and the sub-tree is resolved and
    substituted in place.  The class [Base] raises [TypeError].  The
    attribute name must not be [__weakref__], [__class__] or
    [__dict__].  A failing descriptor leaves the store as the
    descriptors before it left it: nothing is undone. *)
Theorem entity_attacher_contract fuel cwd self conf base_path file_attributes :
  (* the loop inside the builder *)
  (forall descriptor descriptors domain port h,
     Configuration_init (S fuel) cwd self conf
       (Some (descriptor :: descriptors)) base_path file_attributes domain port h
     = bind (Configuration_prepare fuel self conf base_path file_attributes
               domain port)
         (fun dp =>
            for_each (descriptor :: descriptors)
              (attach_entity
                 (entity_class fuel cwd base_path file_attributes
                    (fst dp) (snd dp))
                 self conf)) h) /\
  forall domain port,
    let attach :=
      attach_entity
        (entity_class fuel cwd base_path file_attributes domain port)
        self conf in
    (* in order *)
    (forall before (d : econf) after h h1,
       for_each before attach h = Ok tt h1 ->
       for_each (before ++ d :: after) attach h
       = bind (attach d) (fun _ => for_each after attach) h1) /\
    (* a missing key on the path *)
    (forall (d : econf) prefix key rest h l items,
       e_path d = Some (prefix ++ key :: rest) ->
       walk conf prefix h = Ok (VRef l) h ->
       h !! l = Some (ODict items) ->
       assoc_get items key = None ->
       attach d h = Raise KeyError h) /\
    (* a descriptor without [attr] or [class] *)
    (forall (d : econf) _cnf h,
       designates conf d h _cnf ->
       e_attr d = None \/ e_class d = None ->
       attach d h = Raise KeyError h) /\
    (* a provider configuration is built from the sub-tree and assigned *)
    (forall (d : econf) _cnf _attr c attrs items t2 defaults td h F,
       designates conf d h _cnf ->
       e_attr d = Some _attr ->
       e_class d = Some COPConfiguration ->
       _attr ∉ DATA_DESCRIPTORS ->
       h !! self = Some (OInst c attrs) ->
       repr h _cnf (TDict items) F ->
       defaults_of h = Some defaults ->
       working_tree base_path file_attributes domain port (TDict items)
       = Done t2 ->
       is_scalar domain = true -> is_scalar port = true ->
       template_dir_of cwd t2 defaults = Some td ->
       height (TDict items) < fuel ->
       exists h' eattrs,
         attach d h = Ok tt h' /\
         h' !! self
         = Some (OInst c (assoc_set attrs _attr (VRef (length h)))) /\
         (forall l, l < length h -> l <> self -> h' !! l = h !! l) /\
         h' !! length h = Some (OInst COPConfiguration eattrs) /\
         map fst eattrs = OP_SCHEMA /\
         assoc_get eattrs "template_dir" = Some (VStr td) /\
         forall key, key ∈ OP_SCHEMA -> key <> "template_dir" ->
           (falsy_at t2 key = false ->
            exists v x Fx,
              tree_get t2 key = Some x /\ assoc_get eattrs key = Some v /\
              repr h' v x Fx) /\
           (falsy_at t2 key = true ->
            forall dv, assoc_get defaults key = Some dv ->
                       assoc_get eattrs key = Some dv)) /\
    (* a server configuration is built on the sub-tree and assigned *)
    (forall (d : econf) _cnf _attr c attrs items t2 h F,
       designates conf d h _cnf ->
       e_attr d = Some _attr ->
       e_class d = Some CConfiguration ->
       _attr ∉ DATA_DESCRIPTORS ->
       h !! self = Some (OInst c attrs) ->
       repr h _cnf (TDict items) F ->
       working_tree base_path file_attributes domain port (TDict items)
       = Done t2 ->
       is_scalar domain = true -> is_scalar port = true ->
       height (TDict items) < fuel ->
       exists h' lg web F2,
         attach d h = Ok tt h' /\
         h' !! self
         = Some (OInst c (assoc_set attrs _attr (VRef (length h)))) /\
         (forall l, l < length h -> l ∉ F -> l <> self -> h' !! l = h !! l) /\
         h' !! length h
         = Some (OInst CConfiguration
                   [("logger", VLogger lg); ("webserver", web)]) /\
         repr h' _cnf t2 F2) /\
    (* the class [Base] *)
    (forall (d : econf) _cnf _attr h,
       designates conf d h _cnf ->
       e_attr d = Some _attr ->
       e_class d = Some CBase ->
       attach d h = Raise TypeError (h ++ [OInst CBase []])) /\
    (* no rollback *)
    (forall before (d : econf) after e h h1 h2,
       for_each before attach h = Ok tt h1 ->
       attach d h1 = Raise e h2 ->
       for_each (before ++ d :: after) attach h = Raise e h2).
Proof.
  split.
  { intros. apply Configuration_init_stages. }
  intros domain port attach. split_and!.
  - intros before d after h h1 Hbefore.
    rewrite for_each_app. unfold bind at 1. by rewrite Hbefore.
  - intros d prefix key rest h l items Hpath Hwalk Hl Hkey.
    unfold attach. rewrite attach_entity_located, Hpath.
    assert (walk conf (prefix ++ key :: rest) h = Raise KeyError h) as Hw
      by (by eapply walk_missing).
    destruct (prefix ++ key :: rest) as [|step path] eqn:Hp.
    { by destruct prefix. }
    unfold bind. by rewrite Hw.
  - intros d _cnf h Hpath Hmal.
    unfold attach. rewrite attach_entity_located.
    assert (match e_path d with
            | None | Some [] => ret conf
            | Some _path => walk conf _path
            end h = Ok _cnf h) as Hloc.
    { unfold designates in Hpath.
      destruct (e_path d) as [[|step path]|]; by subst. }
    unfold bind at 1. rewrite Hloc.
    destruct Hmal as [Ha|Hc].
    + by rewrite Ha.
    + rewrite Hc. by destruct (e_attr d).
  - intros. by eapply attach_OPConfiguration.
  - intros. by eapply attach_Configuration.
  - intros. by eapply attach_Base.
  - intros before d after e h h1 h2 Hbefore Hfail.
    rewrite for_each_app. unfold bind at 1. rewrite Hbefore.
    simpl. unfold bind. by rewrite Hfail.
Qed.


Lemma entity_attacher_contract_witness :
  let attach :=
    attach_entity
      (entity_class 5 "/srv/op" "/etc/idp" None (VStr "example.com") (VInt 443))
      sample_self sample_ref in
  attach sample_entity_missing sample_server_heap
  = Raise KeyError sample_server_heap /\
  attach sample_entity_malformed sample_server_heap
  = Raise KeyError sample_server_heap /\
  attach sample_entity_Base sample_server_heap
  = Raise TypeError (sample_server_heap ++ [OInst CBase []]) /\
  (exists t2 defaults h' eattrs,
     working_tree "/etc/idp" None (VStr "example.com") (VInt 443) sample_conf
     = Done t2 /\
     defaults_of sample_server_heap = Some defaults /\
     attach sample_entity_root sample_server_heap = Ok tt h' /\
     h' !! sample_self
     = Some (OInst CConfiguration
               (assoc_set [] "provider" (VRef (length sample_server_heap)))) /\
     (forall l, l < length sample_server_heap -> l <> sample_self ->
                h' !! l = sample_server_heap !! l) /\
     h' !! length sample_server_heap = Some (OInst COPConfiguration eattrs) /\
     map fst eattrs = OP_SCHEMA /\
     assoc_get eattrs "template_dir" = Some (VStr "/srv/op/templates") /\
     (forall key, key ∈ OP_SCHEMA -> key <> "template_dir" ->
        (falsy_at t2 key = false ->
         exists v x Fx,
           tree_get t2 key = Some x /\ assoc_get eattrs key = Some v /\
           repr h' v x Fx) /\
        (falsy_at t2 key = true ->
         forall dv, assoc_get defaults key = Some dv ->
                    assoc_get eattrs key = Some dv)) /\
     assoc_get eattrs "issuer" = Some (VStr "https://example.com:443") /\
     for_each ([sample_entity_root] ++ sample_entity_missing :: [sample_entity])
       attach sample_server_heap = Raise KeyError h') /\
  (exists h' lg web F2,
     attach sample_entity_server sample_server_heap = Ok tt h' /\
     h' !! sample_self
     = Some (OInst CConfiguration
               (assoc_set [] "web" (VRef (length sample_server_heap)))) /\
     h' !! length sample_server_heap
     = Some (OInst CConfiguration
               [("logger", VLogger lg); ("webserver", web)]) /\
     repr h' (VRef 33) (TDict [("port", TInt 8080)]) F2).
Proof.
  intros attach.
  destruct (entity_attacher_contract 5 "/srv/op" sample_self sample_ref
              "/etc/idp" None) as [_ Hcontract].
  specialize (Hcontract (VStr "example.com") (VInt 443)). cbv zeta in Hcontract.
  destruct Hcontract
    as (Horder & Hmissing & Hmalformed & Hprovider & Hserver & HBase & Hkeep).
  assert (Hmiss : forall h,
            h !! 32 = sample_server_heap !! 32 ->
            h !! 34 = sample_server_heap !! 34 ->
            attach sample_entity_missing h = Raise KeyError h).
  { intros h H32 H34.
    apply (Hmissing sample_entity_missing ["keys"] "jwks" ["private"] h 32
             [("private_path", VStr "jwks.json");
              ("public_path", VStr "/srv/static/jwks.json");
              ("db_file", VStr "");
              ("key_defs", VRef 31)]); [reflexivity| |exact H32|reflexivity].
    simpl. unfold bind, getitem, bind, load. simpl. rewrite H34. reflexivity. }
  split; [apply Hmiss; reflexivity|].
  split.
  { apply (Hmalformed sample_entity_malformed (VRef 32)); [reflexivity|].
    left. reflexivity. }
  split.
  { apply (HBase sample_entity_Base (VRef 32) "op"); reflexivity. }
  split.
  - assert (exists F, repr sample_server_heap sample_ref sample_conf F)
      as [F HF].
    { destruct sample_objects as [F HF]. exists F.
      eapply repr_frame; [exact HF|]. intros l Hl. apply lookup_app_l.
      eapply repr_valid; [exact HF|exact Hl]. }
    assert (exists t2, working_tree "/etc/idp" None (VStr "example.com")
                         (VInt 443) sample_conf = Done t2) as [t2 Hwork].
    { eexists. vm_compute. reflexivity. }
    assert (exists defaults, defaults_of sample_server_heap = Some defaults)
      as [defaults Hdef].
    { eexists. vm_compute. reflexivity. }
    assert (Hwork' := Hwork). vm_compute in Hwork'. injection Hwork' as <-.
    assert (Hdef' := Hdef). vm_compute in Hdef'. injection Hdef' as <-.
    assert (Hplain : "provider" ∉ DATA_DESCRIPTORS).
    { apply (bool_decide_unpack _). vm_compute. exact I. }
    destruct (Hprovider sample_entity_root sample_ref "provider" CConfiguration
                [] _ _ _ "/srv/op/templates" sample_server_heap F
                eq_refl eq_refl eq_refl Hplain eq_refl HF Hdef Hwork
                eq_refl eq_refl eq_refl ltac:(vm_compute; lia))
      as (h' & eattrs & Hrun & Hself & Hframe & Hnew & Hnames & Htdattr
          & Hmerge).
    eexists _, _, h', eattrs.
    split; [exact Hwork|]. split; [exact Hdef|]. split; [exact Hrun|].
    split; [exact Hself|]. split; [exact Hframe|]. split; [exact Hnew|].
    split; [exact Hnames|]. split; [exact Htdattr|]. split; [exact Hmerge|].
    split.
    + assert (Hin : "issuer" ∈ OP_SCHEMA).
      { apply (bool_decide_unpack _). vm_compute. exact I. }
      assert (Hne : "issuer" <> "template_dir") by discriminate.
      destruct (proj1 (Hmerge "issuer" Hin Hne) eq_refl)
        as (v & x & Fx & Hx & Hv & Hrep).
      vm_compute in Hx. injection Hx as <-.
      inversion Hrep; subst. exact Hv.
    + apply (Hkeep [sample_entity_root] sample_entity_missing [sample_entity]
               KeyError sample_server_heap h' h').
      * unfold attach. cbn [for_each]. unfold bind. rewrite Hrun. reflexivity.
      * apply Hmiss; apply Hframe; vm_compute; lia.
  - assert (exists F, repr sample_server_heap (VRef 33)
                        (TDict [("port", TInt 8080)]) F) as [F HF].
    { eexists. eapply repr_Dict; [vm_compute; reflexivity| | |]; repr_solve. }
    assert (Hplain : "web" ∉ DATA_DESCRIPTORS).
    { apply (bool_decide_unpack _). vm_compute. exact I. }
    destruct (Hserver sample_entity_server (VRef 33) "web" CConfiguration []
                [("port", TInt 8080)] (TDict [("port", TInt 8080)])
                sample_server_heap F
                eq_refl eq_refl eq_refl Hplain eq_refl HF eq_refl
                eq_refl eq_refl ltac:(vm_compute; lia))
      as (h' & lg & web & F2 & Hrun & Hself & Hframe & Hnew & Hrep).
    exists h', lg, web, F2.
    split; [exact Hrun|]. split; [exact Hself|]. split; [exact Hnew|exact Hrep].
Defined.

(** The whole builder on the sample with two descriptors, computed: the
    descriptor without a path gets a provider configuration of the
    whole configuration, as the server-level build has resolved and
    substituted it, and the other one a server configuration of the
    web server settings. *)
Example Configuration_with_entities :
  exists h',
    Configuration 5 "/srv/op" sample_ref
      (Some [sample_entity_root; sample_entity_server]) "/etc/idp" None
      (VStr "example.com") (VInt 443) sample_heap = Ok (VRef 35) h' /\
    h' !! 35
    = Some (OInst CConfiguration
              [("logger", VLogger false); ("webserver", VRef 33);
               ("provider", VRef 38); ("web", VRef 50)]) /\
    attr_of h' 38 "issuer" = Some (VStr "https://example.com:443") /\
    attr_of h' 38 "template_dir" = Some (VStr "/srv/op/templates") /\
    h' !! 50
    = Some (OInst CConfiguration
              [("logger", VLogger false); ("webserver", VRef 51)]).
Proof. eexists. split; [vm_compute; reflexivity|]. repeat split; reflexivity. Qed.
